(** * Data versioning service: replay, schema checks, batching, search, cache

    A shallow embedding of the Python sources
    - [app/models/models.py] (rows of the relational store),
    - [app/schemas/schemas.py] (request and response bodies, the data validator),
    - [app/api/endpoints/versions.py] (dataset and version end points, replay),
    - [app/utils/dataset_utils.py] (schema compatibility warnings, data diff),
    - [app/utils/enhanced_operations.py] (bulk insert, search, cached read),
    - [app/api/endpoints/enhanced_versions.py] (the end points of the latter),
    followed by the properties proved about them. *)

From Stdlib Require Import List String Ascii Bool ZArith Lia PeanoNat.
From Stdlib Require Import SpecFloat DecimalString.
From Stdlib Require Import Sorted Permutation.
Import ListNotations.
Local Open Scope string_scope.
Local Open Scope list_scope.

Set Implicit Arguments.
Set Warnings "-register-all".

(** ** Python values, exceptions and dictionaries *)

Module Py.

(** JSON values as [json.loads] hands them to the code.  Numbers are the
    integers; a dictionary keeps its keys in insertion order, as Python's
    [dict] does, and never holds a key twice. *)
Inductive value : Type :=
| VNone
| VBool (b : bool)
| VInt (z : Z)
| VStr (s : string)
| VList (items : list value)
| VDict (fields : list (string * value)).

Definition dict : Type := list (string * value).

(** The exceptions the modelled code can raise. *)
Inductive exn : Type :=
| KeyError (key : string)
| TypeError
| AttributeError
| ValueError
| DatabaseError
| HTTPException (status_code : Z).

Inductive result (A : Type) : Type :=
| Ok (a : A)
| Raise (e : exn).

Arguments Ok {A} a.
Arguments Raise {A} e.

Definition bind {A B : Type} (m : result A) (k : A -> result B) : result B :=
  match m with
  | Ok a => k a
  | Raise e => Raise e
  end.

Declare Scope py_scope.
Delimit Scope py_scope with py.
Notation "x <- m ;; k" := (bind m (fun x => k))
  (at level 61, m at next level, right associativity) : py_scope.
Local Open Scope py_scope.

(** [for x in xs: acc = body(acc, x)], stopping at the first exception. *)
Fixpoint for_each {A S : Type} (body : S -> A -> result S) (xs : list A) (acc : S)
  : result S :=
  match xs with
  | [] => Ok acc
  | x :: rest => acc' <- body acc x ;; for_each body rest acc'
  end.

(** [[x for x in xs if keep(x)]], stopping at the first exception. *)
Fixpoint comprehension_if {A : Type} (keep : A -> result bool) (xs : list A)
  : result (list A) :=
  match xs with
  | [] => Ok []
  | x :: rest =>
      b <- keep x ;;
      rest' <- comprehension_if keep rest ;;
      Ok (if b then x :: rest' else rest')
  end.

Section Dict.
Variable V : Type.

(** [d.get(k)] as an option. *)
Fixpoint dict_get (k : string) (d : list (string * V)) : option V :=
  match d with
  | [] => None
  | (k', v) :: rest => if String.eqb k k' then Some v else dict_get k rest
  end.

(** [k in d]. *)
Definition dict_mem (k : string) (d : list (string * V)) : bool :=
  match dict_get k d with Some _ => true | None => false end.

(** [d[k] = v]: an existing key keeps its position, a new key goes last. *)
Fixpoint dict_set (k : string) (v : V) (d : list (string * V)) : list (string * V) :=
  match d with
  | [] => [(k, v)]
  | (k', v') :: rest =>
      if String.eqb k k' then (k', v) :: rest else (k', v') :: dict_set k v rest
  end.

(** [d.update(other)]. *)
Definition dict_update (d other : list (string * V)) : list (string * V) :=
  fold_left (fun acc kv => dict_set (fst kv) (snd kv) acc) other d.

(** [{key(x): x for x in xs}]. *)
Definition dict_of_list (key : V -> string) (xs : list V) : list (string * V) :=
  fold_left (fun acc x => dict_set (key x) x acc) xs [].

Definition keys (d : list (string * V)) : list string := map fst d.

(** No key twice: the invariant of every Python dictionary. *)
Definition wf_dict (d : list (string * V)) : Prop := NoDup (keys d).
End Dict.

(** [d.get(k, default)]. *)
Definition get_default (k : string) (default : value) (d : dict) : value :=
  match dict_get k d with Some v => v | None => default end.

(** Python's [==] on JSON values: [bool] is a subclass of [int] ([True == 1]),
    lists compare element by element, dictionaries by size and by looking every
    key of the left one up in the right one. *)
Fixpoint py_eqb (a b : value) {struct a} : bool :=
  match a, b with
  | VNone, VNone => true
  | VBool x, VBool y => Bool.eqb x y
  | VBool x, VInt y => Z.eqb (Z.b2z x) y
  | VInt x, VBool y => Z.eqb x (Z.b2z y)
  | VInt x, VInt y => Z.eqb x y
  | VStr x, VStr y => String.eqb x y
  | VList xs, VList ys =>
      (fix seq_eqb (l1 l2 : list value) {struct l1} : bool :=
         match l1, l2 with
         | [], [] => true
         | x :: l1', y :: l2' => py_eqb x y && seq_eqb l1' l2'
         | _, _ => false
         end) xs ys
  | VDict d1, VDict d2 =>
      Nat.eqb (List.length d1) (List.length d2) &&
      (fix all_fields (d : list (string * value)) {struct d} : bool :=
         match d with
         | [] => true
         | (k, v) :: d' =>
             match dict_get k d2 with
             | Some v' => py_eqb v v'
             | None => false
             end && all_fields d'
         end) d1
  | _, _ => false
  end.

(** [needle in hay] for two strings. *)
Fixpoint substringb (needle hay : string) : bool :=
  String.prefix needle hay ||
  match hay with
  | EmptyString => false
  | String _ hay' => substringb needle hay'
  end.

Fixpoint chars (s : string) : list value :=
  match s with
  | EmptyString => []
  | String c s' => VStr (String c EmptyString) :: chars s'
  end.

(** The items a [for] loop or [list.extend] draws from a value. *)
Definition py_iter (v : value) : result (list value) :=
  match v with
  | VList items => Ok items
  | VDict fields => Ok (map VStr (keys fields))
  | VStr s => Ok (chars s)
  | VNone | VBool _ | VInt _ => Raise TypeError
  end.

(** [v[k]] for a string key [k]. *)
Definition py_getitem (v : value) (k : string) : result value :=
  match v with
  | VDict fields =>
      match dict_get k fields with
      | Some x => Ok x
      | None => Raise (KeyError k)
      end
  | _ => Raise TypeError
  end.

(** [x in container]. *)
Definition py_contains (x container : value) : result bool :=
  match container with
  | VList items => Ok (existsb (fun item => py_eqb item x) items)
  | VDict fields =>
      match x with
      | VStr s => Ok (dict_mem s fields)
      | VList _ | VDict _ => Raise TypeError
      | VNone | VBool _ | VInt _ => Ok false
      end
  | VStr hay =>
      match x with
      | VStr needle => Ok (substringb needle hay)
      | _ => Raise TypeError
      end
  | VNone | VBool _ | VInt _ => Raise TypeError
  end.

(** [target.update(other)], returning the updated object. *)
Definition py_update (target other : value) : result value :=
  match target, other with
  | VDict d, VDict o => Ok (VDict (dict_update d o))
  | VDict _, _ => Raise TypeError
  | _, _ => Raise AttributeError
  end.

End Py.

Import Py.
Local Open Scope py_scope.

(** ** app/models/models.py *)

(** Identifiers ([UUID]) are numbers and times ([DateTime]) are integers.  Of
    each table the columns the modelled functions read or write are kept. *)

Module Models.

Definition uuid : Type := N.
Definition datetime : Type := Z.

Bind Scope N_scope with uuid.
Bind Scope Z_scope with datetime.

(** [Enum('INSERT', 'UPDATE', 'DELETE')]. *)
Inductive operation : Type := INSERT | UPDATE | DELETE.

Definition operation_eqb (a b : operation) : bool :=
  match a, b with
  | INSERT, INSERT | UPDATE, UPDATE | DELETE, DELETE => true
  | _, _ => false
  end.

Record Dataset : Type := {
  dataset_id : uuid;
  dataset_name : string;
  dataset_created_by : uuid;
  dataset_created_at : datetime
}.

Record Version : Type := {
  version_id : uuid;
  v_dataset_id : uuid;
  version_number : string;
  created_at : datetime;
  created_by : uuid;
  change_type : option operation;
  comment : option string
}.

Record SchemaVersion : Type := {
  sv_version_id : uuid;
  column_name : string;
  data_type : string;
  is_nullable : bool;
  description : option string
}.

(** [changed_data] is a JSON column; every writer of the repository stores a
    JSON object in it.  [changed_by] is left unset by [bulk_insert]. *)
Record ChangeLog : Type := {
  cl_version_id : uuid;
  changed_by : option uuid;
  operation_type : operation;
  changed_data : dict
}.

(** The tables, each in storage order. *)
Record DB : Type := {
  db_datasets : list Dataset;
  db_versions : list Version;
  db_schema_versions : list SchemaVersion;
  db_change_log : list ChangeLog
}.

Section OrderBy.
Variable A : Type.
Variable le : A -> A -> bool.

Fixpoint insert_by (x : A) (sorted : list A) : list A :=
  match sorted with
  | [] => [x]
  | y :: rest => if le x y then x :: y :: rest else y :: insert_by x rest
  end.

(** [ORDER BY], as a stable sort of the rows in the order given.  Where no
    two rows have the same key this is the one order SQL can answer in; rows
    of equal key come in the order given, one of the orders SQL may choose. *)
Definition order_by (rows : list A) : list A := fold_right insert_by [] rows.
End OrderBy.

End Models.

Import Models.

(** ** app/schemas/schemas.py *)

Module Schemas.

Record SchemaDefinition : Type := {
  sd_column_name : string;
  sd_data_type : string;
  sd_is_nullable : bool;
  sd_description : option string
}.

Record DatasetCreate : Type := {
  dc_dataset_name : string;
  dc_schema_definition : list SchemaDefinition;
  dc_data : list dict
}.

(** [change_type] is validated against [^(INSERT|UPDATE|DELETE)$]. *)
Record VersionCreate : Type := {
  vc_data : list dict;
  vc_schema_changes : option (list SchemaDefinition);
  vc_comment : option string;
  vc_change_type : operation
}.

Record VersionInfo : Type := {
  vi_version_id : uuid;
  vi_version_number : string;
  vi_created_at : datetime;
  vi_created_by : uuid;
  vi_change_type : option operation;
  vi_comment : option string;
  vi_schema_definition : list SchemaVersion;
  complete_data : list value
}.

(** The [data] validator of [DatasetCreate]: with a validated schema at hand,
    every key of every row must be a column name.  [schema_definition] is
    [None] when that field did not validate. *)
Definition validate_data_against_schema (schema_definition : option (list SchemaDefinition))
    (v : list dict) : result (list dict) :=
  match schema_definition with
  | Some columns =>
      let schema_columns := map sd_column_name columns in
      for_each
        (fun checked row =>
           if negb (forallb (fun key => existsb (String.eqb key) schema_columns) (keys row))
           then Raise ValueError
           else Ok checked)
        v v
  | None => Ok v
  end.

Record VersionListInfo : Type := {
  vl_version_id : uuid;
  vl_version_number : string;
  vl_created_at : datetime;
  vl_created_by : uuid;
  vl_change_type : option operation;
  vl_comment : option string;
  vl_schema_definition : list SchemaDefinition
}.

Record VersionList : Type := {
  versions : list VersionListInfo;
  total_count : nat
}.

End Schemas.

Import Schemas.

(** ** app/api/endpoints/versions.py: the replay loop *)

Module Versions.

(** The accumulator [complete_data] holds the record objects of the payloads
    themselves, and the UPDATE branch changes them in place.  A payload is
    read once, when its entry is replayed, and the rows of one request are
    distinct objects, so the loop is a fold over a list of values. *)

(** [change_log.changed_data or {}]. *)
Definition or_empty (d : dict) : dict :=
  match d with
  | [] => []
  | _ => d
  end.

(** The inner loop of the UPDATE branch:
    [for existing_record in complete_data:
       if existing_record["id"] == record["id"]:
         existing_record.update(record); break]. *)
Fixpoint update_first (record : value) (complete_data : list value)
  : result (list value) :=
  match complete_data with
  | [] => Ok []
  | existing_record :: rest =>
      lhs <- py_getitem existing_record "id" ;;
      rhs <- py_getitem record "id" ;;
      if py_eqb lhs rhs
      then updated <- py_update existing_record record ;; Ok (updated :: rest)
      else rest' <- update_first record rest ;; Ok (existing_record :: rest')
  end.

(** The body of [for change_log in change_logs]. *)
Definition replay_step (complete_data : list value) (change_log : ChangeLog)
  : result (list value) :=
  let changed_data := or_empty (changed_data change_log) in
  match operation_type change_log with
  | INSERT =>
      if dict_mem "initial_data" changed_data
      then items <- py_iter (get_default "initial_data" (VList []) changed_data) ;;
           Ok (complete_data ++ items)
      else items <- py_iter (get_default "added" (VList []) changed_data) ;;
           Ok (complete_data ++ items)
  | UPDATE =>
      records <- py_iter (get_default "modified" (VList []) changed_data) ;;
      for_each (fun acc record => update_first record acc) records complete_data
  | DELETE =>
      comprehension_if
        (fun record =>
           found <- py_contains record (get_default "deleted" (VList []) changed_data) ;;
           Ok (negb found))
        complete_data
  end.

(** [complete_data = []; for change_log in change_logs: ...]. *)
Definition replay (change_logs : list ChangeLog) : result (list value) :=
  for_each replay_step change_logs [].

(** *** Floating point: [f"{float(s) + 0.1:.1f}"]

    Python floats are IEEE 754 binary64 numbers, rounded to nearest, ties to
    even: [SpecFloat] at precision 53 and maximal exponent 1024.  A [str] is
    modelled by its UTF-8 bytes. *)

Definition prec : Z := 53.
Definition emax : Z := 1024.

(** **** The characters [float] reads *)

Definition continuation_byte (c : ascii) : option N :=
  let b := N_of_ascii c in
  if (128 <=? b)%N && (b <=? 191)%N then Some (b - 128)%N else None.

(** The code points of a UTF-8 text; [None] for bytes that are no UTF-8 (no
    [str] has them). *)
Fixpoint code_points (s : string) : option (list N) :=
  match s with
  | EmptyString => Some []
  | String c rest =>
      let b := N_of_ascii c in
      if (b <? 128)%N then option_map (cons b) (code_points rest)
      else if (b <? 194)%N then None
      else if (b <? 224)%N then
        match rest with
        | String c1 rest1 =>
            match continuation_byte c1 with
            | Some x1 => option_map (cons ((b - 192) * 64 + x1)%N) (code_points rest1)
            | None => None
            end
        | EmptyString => None
        end
      else if (b <? 240)%N then
        match rest with
        | String c1 (String c2 rest2) =>
            match continuation_byte c1, continuation_byte c2 with
            | Some x1, Some x2 =>
                let cp := ((b - 224) * 4096 + x1 * 64 + x2)%N in
                if (cp <? 2048)%N || ((55296 <=? cp)%N && (cp <=? 57343)%N)
                then None
                else option_map (cons cp) (code_points rest2)
            | _, _ => None
            end
        | _ => None
        end
      else if (b <? 245)%N then
        match rest with
        | String c1 (String c2 (String c3 rest3)) =>
            match continuation_byte c1, continuation_byte c2, continuation_byte c3 with
            | Some x1, Some x2, Some x3 =>
                let cp := ((b - 240) * 262144 + x1 * 4096 + x2 * 64 + x3)%N in
                if (cp <? 65536)%N || (1114111 <? cp)%N
                then None
                else option_map (cons cp) (code_points rest3)
            | _, _, _ => None
            end
        | _ => None
        end
      else None
  end.

(** The code points of the digit zero of each script (Unicode 14.0, category
    Nd); the nine code points after each are its digits one to nine. *)
Definition decimal_zeros : list N :=
  [ 1632; 1776; 1984; 2406; 2534; 2662; 2790; 2918; 3046; 3174; 3302; 3430; 3558; 3664;
    3792; 3872; 4160; 4240; 6112; 6160; 6470; 6608; 6784; 6800; 6992; 7088; 7232; 7248;
    42528; 43216; 43264; 43472; 43504; 43600; 44016; 65296; 66720; 68912; 69734; 69872;
    69942; 70096; 70384; 70736; 70864; 71248; 71360; 71472; 71904; 72016; 72784; 73040;
    73120; 92768; 92864; 93008; 120782; 120792; 120802; 120812; 120822; 123200; 123632;
    125264; 130032 ]%N.

(** The white space beyond ASCII ([str.isspace]). *)
Definition unicode_spaces : list N :=
  [ 133; 160; 5760; 8192; 8193; 8194; 8195; 8196; 8197; 8198; 8199; 8200; 8201; 8202;
    8232; 8233; 8239; 8287; 12288 ]%N.

Definition decimal_digit (cp : N) : option N :=
  match find (fun zero => (zero <=? cp)%N && (cp <? zero + 10)%N) decimal_zeros with
  | Some zero => Some (cp - zero)%N
  | None => None
  end.

(** Before it parses, [float] turns every white space beyond ASCII into a
    blank and every decimal digit of any script into the ASCII digit; ASCII
    stays as it is.  Any other character ends the numeral in error. *)
Definition ascii_of_code_point (cp : N) : option ascii :=
  if (cp <? 128)%N then Some (ascii_of_N cp)
  else if existsb (N.eqb cp) unicode_spaces then Some " "%char
  else option_map (fun d => ascii_of_N (48 + d)) (decimal_digit cp).

Fixpoint ascii_text (cps : list N) : option string :=
  match cps with
  | [] => Some EmptyString
  | cp :: rest =>
      match ascii_of_code_point cp, ascii_text rest with
      | Some c, Some s => Some (String c s)
      | _, _ => None
      end
  end.

Definition is_digit (c : ascii) : bool :=
  let n := N_of_ascii c in (48 <=? n)%N && (n <=? 57)%N.

(** [Py_ISSPACE]: blank, tab, line feed, vertical tab, form feed, return. *)
Definition is_space (c : ascii) : bool :=
  let n := N_of_ascii c in N.eqb n 32 || ((9 <=? n)%N && (n <=? 13)%N).

(** An underscore may stand between two digits only, and is dropped. *)
Fixpoint without_underscores (prev : ascii) (s : string) : option string :=
  match s with
  | EmptyString => if Ascii.eqb prev "_" then None else Some EmptyString
  | String c rest =>
      if Ascii.eqb c "_"
      then if is_digit prev then without_underscores c rest else None
      else if Ascii.eqb prev "_" && negb (is_digit c) then None
           else option_map (String c) (without_underscores c rest)
  end.

Fixpoint lstrip (s : string) : string :=
  match s with
  | String c rest => if is_space c then lstrip rest else s
  | EmptyString => EmptyString
  end.

Fixpoint rstrip (s : string) : string :=
  match s with
  | EmptyString => EmptyString
  | String c rest =>
      match rstrip rest with
      | EmptyString => if is_space c then EmptyString else String c EmptyString
      | rest' => String c rest'
      end
  end.

(** **** Numerals *)

Definition digit_of_ascii (c : ascii) : option Z :=
  let n := Z.of_nat (nat_of_ascii c) in
  if (48 <=? n)%Z && (n <=? 57)%Z then Some (n - 48)%Z else None.

(** Reads a run of decimal digits after the digits already read ([acc] their
    value, [count] their number); gives what follows the run. *)
Fixpoint read_digits (s : string) (acc : Z) (count : nat) : Z * nat * string :=
  match s with
  | EmptyString => (acc, count, EmptyString)
  | String c rest =>
      match digit_of_ascii c with
      | Some d => read_digits rest (10 * acc + d)%Z (S count)
      | None => (acc, count, s)
      end
  end.

Definition read_sign (s : string) : bool * string :=
  match s with
  | String c rest =>
      if Ascii.eqb c "-" then (true, rest)
      else if Ascii.eqb c "+" then (false, rest)
      else (false, s)
  | EmptyString => (false, s)
  end.

(** What may follow the digits: nothing, or [e] or [E], a sign if any, and at
    least one digit. *)
Definition read_exponent (s : string) : option Z :=
  match s with
  | EmptyString => Some 0%Z
  | String c rest =>
      if Ascii.eqb c "e" || Ascii.eqb c "E"
      then let (negative, digits) := read_sign rest in
           match read_digits digits 0%Z 0 with
           | (e, S _, EmptyString) => Some (if negative then (- e)%Z else e)
           | _ => None
           end
      else None
  end.

(** A decimal numeral as its sign, an integer [num] and a power of ten
    [e10], its value being [num * 10 ^ e10]: ["-12.5e3"] is [(true, 125, 2)].
    There is a digit before or after the point. *)
Definition decimal_of_string (s : string) : option (bool * Z * Z) :=
  let (negative, s1) := read_sign s in
  let '(whole, n1, s2) := read_digits s1 0%Z 0 in
  let '(num, n2, s3) :=
    match s2 with
    | String c frac =>
        if Ascii.eqb c "." then read_digits frac whole 0 else (whole, 0, s2)
    | EmptyString => (whole, 0, s2)
    end in
  if Nat.eqb (n1 + n2) 0 then None
  else match read_exponent s3 with
       | Some e => Some (negative, num, (e - Z.of_nat n2)%Z)
       | None => None
       end.

Definition lower (c : ascii) : ascii :=
  let n := N_of_ascii c in
  if (65 <=? n)%N && (n <=? 90)%N then ascii_of_N (n + 32) else c.

Fixpoint lowercase (s : string) : string :=
  match s with
  | EmptyString => EmptyString
  | String c rest => String (lower c) (lowercase rest)
  end.

(** [inf], [infinity] and [nan], in any case, with a sign if any. *)
Definition special_of_string (s : string) : option spec_float :=
  let (negative, name) := read_sign s in
  let name := lowercase name in
  if String.eqb name "inf" || String.eqb name "infinity" then Some (S754_infinity negative)
  else if String.eqb name "nan" then Some S754_nan
  else None.

(** The binary64 number nearest to [num * 10 ^ e10].  A number of four
    hundred digits or more before the point is beyond every finite float, and
    one that starts four hundred places after the point is below half the
    least one. *)
Definition float_of_decimal (negative : bool) (num e10 : Z) : spec_float :=
  match num with
  | Zpos m =>
      if (400 <? e10)%Z then S754_infinity negative
      else if (e10 <? - (401 + Z.log2 num))%Z then S754_zero negative
      else if (0 <=? e10)%Z
           then SFdiv prec emax
                  (S754_finite negative (m * Z.to_pos (10 ^ e10)) 0)
                  (S754_finite false 1 0)
           else SFdiv prec emax
                  (S754_finite negative m 0)
                  (S754_finite false (Z.to_pos (10 ^ (- e10))) 0)
  | _ => S754_zero negative
  end.

(** [float(s)] for a [str]. *)
Definition py_float (s : string) : result spec_float :=
  match code_points s with
  | None => Raise ValueError
  | Some cps =>
      match ascii_text cps with
      | None => Raise ValueError
      | Some text =>
          match without_underscores zero text with
          | None => Raise ValueError
          | Some text =>
              let numeral := rstrip (lstrip text) in
              match decimal_of_string numeral with
              | Some (negative, num, e10) => Ok (float_of_decimal negative num e10)
              | None =>
                  match special_of_string numeral with
                  | Some x => Ok x
                  | None => Raise ValueError
                  end
              end
          end
      end
  end.

(** The literal [0.1]. *)
Definition one_tenth : spec_float := float_of_decimal false 1 (-1).

Definition string_of_Z (z : Z) : string :=
  NilZero.string_of_uint (N.to_uint (Z.to_N z)).

(** [m * 2 ^ e] times ten, rounded to the nearest integer, ties to even. *)
Definition tenths_nearest_even (m : positive) (e : Z) : Z :=
  match e with
  | Zneg p =>
      let d := Z.pow 2 (Zpos p) in
      let q := (10 * Zpos m / d)%Z in
      let r := (10 * Zpos m mod d)%Z in
      match (2 * r ?= d)%Z with
      | Lt => q
      | Gt => (q + 1)%Z
      | Eq => if Z.even q then q else (q + 1)%Z
      end
  | _ => (10 * Zpos m * Z.pow 2 e)%Z
  end.

(** [f"{x:.1f}"]: the decimal numeral with one digit after the point nearest
    to the exact value of [x]. *)
Definition format_1f (x : spec_float) : string :=
  match x with
  | S754_zero s => (if s then "-" else "") ++ "0.0"
  | S754_infinity s => (if s then "-" else "") ++ "inf"
  | S754_nan => "nan"
  | S754_finite s m e =>
      let t := tenths_nearest_even m e in
      (if s then "-" else "") ++ string_of_Z (t / 10) ++ "." ++ string_of_Z (t mod 10)
  end.

(** [f"{float(version_number) + 0.1:.1f}"]. *)
Definition next_version_number (version_number : string) : result string :=
  x <- py_float version_number ;;
  Ok (format_1f (SFadd prec emax x one_tenth)).

(** *** Queries and end points *)

(** [db.query(Version).filter(dataset_id == ..., version_number == ...).first()]. *)
Definition query_version (db : DB) (dataset : uuid) (number : string) : option Version :=
  find (fun v => N.eqb (v_dataset_id v) dataset && String.eqb (version_number v) number)
       (db_versions db).

(** [db.query(Version).filter(dataset_id == ...).order_by(created_at.desc()).first()]. *)
Definition query_latest_version (db : DB) (dataset : uuid) : option Version :=
  hd_error
    (order_by (fun a b => (created_at b <=? created_at a)%Z)
       (filter (fun v => N.eqb (v_dataset_id v) dataset) (db_versions db))).

(** [db.query(SchemaVersion).filter(version_id == ...).all()]. *)
Definition query_schema (db : DB) (version : uuid) : list SchemaVersion :=
  filter (fun sv => N.eqb (sv_version_id sv) version) (db_schema_versions db).

(** [db.query(ChangeLog).join(Version)]: each change-log row with its version. *)
Definition join_change_log (db : DB) : list (ChangeLog * Version) :=
  flat_map
    (fun cl =>
       map (pair cl)
           (filter (fun v => N.eqb (version_id v) (cl_version_id cl)) (db_versions db)))
    (db_change_log db).

(** The change logs of a dataset up to a creation time, oldest version first. *)
Definition query_change_logs (db : DB) (dataset : uuid) (upto : datetime)
  : list ChangeLog :=
  map fst
    (order_by (fun a b => (created_at (snd a) <=? created_at (snd b))%Z)
       (filter
          (fun row => N.eqb (v_dataset_id (snd row)) dataset
                      && (created_at (snd row) <=? upto)%Z)
          (join_change_log db))).

Definition get_specific_version (db : DB) (dataset : uuid) (number : string)
  : result VersionInfo :=
  match query_version db dataset number with
  | None => Raise (HTTPException 404)
  | Some version =>
      let schema := query_schema db (version_id version) in
      let change_logs := query_change_logs db dataset (created_at version) in
      data <- replay change_logs ;;
      Ok {| vi_version_id := version_id version;
            vi_version_number := version_number version;
            vi_created_at := created_at version;
            vi_created_by := created_by version;
            vi_change_type := change_type version;
            vi_comment := comment version;
            vi_schema_definition := schema;
            complete_data := data |}
  end.

Definition schema_row (version : uuid) (column : SchemaDefinition) : SchemaVersion :=
  {| sv_version_id := version;
     column_name := sd_column_name column;
     data_type := sd_data_type column;
     is_nullable := sd_is_nullable column;
     description := sd_description column |}.

(** [create_dataset]; the fresh identifiers and the clock come from outside. *)
Definition create_dataset (db : DB) (dataset : DatasetCreate) (current_user : uuid)
    (new_dataset_id new_version_id : uuid) (now : datetime) : DB * Dataset :=
  let new_dataset :=
    {| dataset_id := new_dataset_id;
       dataset_name := dc_dataset_name dataset;
       dataset_created_by := current_user;
       dataset_created_at := now |} in
  let initial_version :=
    {| version_id := new_version_id;
       v_dataset_id := new_dataset_id;
       version_number := "1.0";
       created_at := now;
       created_by := current_user;
       change_type := Some INSERT;
       comment := None |} in
  let change_log :=
    {| cl_version_id := new_version_id;
       changed_by := Some current_user;
       operation_type := INSERT;
       changed_data := [("initial_data", VList (map VDict (dc_data dataset)))] |} in
  ({| db_datasets := db_datasets db ++ [new_dataset];
      db_versions := db_versions db ++ [initial_version];
      db_schema_versions :=
        db_schema_versions db ++ map (schema_row new_version_id) (dc_schema_definition dataset);
      db_change_log := db_change_log db ++ [change_log] |},
   new_dataset).

(** The change-log row [create_new_version] records. *)
Definition version_change_log (new_version_id current_user : uuid) (version : VersionCreate)
  : ChangeLog :=
  {| cl_version_id := new_version_id;
     changed_by := Some current_user;
     operation_type := vc_change_type version;
     changed_data := [("changes", VList (map VDict (vc_data version)))] |}.

(** [if version.schema_changes:] holds for a list that is given and not empty. *)
Definition new_schema_rows (db : DB) (latest new_version_id : uuid) (version : VersionCreate)
  : list SchemaVersion :=
  match vc_schema_changes version with
  | Some (column :: columns) => map (schema_row new_version_id) (column :: columns)
  | _ =>
      map (fun item =>
             {| sv_version_id := new_version_id;
                column_name := column_name item;
                data_type := data_type item;
                is_nullable := is_nullable item;
                description := description item |})
          (query_schema db latest)
  end.

Definition create_new_version (db : DB) (dataset : uuid) (version : VersionCreate)
    (current_user new_version_id : uuid) (now : datetime) : result (DB * Version) :=
  match find (fun d => N.eqb (dataset_id d) dataset) (db_datasets db) with
  | None => Raise (HTTPException 404)
  | Some _ =>
      match query_latest_version db dataset with
      | None => Raise AttributeError
      | Some latest_version =>
          new_version_number <- next_version_number (version_number latest_version) ;;
          let new_version :=
            {| version_id := new_version_id;
               v_dataset_id := dataset;
               version_number := new_version_number;
               created_at := now;
               created_by := current_user;
               change_type := Some (vc_change_type version);
               comment := vc_comment version |} in
          Ok ({| db_datasets := db_datasets db;
                 db_versions := db_versions db ++ [new_version];
                 db_schema_versions :=
                   db_schema_versions db
                   ++ new_schema_rows db (version_id latest_version) new_version_id version;
                 db_change_log :=
                   db_change_log db ++ [version_change_log new_version_id current_user version] |},
              new_version)
      end
  end.

(** [get_latest_version]: the replay loop is the one of
    [get_specific_version], up to the version created last. *)
Definition get_latest_version (db : DB) (dataset : uuid) : result VersionInfo :=
  match query_latest_version db dataset with
  | None => Raise (HTTPException 404)
  | Some latest_version =>
      let schema := query_schema db (version_id latest_version) in
      let change_logs := query_change_logs db dataset (created_at latest_version) in
      data <- replay change_logs ;;
      Ok {| vi_version_id := version_id latest_version;
            vi_version_number := version_number latest_version;
            vi_created_at := created_at latest_version;
            vi_created_by := created_by latest_version;
            vi_change_type := change_type latest_version;
            vi_comment := comment latest_version;
            vi_schema_definition := schema;
            complete_data := data |}
  end.

(** The greatest [bigint], the type of [LIMIT] and [OFFSET] in PostgreSQL. *)
Definition max_bigint : Z := 9223372036854775807.

(** [db.query(Version).filter(...).order_by(created_at.desc())
       .offset(skip).limit(limit).all()].
    [skip] and [limit] are any integers of the request.  PostgreSQL, the
    database of core/database.py, refuses a negative [OFFSET] or [LIMIT] and
    one that is no [bigint].  It leaves open
    in which order rows of equal [created_at] come and may answer two queries
    in two orders: [scan] is the order in which the engine reads the matching
    rows for this query, any arrangement of them. *)
Definition query_version_page (scan : list Version -> list Version) (db : DB)
    (dataset : uuid) (skip limit : Z) : result (list Version) :=
  if (skip <? 0)%Z || (limit <? 0)%Z || (max_bigint <? skip)%Z || (max_bigint <? limit)%Z
  then Raise DatabaseError
  else
    Ok (firstn (Z.to_nat limit)
          (skipn (Z.to_nat skip)
             (order_by (fun a b => (created_at b <=? created_at a)%Z)
                (scan (filter (fun v => N.eqb (v_dataset_id v) dataset) (db_versions db)))))).

Definition schema_definition_of (schema_version : SchemaVersion) : SchemaDefinition :=
  {| sd_column_name := column_name schema_version;
     sd_data_type := data_type schema_version;
     sd_is_nullable := is_nullable schema_version;
     sd_description := description schema_version |}.

Definition version_list_info (db : DB) (version : Version) : VersionListInfo :=
  {| vl_version_id := version_id version;
     vl_version_number := version_number version;
     vl_created_at := created_at version;
     vl_created_by := created_by version;
     vl_change_type := change_type version;
     vl_comment := comment version;
     vl_schema_definition :=
       map schema_definition_of (query_schema db (version_id version)) |}.

Definition list_versions (scan : list Version -> list Version) (db : DB)
    (dataset : uuid) (skip limit : Z) : result VersionList :=
  page <- query_version_page scan db dataset skip limit ;;
  Ok {| versions := map (version_list_info db) page;
        total_count :=
          List.length (filter (fun v => N.eqb (v_dataset_id v) dataset) (db_versions db)) |}.

End Versions.

Import Versions.


(** ** app/utils/dataset_utils.py *)

Module DatasetUtils.

(** A schema is a list of column dictionaries with the keys of
    [SchemaDefinition]; the record type stands for them. *)

(** The two loops of [validate_schema_compatibility], each appending its
    f-strings to [warnings]. *)
Definition validate_schema_compatibility (old_schema new_schema : list SchemaDefinition)
  : list string :=
  let old_columns := dict_of_list sd_column_name old_schema in
  let new_columns := dict_of_list sd_column_name new_schema in
  let warnings :=
    fold_left
      (fun warnings col_name =>
         if negb (dict_mem col_name new_columns)
         then warnings ++ [("Column '" ++ col_name ++ "' has been removed")%string]
         else warnings)
      (keys old_columns) [] in
  fold_left
    (fun warnings item =>
       let col_name := fst item in
       let new_col := snd item in
       match dict_get col_name old_columns with
       | Some old_col =>
           let warnings :=
             if negb (String.eqb (sd_data_type new_col) (sd_data_type old_col))
             then warnings
                  ++ [("Data type changed for column '" ++ col_name ++ "': "
                       ++ sd_data_type old_col ++ " -> " ++ sd_data_type new_col)%string]
             else warnings in
           if sd_is_nullable old_col && negb (sd_is_nullable new_col)
           then warnings
                ++ [("Column '" ++ col_name
                     ++ "' changed from nullable to non-nullable")%string]
           else warnings
       | None => warnings
       end)
    new_columns warnings.

(** *** calculate_data_diff

    The text [json.dumps(item, sort_keys=True)] is represented by the value
    [json.loads] reads back from it: the item with the keys of every
    dictionary in ascending order.  Two items have the same text exactly when
    these values are equal. *)

Fixpoint insert_key (k : string) (v : value) (sorted : dict) : dict :=
  match sorted with
  | [] => [(k, v)]
  | (k', v') :: rest =>
      if String.leb k k' then (k, v) :: sorted else (k', v') :: insert_key k v rest
  end.

Fixpoint sort_keys (v : value) : value :=
  match v with
  | VList items => VList (map sort_keys items)
  | VDict fields =>
      VDict ((fix sorted (d : list (string * value)) : dict :=
                match d with
                | [] => []
                | (k, x) :: rest => insert_key k (sort_keys x) (sorted rest)
                end) fields)
  | _ => v
  end.

Definition dumps (item : dict) : value := sort_keys (VDict item).

Definition loads (text : value) : value := text.

Definition value_eq_dec : forall a b : value, {a = b} + {a <> b}.
Proof.
  fix IH 1. intros a b.
  decide equality;
    try apply Bool.bool_dec; try apply Z.eq_dec; try apply string_dec.
  - apply (list_eq_dec IH).
  - apply list_eq_dec. decide equality. apply string_dec.
Defined.

(** A set of texts, as a list without repetition.  The order in which Python
    walks a set is not fixed; the order of this list stands for it and no
    statement relies on it. *)
Definition text_set (texts : list value) : list value := nodup value_eq_dec texts.

(** [a - b]. *)
Definition set_difference (a b : list value) : list value :=
  filter (fun text => if in_dec value_eq_dec text b then false else true) a.

Record DataDiff : Type := {
  added : list value;
  modified : list value;
  deleted : list value
}.

Definition calculate_data_diff (old_data new_data : list dict) : DataDiff :=
  let old_keys := text_set (map dumps old_data) in
  let new_keys := text_set (map dumps new_data) in
  {| added := map loads (set_difference new_keys old_keys);
     modified := [];
     deleted := map loads (set_difference old_keys new_keys) |}.

End DatasetUtils.

Import DatasetUtils.

(** ** app/utils/enhanced_operations.py *)

Module EnhancedOperations.

(** *** The SQLAlchemy session

    [committed] is the [change_log] table, [pending] the rows added since the
    last commit.  [calls] counts the calls made so far: the environment decides
    by that number which call fails for a reason of its own (a lost
    connection, or a foreign key of a row that points at no row of [versions]
    or [users], tables this session does not hold). *)
Record Session : Type := {
  committed : list ChangeLog;
  pending : list ChangeLog;
  calls : nat
}.

(** A computation on the session that may raise; the session survives the
    exception, as the [except] branch works on it. *)
Definition io (A : Type) : Type := Session -> result A * Session.

Definition ret {A : Type} (a : A) : io A := fun s => (Ok a, s).

Definition raise {A : Type} (e : exn) : io A := fun s => (Raise e, s).

Definition io_bind {A B : Type} (m : io A) (k : A -> io B) : io B :=
  fun s =>
    match m s with
    | (Ok a, s') => k a s'
    | (Raise e, s') => (Raise e, s')
    end.

(** [try: body except Exception as e: handler(e)]. *)
Definition try_except {A : Type} (body : io A) (handler : exn -> io A) : io A :=
  fun s =>
    match body s with
    | (Ok a, s') => (Ok a, s')
    | (Raise e, s') => handler e s'
    end.

Definition lift {A : Type} (r : result A) : io A := fun s => (r, s).

Declare Scope io_scope.
Delimit Scope io_scope with io.
Notation "x <~ m ;; k" := (io_bind m (fun x => k))
  (at level 61, m at next level, right associativity) : io_scope.
Local Open Scope io_scope.

(** What the table asks of a row when it is written: [changed_by] is
    [nullable=False] in models.py.  The other [NOT NULL] columns of
    [change_log] have a value in every row of this model. *)
Definition row_accepted (row : ChangeLog) : bool :=
  match changed_by row with
  | Some _ => true
  | None => false
  end.

Section SessionCalls.
(** [fails n]: the [n]-th call on the session raises. *)
Variable fails : nat -> bool.

Definition db_add (row : ChangeLog) : io unit :=
  fun s =>
    if fails (calls s)
    then (Raise DatabaseError,
          {| committed := committed s; pending := pending s; calls := S (calls s) |})
    else (Ok tt,
          {| committed := committed s; pending := pending s ++ [row];
             calls := S (calls s) |}).

(** [db.commit()] writes the pending rows; the table refuses the whole write
    when one of them breaks a constraint, and the rows stay pending until the
    rollback. *)
Definition db_commit : io unit :=
  fun s =>
    if fails (calls s) || negb (forallb row_accepted (pending s))
    then (Raise DatabaseError,
          {| committed := committed s; pending := pending s; calls := S (calls s) |})
    else (Ok tt,
          {| committed := committed s ++ pending s; pending := [];
             calls := S (calls s) |}).
End SessionCalls.

Definition db_rollback : io unit :=
  fun s => (Ok tt, {| committed := committed s; pending := []; calls := calls s |}).

(** *** bulk_insert *)

(** [range(start, stop, step)] for a positive step, by at most [fuel] items. *)
Fixpoint range_from (fuel start stop step : nat) : list nat :=
  match fuel with
  | O => []
  | S fuel' =>
      if Nat.ltb start stop then start :: range_from fuel' (start + step) stop step else []
  end.

(** [range(0, stop, step)]; a zero step raises [ValueError]. *)
Definition py_range (stop step : nat) : result (list nat) :=
  if Nat.eqb step 0 then Raise ValueError else Ok (range_from stop 0 stop step).

(** [xs[i:j]]. *)
Definition slice {A : Type} (i j : nat) (xs : list A) : list A :=
  firstn (j - i) (skipn i xs).

Record BulkResult : Type := {
  status : string;
  records_processed : nat
}.

(** The row [bulk_insert] builds for one batch. *)
Definition batch_change_log (dataset : uuid) (batch_data : list dict) : ChangeLog :=
  {| cl_version_id := dataset;
     changed_by := None;
     operation_type := INSERT;
     changed_data := [("batch_data", VList (map VDict batch_data))] |}.

Section BulkInsert.
Variable fails : nat -> bool.

(** [pd.DataFrame(data)], seen through [to_dict('records')]: one row per
    record, a slice of the frame giving the slice of the rows.  (A row has
    every column of the frame, in the order the keys first appear in [data];
    records that all have the same keys in the same order come back as they
    are.) *)
Variable frame_records : list dict -> list dict.

Variable dataset : uuid.
Variable batch_size : nat.

(** [for i in range(0, len(df), batch_size): ...] *)
Fixpoint bulk_loop (df : list dict) (offsets : list nat) (total_records : nat)
  : io nat :=
  match offsets with
  | [] => ret total_records
  | i :: rest =>
      let batch := slice i (i + batch_size) df in
      _ <~ db_add fails (batch_change_log dataset batch) ;;
      let total_records := total_records + List.length batch in
      _ <~ (if Nat.eqb (i mod (batch_size * 5)) 0 then db_commit fails else ret tt) ;;
      bulk_loop df rest total_records
  end.

Definition bulk_insert (data : list dict) : io BulkResult :=
  try_except
    (let df := frame_records data in
     offsets <~ lift (py_range (List.length df) batch_size) ;;
     total_records <~ bulk_loop df offsets 0 ;;
     _ <~ db_commit fails ;;
     ret {| status := "success"; records_processed := total_records |})
    (fun _ => _ <~ db_rollback ;; raise (HTTPException 500)).
End BulkInsert.

(** *** search_versions *)

Record Filters : Type := {
  date_range : option (datetime * datetime);
  f_change_type : option operation;
  f_schema_changes : option (list string)
}.

Record FormattedVersion : Type := {
  fv_version_id : uuid;
  fv_version_number : string;
  fv_created_at : datetime;
  fv_change_type : option operation;
  fv_schema_versions : list (string * string * bool)
}.

(** [version.schema_versions]. *)
Definition schema_versions_of (db : DB) (version : Version) : list SchemaVersion :=
  filter (fun sv => N.eqb (sv_version_id sv) (version_id version)) (db_schema_versions db).

Definition _format_version_result (db : DB) (version : Version) : FormattedVersion :=
  {| fv_version_id := version_id version;
     fv_version_number := version_number version;
     fv_created_at := created_at version;
     fv_change_type := change_type version;
     fv_schema_versions :=
       map (fun sv => (column_name sv, data_type sv, is_nullable sv))
           (schema_versions_of db version) |}.

(** A column compared with an enum value: SQL's [=] is not true on NULL. *)
Definition change_type_is (t : operation) (version : Version) : bool :=
  match change_type version with
  | Some c => operation_eqb c t
  | None => false
  end.

(** [query.join(SchemaVersion)]: one row per version and schema row of it. *)
Definition join_schema (db : DB) (query : list Version) : list (Version * SchemaVersion) :=
  flat_map (fun v => map (pair v) (schema_versions_of db v)) query.

(** The ORM returns each entity once, at its first row. *)
Fixpoint unique_entities (seen : list uuid) (rows : list Version) : list Version :=
  match rows with
  | [] => []
  | v :: rest =>
      if existsb (N.eqb (version_id v)) seen
      then unique_entities seen rest
      else v :: unique_entities (version_id v :: seen) rest
  end.

Definition search_query (db : DB) (dataset : uuid) (filters : Filters) : list Version :=
  let query := filter (fun v => N.eqb (v_dataset_id v) dataset) (db_versions db) in
  let query :=
    match date_range filters with
    | Some (range_start, range_end) =>
        filter (fun v => (range_start <=? created_at v)%Z && (created_at v <=? range_end)%Z)
               query
    | None => query
    end in
  let query :=
    match f_change_type filters with
    | Some t => filter (change_type_is t) query
    | None => query
    end in
  match f_schema_changes filters with
  | Some names =>
      unique_entities []
        (map fst
           (filter (fun row => existsb (String.eqb (column_name (snd row))) names)
                   (join_schema db query)))
  | None => query
  end.

Definition search_versions (db : DB) (dataset : uuid) (filters : Filters)
  : list FormattedVersion :=
  map (_format_version_result db) (search_query db dataset filters).

(** *** The cache and get_version_with_cache *)

(** What [get_version_with_cache] builds, caches and returns. *)
Record CachedVersion : Type := {
  version_info : FormattedVersion;
  data : list dict
}.

(** The Redis entries: under a key, the expiry time and the stored value.  The
    stored bytes are kept as the value they decompress to. *)
Definition Redis : Type := list ((uuid * string) * (datetime * CachedVersion)).

Definition key_eqb (a b : uuid * string) : bool :=
  N.eqb (fst a) (fst b) && String.eqb (snd a) (snd b).

(** [redis_client.setex(key, expire_time, value)]. *)
Definition setex (redis : Redis) (key : uuid * string) (expire_time : Z)
    (v : CachedVersion) (now : datetime) : Redis :=
  (key, ((now + expire_time)%Z, v)) :: filter (fun e => negb (key_eqb (fst e) key)) redis.

(** [redis_client.get(key)]: an expired entry is gone. *)
Definition redis_get (redis : Redis) (key : uuid * string) (now : datetime)
  : option CachedVersion :=
  match find (fun e => key_eqb (fst e) key) redis with
  | Some (_, (expires, v)) => if (now <? expires)%Z then Some v else None
  | None => None
  end.

Definition cache_version (redis : Redis) (key : uuid * string) (v : CachedVersion)
    (now : datetime) : Redis :=
  setex redis key 3600 v now.

Definition get_cached_version (redis : Redis) (key : uuid * string) (now : datetime)
  : option CachedVersion :=
  redis_get redis key now.

(** [version.changes]. *)
Definition changes_of (db : DB) (version : Version) : list ChangeLog :=
  filter (fun cl => N.eqb (cl_version_id cl) (version_id version)) (db_change_log db).

Definition get_version_with_cache (redis : Redis) (db : DB) (dataset : uuid)
    (number : string) (now : datetime) : result CachedVersion * Redis :=
  let cache_key := (dataset, number) in
  match get_cached_version redis cache_key now with
  | Some cached_data => (Ok cached_data, redis)
  | None =>
      match query_version db dataset number with
      | None => (Raise (HTTPException 404), redis)
      | Some version =>
          let result :=
            {| version_info := _format_version_result db version;
               data := map changed_data (changes_of db version) |} in
          (Ok result, cache_version redis cache_key result now)
      end
  end.

End EnhancedOperations.

Import EnhancedOperations.

(** ** app/api/endpoints/enhanced_versions.py *)

Module EnhancedVersions.

(** [bulk_upload_data]: [batch_size] is a query parameter with default 1000,
    accepted when [0 < batch_size <= 5000]; otherwise the request is refused
    (422) before the function body runs. *)
Definition bulk_upload_data (fails : nat -> bool) (frame_records : list dict -> list dict)
    (dataset : uuid) (data : list dict) (batch_size : option nat) : io BulkResult :=
  let batch_size := match batch_size with Some b => b | None => 1000 end in
  if Nat.ltb 0 batch_size && Nat.leb batch_size 5000
  then bulk_insert fails frame_records dataset batch_size data
  else raise (HTTPException 422).

(** [search_dataset_versions]: the filters given are collected; a date range
    only when both of its ends are given. *)
Definition search_dataset_versions (db : DB) (dataset : uuid)
    (start_date end_date : option datetime) (change_type : option operation)
    (schema_changes : option (list string)) : list FormattedVersion :=
  let filters :=
    {| date_range :=
         match start_date, end_date with
         | Some range_start, Some range_end => Some (range_start, range_end)
         | _, _ => None
         end;
       f_change_type := change_type;
       f_schema_changes := schema_changes |} in
  search_versions db dataset filters.

End EnhancedVersions.

Import EnhancedVersions.

(** * Properties *)

(** ** Vocabulary of the statements *)

(** An INSERT entry that carries [records]: under [initial_data], or under
    [added] when it has no [initial_data]. *)
Definition carries_insert (change_log : ChangeLog) (records : list value) : Prop :=
  operation_type change_log = INSERT /\
  (dict_get "initial_data" (changed_data change_log) = Some (VList records) \/
   (dict_get "initial_data" (changed_data change_log) = None /\
    dict_get "added" (changed_data change_log) = Some (VList records))).

(** The number a value counts as in a comparison: [bool] is a subclass of
    [int], [True] being 1 and [False] 0. *)
Definition number (v : value) : option Z :=
  match v with
  | VBool b => Some (Z.b2z b)
  | VInt z => Some z
  | _ => None
  end.

(** Equality of two JSON values, stated on its own: [None] equals [None],
    numbers (booleans among them) are equal when their values are, strings
    when they are the same text, lists when they are equal item by item,
    dictionaries when they have the same keys with equal values, in whatever
    order the keys stand. *)
Inductive py_equal : value -> value -> Prop :=
| equal_none : py_equal VNone VNone
| equal_number (a b : value) (z : Z) :
    number a = Some z -> number b = Some z -> py_equal a b
| equal_str (s : string) : py_equal (VStr s) (VStr s)
| equal_list (xs ys : list value) :
    Forall2 py_equal xs ys -> py_equal (VList xs) (VList ys)
| equal_dict (d1 d2 : dict) :
    (forall k, In k (keys d1) <-> In k (keys d2)) ->
    (forall k v v', dict_get k d1 = Some v -> dict_get k d2 = Some v' -> py_equal v v') ->
    py_equal (VDict d1) (VDict d2).

(** The two records disagree on field [k]: one has it and the other has not,
    or both have it with values that are not equal. *)
Definition field_differs (k : string) (deleted_record record : dict) : Prop :=
  match dict_get k deleted_record, dict_get k record with
  | Some v, Some v' => ~ py_equal v v'
  | Some _, None | None, Some _ => True
  | None, None => False
  end.

(** [record] is a dictionary with an [id] field. *)
Definition has_id (record : value) : Prop :=
  exists fields i, record = VDict fields /\ dict_get "id" fields = Some i.

(** [record] is a dictionary whose [id] is [==] to [i]. *)
Definition id_matches (i : value) (record : value) : bool :=
  match record with
  | VDict fields =>
      match dict_get "id" fields with
      | Some j => py_eqb j i
      | None => false
      end
  | _ => false
  end.

(** [merged] has the fields of [partial], and those of [existing] that
    [partial] does not mention. *)
Definition merge_of (existing partial merged : dict) : Prop :=
  forall k,
    dict_get k merged =
    match dict_get k partial with
    | Some v => Some v
    | None => dict_get k existing
    end.

(** The spec's UPDATE of one partial record with id [i]: merged into the first
    accumulator record with a matching id, or dropped when none matches. *)
Inductive merged_one (partial : dict) (i : value) : list value -> list value -> Prop :=
| merged_hit (pre : list value) (existing merged : dict) (post : list value) :
    Forall (fun r => id_matches i r = false) pre ->
    id_matches i (VDict existing) = true ->
    merge_of existing partial merged ->
    merged_one partial i (pre ++ VDict existing :: post) (pre ++ VDict merged :: post)
| merged_miss (acc : list value) :
    Forall (fun r => id_matches i r = false) acc ->
    merged_one partial i acc acc.

(** The partial records of a [modified] list, applied one after the other. *)
Inductive merged_all : list dict -> list value -> list value -> Prop :=
| merged_nil (acc : list value) : merged_all [] acc acc
| merged_cons (partial : dict) (i : value) (rest : list dict) (acc acc1 acc2 : list value) :
    dict_get "id" partial = Some i ->
    merged_one partial i acc acc1 ->
    merged_all rest acc1 acc2 ->
    merged_all (partial :: rest) acc acc2.

(** The column a schema defines under a name: the last one of that name in
    the list. *)
Definition column_of (schema : list SchemaDefinition) (col_name : string)
  : option SchemaDefinition :=
  find (fun col => String.eqb (sd_column_name col) col_name) (rev schema).

(** The three kinds of warning, as the caller reads them. *)
Definition removed_text (col_name : string) : string :=
  "Column '" ++ col_name ++ "' has been removed".

Definition type_changed_text (change : string * string * string) : string :=
  let '(col_name, old_type, new_type) := change in
  "Data type changed for column '" ++ col_name ++ "': " ++ old_type ++ " -> " ++ new_type.

Definition narrowed_text (col_name : string) : string :=
  "Column '" ++ col_name ++ "' changed from nullable to non-nullable".

(** The three rules of the checker. *)
Definition is_removed (old_schema new_schema : list SchemaDefinition) (col_name : string)
  : Prop :=
  column_of old_schema col_name <> None /\ column_of new_schema col_name = None.

Definition is_retyped (old_schema new_schema : list SchemaDefinition)
    (change : string * string * string) : Prop :=
  let '(col_name, old_type, new_type) := change in
  exists old_col new_col,
    column_of old_schema col_name = Some old_col /\
    column_of new_schema col_name = Some new_col /\
    sd_data_type old_col = old_type /\
    sd_data_type new_col = new_type /\
    old_type <> new_type.

Definition is_narrowed (old_schema new_schema : list SchemaDefinition) (col_name : string)
  : Prop :=
  exists old_col new_col,
    column_of old_schema col_name = Some old_col /\
    column_of new_schema col_name = Some new_col /\
    sd_is_nullable old_col = true /\
    sd_is_nullable new_col = false.

(** The search filters, one version at a time. *)
Definition in_date_range (filters : Filters) (v : Version) : bool :=
  match date_range filters with
  | Some (range_start, range_end) =>
      (range_start <=? created_at v)%Z && (created_at v <=? range_end)%Z
  | None => true
  end.

Definition has_change_type (filters : Filters) (v : Version) : bool :=
  match f_change_type filters with
  | Some t => change_type_is t v
  | None => true
  end.

(** Some column of the version's schema snapshot bears one of the names. *)
Definition has_some_column (db : DB) (filters : Filters) (v : Version) : bool :=
  match f_schema_changes filters with
  | Some names =>
      existsb (fun sv => existsb (String.eqb (column_name sv)) names)
              (schema_versions_of db v)
  | None => true
  end.

(** Every name is the name of a column of the version's schema snapshot: the
    reading of the column filter in the spec. *)
Definition has_all_columns (db : DB) (filters : Filters) (v : Version) : bool :=
  match f_schema_changes filters with
  | Some names =>
      forallb (fun name =>
                 existsb (fun sv => String.eqb (column_name sv) name)
                         (schema_versions_of db v))
              names
  | None => true
  end.

Definition search_matches (db : DB) (dataset : uuid) (filters : Filters) (v : Version)
  : bool :=
  N.eqb (v_dataset_id v) dataset
  && in_date_range filters v
  && has_change_type filters v
  && has_some_column db filters v.

(** *** Sample data *)

Module Sample.

(** A change-log row with a one-key payload. *)
Definition entry (version : uuid) (op : operation) (key : string) (records : list value)
  : ChangeLog :=
  {| cl_version_id := version;
     changed_by := Some 7%N;
     operation_type := op;
     changed_data := [(key, VList records)] |}.

Arguments entry version%_N op key%_string records%_list.

Definition row (id x : Z) : dict := [("id", VInt id); ("x", VInt x)].

Definition record (id x : Z) : value := VDict (row id x).

Arguments row (id x)%_Z.
Arguments record (id x)%_Z.

Definition empty_db : DB :=
  {| db_datasets := []; db_versions := []; db_schema_versions := []; db_change_log := [] |}.

Definition columns : list SchemaDefinition :=
  [ {| sd_column_name := "id"; sd_data_type := "int"; sd_is_nullable := false;
       sd_description := None |};
    {| sd_column_name := "x"; sd_data_type := "int"; sd_is_nullable := true;
       sd_description := None |} ].

(** Dataset 100, created by user 7 at time 1000 with version 1 ("1.0"). *)
Definition db1 : DB :=
  fst (create_dataset empty_db
         {| dc_dataset_name := "sales"; dc_schema_definition := columns;
            dc_data := [row 1 1; row 2 2] |}
         7%N 100%N 1%N 1000%Z).

Definition request (op : operation) (data : list dict) : VersionCreate :=
  {| vc_data := data; vc_schema_changes := None; vc_comment := None;
     vc_change_type := op |}.

(** [requests] served one after the other, the k-th at time [t + k] with the
    fresh identifier [id + k]; the versions created, oldest first. *)
Fixpoint serve (db : DB) (dataset : uuid) (id : uuid) (t : datetime)
    (requests : list VersionCreate) : result (DB * list Version) :=
  match requests with
  | [] => Ok (db, [])
  | r :: rest =>
      created <- create_new_version db dataset r 7%N id t ;;
      served <- serve (fst created) dataset (N.succ id) (Z.succ t) rest ;;
      Ok (fst served, snd created :: snd served)
  end.

(** [db1] after an UPDATE request at time 2000, and the version it made. *)
Definition db2 : DB :=
  match serve db1 100%N 2%N 2000%Z [request UPDATE [row 1 9]] with
  | Ok (db, _) => db
  | Raise _ => db1
  end.

Definition version2 : Version :=
  {| version_id := 2%N; v_dataset_id := 100%N; version_number := "1.1";
     created_at := 2000%Z; created_by := 7%N; change_type := Some UPDATE;
     comment := None |}.

Definition version1 : Version :=
  {| version_id := 1%N; v_dataset_id := 100%N; version_number := "1.0";
     created_at := 1000%Z; created_by := 7%N; change_type := Some INSERT;
     comment := None |}.

Definition five_rows : list dict := [row 1 1; row 2 2; row 3 3; row 4 4; row 5 5].

Definition fresh_session : Session := {| committed := []; pending := []; calls := 0 |}.

Definition column_filter (names : list string) : Filters :=
  {| date_range := None; f_change_type := None; f_schema_changes := Some names |}.

End Sample.

(** The numeral of [k] tenths: [decimal_tenths 12 = "1.2"]. *)
Definition decimal_tenths (k : Z) : string :=
  string_of_Z (k / 10) ++ "." ++ string_of_Z (k mod 10).

(** The dataset's latest version is numbered [1.0] plus [k] tenths, and every
    version of the dataset bears one of the numbers up to that one. *)
Definition numbered_upto (db : DB) (dataset : uuid) (k : Z) : Prop :=
  (exists latest,
      query_latest_version db dataset = Some latest /\
      version_number latest = decimal_tenths (10 + k)) /\
  forall v, In v (db_versions db) -> v_dataset_id v = dataset ->
            exists i, (0 <= i <= k)%Z /\ version_number v = decimal_tenths (10 + i).

(** The dataset has its row in [datasets]. *)
Definition dataset_exists (db : DB) (dataset : uuid) : Prop :=
  find (fun d => N.eqb (dataset_id d) dataset) (db_datasets db) <> None.

(** A request to [create_new_version] with what the environment adds to it:
    the user, the identifier of the new row and the time of the database. *)
Record Request : Type := {
  rq_version : VersionCreate;
  rq_user : uuid;
  rq_id : uuid;
  rq_clock : datetime
}.

(** The requests served one after the other; the versions they made. *)
Fixpoint create_versions (db : DB) (dataset : uuid) (requests : list Request)
  : result (DB * list Version) :=
  match requests with
  | [] => Ok (db, [])
  | r :: rest =>
      created <- create_new_version db dataset (rq_version r) (rq_user r) (rq_id r)
                                    (rq_clock r) ;;
      served <- create_versions (fst created) dataset rest ;;
      Ok (fst served, snd created :: snd served)
  end.

(** Each request comes at a later time than the one before, the first after
    [t]. *)
Fixpoint clock_increases (t : datetime) (requests : list Request) : Prop :=
  match requests with
  | [] => True
  | r :: rest => (t < rq_clock r)%Z /\ clock_increases (rq_clock r) rest
  end.

(** [n] successive version numbers, from [k] tenths on, each the next tenth. *)
Fixpoint counts_tenths (n : nat) (k : Z) : bool :=
  match n with
  | O => true
  | S n' =>
      match next_version_number (decimal_tenths k) with
      | Ok s => String.eqb s (decimal_tenths (k + 1)) && counts_tenths n' (k + 1)
      | Raise _ => false
      end
  end.

(** ** Vocabulary of the further properties *)

(** [kept] is [all] with some items left out, the others in their order. *)
Inductive kept_from {A : Type} : list A -> list A -> Prop :=
| kept_nil : kept_from [] []
| kept_keep (x : A) (kept all : list A) :
    kept_from kept all -> kept_from (x :: kept) (x :: all)
| kept_drop (x : A) (kept all : list A) :
    kept_from kept all -> kept_from kept (x :: all).

(** Every dictionary inside the value has its keys once, as Python's have. *)
Fixpoint wf_value (v : value) : Prop :=
  match v with
  | VList items =>
      (fix all_wf (l : list value) : Prop :=
         match l with
         | [] => True
         | x :: rest => wf_value x /\ all_wf rest
         end) items
  | VDict fields =>
      NoDup (keys fields) /\
      (fix all_wf (d : list (string * value)) : Prop :=
         match d with
         | [] => True
         | (_, x) :: rest => wf_value x /\ all_wf rest
         end) fields
  | _ => True
  end.

(** The entries of a dictionary by ascending key. *)
Definition key_leb (a b : string * value) : Prop := String.leb (fst a) (fst b) = true.

(** Every key of the row is one of the column names. *)
Definition row_fits (schema_columns : list string) (row : dict) : bool :=
  forallb (fun key => existsb (String.eqb key) schema_columns) (keys row).

(** ** Lists *)

Lemma filter_none {A : Type} (f : A -> bool) (xs : list A) :
  (forall x, In x xs -> f x = false) -> filter f xs = [].
Proof.
  induction xs as [|x xs IH]; intros H; simpl; [reflexivity|].
  rewrite (H x) by now left. apply IH. intros y Hy. apply H. now right.
Qed.

Lemma filter_all {A : Type} (f : A -> bool) (xs : list A) :
  (forall x, In x xs -> f x = true) -> filter f xs = xs.
Proof.
  induction xs as [|x xs IH]; intros H; simpl; [reflexivity|].
  rewrite (H x) by now left. f_equal. apply IH. intros y Hy. apply H. now right.
Qed.

Lemma flat_map_agree {A B : Type} (f g : A -> list B) (xs : list A) :
  (forall x, In x xs -> f x = g x) -> flat_map f xs = flat_map g xs.
Proof.
  induction xs as [|x xs IH]; intros H; simpl; [reflexivity|].
  rewrite (H x) by now left. f_equal. apply IH. intros y Hy. apply H. now right.
Qed.

(** ** Dictionaries *)

Section DictFacts.
Variable V : Type.
Implicit Types (d : list (string * V)) (k : string).

Lemma dict_get_set_same k (v : V) d : dict_get k (dict_set k v d) = Some v.
Proof.
  induction d as [|[k' v'] d IH]; simpl.
  - now rewrite String.eqb_refl.
  - destruct (String.eqb k k') eqn:E; simpl; rewrite E; auto.
Qed.

Lemma dict_get_set_other k k' (v : V) d :
  k <> k' -> dict_get k (dict_set k' v d) = dict_get k d.
Proof.
  intros Hne. induction d as [|[k0 v0] d IH]; simpl.
  - destruct (String.eqb k k') eqn:E; auto. apply String.eqb_eq in E. contradiction.
  - destruct (String.eqb k' k0) eqn:E; simpl.
    + apply String.eqb_eq in E. subst k0.
      destruct (String.eqb k k') eqn:E'; auto.
      apply String.eqb_eq in E'. contradiction.
    + now rewrite IH.
Qed.

Lemma dict_get_In k d (v : V) : dict_get k d = Some v -> In (k, v) d.
Proof.
  induction d as [|[k' v'] d IH]; simpl; [discriminate|].
  destruct (String.eqb k k') eqn:E.
  - apply String.eqb_eq in E. intros [= ->]. subst. now left.
  - intros H. right. auto.
Qed.

Lemma dict_get_None_keys k d : dict_get k d = None <-> ~ In k (keys d).
Proof.
  induction d as [|[k' v'] d IH]; simpl.
  - split; auto.
  - destruct (String.eqb k k') eqn:E.
    + apply String.eqb_eq in E. subst. split; [discriminate|]. intros H. destruct H. now left.
    + apply String.eqb_neq in E. rewrite IH. split.
      * intros H [H'|H']; [congruence|contradiction].
      * intros H H'. apply H. now right.
Qed.

Lemma dict_get_Some_keys k d : dict_get k d <> None <-> In k (keys d).
Proof.
  rewrite dict_get_None_keys. split.
  - intros H. destruct (in_dec string_dec k (keys d)); [assumption|contradiction].
  - tauto.
Qed.

Lemma keys_dict_set k (v : V) d :
  keys (dict_set k v d) = if dict_mem k d then keys d else keys d ++ [k].
Proof.
  unfold dict_mem. induction d as [|[k' v'] d IH]; simpl; [reflexivity|].
  destruct (String.eqb k k') eqn:E; simpl; [reflexivity|].
  rewrite IH. now destruct (dict_get k d).
Qed.

Lemma wf_dict_set k (v : V) d : wf_dict d -> wf_dict (dict_set k v d).
Proof.
  unfold wf_dict. intros H. rewrite keys_dict_set. unfold dict_mem.
  destruct (dict_get k d) eqn:E; [assumption|].
  apply dict_get_None_keys in E.
  apply NoDup_app; [assumption|repeat constructor; simpl; tauto|].
  intros x Hx [<-|[]]. contradiction.
Qed.

(** [d.update(other)]: the fields of [other] win, the others are kept. *)
Lemma dict_get_update k d other :
  wf_dict other ->
  dict_get k (dict_update d other) =
  match dict_get k other with Some v => Some v | None => dict_get k d end.
Proof.
  unfold dict_update, wf_dict. revert d.
  induction other as [|[k' v'] other IH]; intros d Hwf; simpl; [reflexivity|].
  inversion Hwf as [|? ? Hnotin Hwf']; subst.
  rewrite IH by assumption.
  destruct (String.eqb k k') eqn:E.
  - apply String.eqb_eq in E. subst k'.
    apply dict_get_None_keys in Hnotin. rewrite Hnotin.
    apply dict_get_set_same.
  - apply String.eqb_neq in E. destruct (dict_get k other); [reflexivity|].
    now apply dict_get_set_other.
Qed.

Lemma wf_dict_update d other : wf_dict d -> wf_dict (dict_update d other).
Proof.
  unfold dict_update. revert d.
  induction other as [|[k v] other IH]; intros d Hwf; simpl; [assumption|].
  apply IH. now apply wf_dict_set.
Qed.

End DictFacts.

(** ** The replay loop *)

Lemma or_empty_id (d : dict) : or_empty d = d.
Proof. now destruct d. Qed.

Lemma for_each_app {A S : Type} (body : S -> A -> result S) (xs ys : list A) (acc : S) :
  for_each body (xs ++ ys) acc = (acc' <- for_each body xs acc ;; for_each body ys acc').
Proof.
  revert acc. induction xs as [|x xs IH]; intros acc; simpl; [reflexivity|].
  destruct (body acc x); simpl; auto.
Qed.

Lemma replay_snoc (change_logs : list ChangeLog) (change_log : ChangeLog) :
  replay (change_logs ++ [change_log]) =
  (acc <- replay change_logs ;; replay_step acc change_log).
Proof.
  unfold replay. rewrite for_each_app.
  destruct (for_each replay_step change_logs []); simpl; [|reflexivity].
  now destruct (replay_step a change_log).
Qed.

Lemma replay_step_insert (acc : list value) (change_log : ChangeLog) (records : list value) :
  carries_insert change_log records ->
  replay_step acc change_log = Ok (acc ++ records).
Proof.
  intros [Hop Hdata]. unfold replay_step, dict_mem, get_default.
  rewrite Hop, or_empty_id.
  destruct Hdata as [H|[H1 H2]].
  - now rewrite H.
  - now rewrite H1, H2.
Qed.

Lemma for_each_insert (change_logs : list ChangeLog) (batches : list (list value)) :
  Forall2 carries_insert change_logs batches ->
  forall acc, for_each replay_step change_logs acc = Ok (acc ++ List.concat batches).
Proof.
  induction 1 as [|cl recs cls batches Hcl _ IH]; intros acc; simpl.
  - now rewrite app_nil_r.
  - rewrite (replay_step_insert acc Hcl). simpl. rewrite IH. now rewrite app_assoc.
Qed.

(** C3. A change log made of INSERT entries only, each carrying its records
    under [initial_data] or, without that key, under [added], replays to the
    concatenation of the carried record lists in entry order: every entry
    appends to the accumulator, none replaces it. *)
Theorem replay_insert_only (change_logs : list ChangeLog) (batches : list (list value)) :
  Forall2 carries_insert change_logs batches ->
  replay change_logs = Ok (List.concat batches).
Proof.
  intros H. unfold replay. now rewrite (for_each_insert H).
Qed.

Lemma replay_insert_only_witness :
  replay [ Sample.entry 1 INSERT "initial_data" [Sample.record 1 1];
           Sample.entry 2 INSERT "added" [Sample.record 2 2; Sample.record 3 3] ]
  = Ok [Sample.record 1 1; Sample.record 2 2; Sample.record 3 3].
Proof.
  apply (@replay_insert_only _ [[Sample.record 1 1]; [Sample.record 2 2; Sample.record 3 3]]).
  constructor; [split; [reflexivity|left; reflexivity]|].
  constructor; [split; [reflexivity|right; split; reflexivity]|].
  constructor.
Defined.

(** *** DELETE *)

Lemma comprehension_if_filter {A : Type} (keep : A -> result bool) (f : A -> bool)
    (xs : list A) :
  (forall x, keep x = Ok (f x)) ->
  comprehension_if keep xs = Ok (filter f xs).
Proof.
  intros H. induction xs as [|x xs IH]; simpl; [reflexivity|].
  rewrite H, IH. simpl. reflexivity.
Qed.

(** What [==] on two dictionaries checks. *)
Lemma py_eqb_dict (d1 d2 : dict) :
  py_eqb (VDict d1) (VDict d2) = true ->
  List.length d1 = List.length d2 /\
  forall k v, In (k, v) d1 -> exists v', dict_get k d2 = Some v' /\ py_eqb v v' = true.
Proof.
  simpl. intros H. apply andb_true_iff in H. destruct H as [Hlen Hall].
  split; [now apply Nat.eqb_eq|].
  clear Hlen. induction d1 as [|[k0 v0] d1 IH]; intros k v Hin; [contradiction|].
  apply andb_true_iff in Hall. destruct Hall as [Hhd Htl].
  destruct Hin as [[= <- <-]|Hin]; [|now apply IH].
  destruct (dict_get k0 d2) as [v'|]; [|discriminate]. now exists v'.
Qed.

Lemma py_eqb_dict_keys (d1 d2 : dict) :
  wf_dict d1 -> wf_dict d2 -> py_eqb (VDict d1) (VDict d2) = true ->
  forall k, In k (keys d2) -> In k (keys d1).
Proof.
  intros Hwf1 Hwf2 Heq. destruct (py_eqb_dict _ _ Heq) as [Hlen Hfields].
  apply NoDup_length_incl; [assumption| |].
  - unfold keys. rewrite !length_map. lia.
  - intros k Hk. unfold keys in Hk. apply in_map_iff in Hk.
    destruct Hk as [[k' v] [<- Hin]]. simpl.
    destruct (Hfields _ _ Hin) as [v' [Hget _]].
    apply dict_get_Some_keys. congruence.
Qed.

Lemma value_induction (P : value -> Prop) :
  P VNone ->
  (forall b, P (VBool b)) ->
  (forall z, P (VInt z)) ->
  (forall s, P (VStr s)) ->
  (forall items, Forall P items -> P (VList items)) ->
  (forall fields, Forall (fun kv => P (snd kv)) fields -> P (VDict fields)) ->
  forall v, P v.
Proof.
  intros HNone HBool HInt HStr HList HDict. fix IH 1.
  intros [|b|z|s|items|fields].
  - exact HNone.
  - apply HBool.
  - apply HInt.
  - apply HStr.
  - apply HList. induction items as [|x items IHitems]; constructor.
    + apply IH.
    + exact IHitems.
  - apply HDict. induction fields as [|[k x] fields IHfields]; constructor.
    + apply IH.
    + exact IHfields.
Qed.

Lemma wf_value_list (items : list value) :
  wf_value (VList items) <-> Forall wf_value items.
Proof.
  simpl. induction items as [|x items IH]; split; intros H.
  - constructor.
  - exact I.
  - destruct H as [Hx H]. constructor; [assumption|now apply IH].
  - inversion H; subst. split; [assumption|now apply IH].
Qed.

Lemma wf_value_dict (fields : dict) :
  wf_value (VDict fields) <-> wf_dict fields /\ Forall (fun kv => wf_value (snd kv)) fields.
Proof.
  simpl. unfold wf_dict.
  assert (H : (fix all_wf (d : list (string * value)) : Prop :=
                 match d with
                 | [] => True
                 | (_, x) :: rest => wf_value x /\ all_wf rest
                 end) fields <-> Forall (fun kv => wf_value (snd kv)) fields).
  { induction fields as [|[k x] fields IH]; split; intros H.
    - constructor.
    - exact I.
    - destruct H as [Hx H]. constructor; [assumption|now apply IH].
    - inversion H; subst. split; [assumption|now apply IH]. }
  tauto.
Qed.

Lemma In_dict_get (d : dict) (k : string) (v : value) :
  wf_dict d -> In (k, v) d -> dict_get k d = Some v.
Proof.
  unfold wf_dict. induction d as [|[k' v'] d IH]; intros Hwf Hin; [contradiction|].
  simpl in Hwf. inversion Hwf as [|? ? Hnotin Hwf']; subst. simpl.
  destruct Hin as [[= -> ->]|Hin].
  - now rewrite String.eqb_refl.
  - destruct (String.eqb_spec k k') as [->|_]; [|now apply IH].
    exfalso. apply Hnotin. unfold keys. now apply (in_map fst) in Hin.
Qed.

Lemma py_eqb_dict_fields (d1 d2 : dict) :
  List.length d1 = List.length d2 ->
  (forall k v, In (k, v) d1 ->
               exists v', dict_get k d2 = Some v' /\ py_eqb v v' = true) ->
  py_eqb (VDict d1) (VDict d2) = true.
Proof.
  intros Hlen Hfields. simpl. apply andb_true_iff. split; [now apply Nat.eqb_eq|].
  clear Hlen. induction d1 as [|[k v] d1 IH]; [reflexivity|].
  destruct (Hfields k v (or_introl eq_refl)) as [v' [Hget Hv]].
  rewrite Hget, Hv. simpl. apply IH. intros k0 v0 Hin. apply Hfields. now right.
Qed.

(** [x == x] holds for every well-formed JSON value. *)
Lemma py_eqb_refl (v : value) : wf_value v -> py_eqb v v = true.
Proof.
  induction v as [|b|z|s|items IH|fields IH] using value_induction; intros Hwf.
  - reflexivity.
  - apply Bool.eqb_reflx.
  - apply Z.eqb_refl.
  - apply String.eqb_refl.
  - apply wf_value_list in Hwf. simpl.
    induction items as [|x items IHitems]; [reflexivity|].
    inversion IH; subst. inversion Hwf; subst.
    rewrite H1 by assumption. simpl. now apply IHitems.
  - apply wf_value_dict in Hwf. destruct Hwf as [Hkeys Hvalues].
    apply py_eqb_dict_fields; [reflexivity|].
    intros k v Hin. exists v. split; [now apply In_dict_get|].
    rewrite Forall_forall in IH, Hvalues.
    apply (IH (k, v) Hin). apply (Hvalues (k, v) Hin).
Qed.

(** Python's [==], as the code computes it, decides [py_equal]. *)
Lemma py_eqb_equal (a : value) :
  forall b, wf_value a -> wf_value b -> py_eqb a b = true -> py_equal a b.
Proof.
  induction a as [|x|x|x|items IH|fields IH] using value_induction;
    intros b Hwfa Hwfb H.
  - destruct b; try discriminate. constructor.
  - destruct b as [|y|y| | |]; try discriminate; simpl in H.
    + apply Bool.eqb_prop in H. subst y. now apply equal_number with (Z.b2z x).
    + apply Z.eqb_eq in H. subst y. now apply equal_number with (Z.b2z x).
  - destruct b as [|y|y| | |]; try discriminate; simpl in H.
    + apply Z.eqb_eq in H. subst x. now apply equal_number with (Z.b2z y).
    + apply Z.eqb_eq in H. subst y. now apply equal_number with x.
  - destruct b as [| | |y| |]; try discriminate; simpl in H.
    apply String.eqb_eq in H. subst y. constructor.
  - destruct b as [| | | |ys|]; try discriminate.
    apply wf_value_list in Hwfa, Hwfb. constructor.
    simpl in H. revert ys Hwfb H.
    induction items as [|x items IHitems]; intros [|y ys] Hwfb H;
      try discriminate; constructor.
    + apply andb_true_iff in H. destruct H as [H _].
      inversion IH; subst. inversion Hwfa; subst. inversion Hwfb; subst. auto.
    + apply andb_true_iff in H. destruct H as [_ H].
      inversion IH; subst. inversion Hwfa; subst. inversion Hwfb; subst. auto.
  - destruct b as [| | | | |d2]; try discriminate.
    apply wf_value_dict in Hwfa, Hwfb.
    destruct Hwfa as [Hkeys1 Hvalues1]. destruct Hwfb as [Hkeys2 Hvalues2].
    destruct (py_eqb_dict _ _ H) as [Hlen Hfields].
    rewrite Forall_forall in IH, Hvalues1, Hvalues2.
    constructor.
    + intros k. split; [|now apply (py_eqb_dict_keys Hkeys1 Hkeys2 H)].
      intros Hk. unfold keys in Hk. apply in_map_iff in Hk.
      destruct Hk as [[k' v] [<- Hin]].
      destruct (Hfields _ _ Hin) as [v' [Hget _]].
      apply dict_get_Some_keys. simpl. congruence.
    + intros k v v' Hget1 Hget2. apply dict_get_In in Hget1.
      destruct (Hfields _ _ Hget1) as [v'' [Hget Hv]].
      assert (v'' = v') by congruence. subst v''.
      apply (IH (k, v) Hget1); [|apply (Hvalues2 (k, v')); now apply dict_get_In|exact Hv].
      apply (Hvalues1 (k, v) Hget1).
Qed.

Lemma py_equal_eqb (a : value) :
  forall b, wf_value a -> wf_value b -> py_equal a b -> py_eqb a b = true.
Proof.
  induction a as [|x|x|x|items IH|fields IH] using value_induction;
    intros b Hwfa Hwfb H.
  - inversion H; subst; [reflexivity|discriminate].
  - inversion H as [|a' b' z Ha Hb| | |]; subst. simpl in Ha. injection Ha as <-.
    destruct b as [|y|y| | |]; try discriminate; simpl in Hb; injection Hb as Hb; simpl.
    + destruct x, y; try discriminate; reflexivity.
    + subst y. apply Z.eqb_refl.
  - inversion H as [|a' b' z Ha Hb| | |]; subst. simpl in Ha. injection Ha as <-.
    destruct b as [|y|y| | |]; try discriminate; simpl in Hb; injection Hb as Hb; simpl.
    + subst x. apply Z.eqb_refl.
    + subst y. apply Z.eqb_refl.
  - inversion H; subst; [discriminate|]. simpl. apply String.eqb_refl.
  - inversion H as [|a' b' z Ha Hb| |xs ys Hall|]; subst; [discriminate|].
    apply wf_value_list in Hwfa, Hwfb. simpl. clear H.
    induction Hall as [|x y xs ys Hxy Hall IHall]; [reflexivity|].
    inversion IH; subst. inversion Hwfa; subst. inversion Hwfb; subst.
    apply andb_true_iff. split; auto.
  - inversion H as [|a' b' z Ha Hb| | |d1 d2 Hsame Hvalues]; subst; [discriminate|].
    apply wf_value_dict in Hwfa, Hwfb.
    destruct Hwfa as [Hkeys1 Hvalues1]. destruct Hwfb as [Hkeys2 Hvalues2].
    rewrite Forall_forall in IH, Hvalues1, Hvalues2.
    apply py_eqb_dict_fields.
    + assert (Hperm : Permutation (keys fields) (keys d2))
        by (apply NoDup_Permutation; assumption).
      apply Permutation_length in Hperm. unfold keys in Hperm.
      now rewrite !length_map in Hperm.
    + intros k v Hin.
      assert (Hk : In k (keys d2)).
      { apply Hsame. unfold keys. now apply (in_map fst) in Hin. }
      apply dict_get_Some_keys in Hk.
      destruct (dict_get k d2) as [v'|] eqn:Hget; [|contradiction].
      exists v'. split; [reflexivity|].
      apply (IH (k, v) Hin); [apply (Hvalues1 (k, v) Hin)| |].
      * apply (Hvalues2 (k, v')). now apply dict_get_In.
      * apply (Hvalues k); [now apply In_dict_get|assumption].
Qed.

Lemma replay_step_delete (acc : list value) (change_log : ChangeLog) (deleted : list value) :
  operation_type change_log = DELETE ->
  dict_get "deleted" (changed_data change_log) = Some (VList deleted) ->
  replay_step acc change_log =
  Ok (filter (fun record => negb (existsb (fun d => py_eqb d record) deleted)) acc).
Proof.
  intros Hop Hdel. unfold replay_step, get_default.
  rewrite Hop, or_empty_id, Hdel.
  apply comprehension_if_filter. intros x. reflexivity.
Qed.

(** C2, as the code has it.  A DELETE entry whose payload carries a [deleted]
    list removes from the accumulator exactly the records equal to some
    record of that list, and keeps the others in their order.  Equal is
    [py_equal]: a record found as it is in the list is removed, and so is one
    that has the same fields in another order or [True] where the other has
    1; a record that disagrees on some field with every deleted record,
    whatever its [id], stays.  (Records are JSON values whose dictionaries
    have each key once.) *)
Theorem replay_delete (change_logs : list ChangeLog) (acc : list value)
    (change_log : ChangeLog) (deleted : list value) :
  replay change_logs = Ok acc ->
  Forall wf_value acc ->
  Forall wf_value deleted ->
  operation_type change_log = DELETE ->
  dict_get "deleted" (changed_data change_log) = Some (VList deleted) ->
  exists acc',
    replay (change_logs ++ [change_log]) = Ok acc' /\
    (forall keep : value -> bool,
        (forall record,
            keep record = true <-> forall d, In d deleted -> ~ py_equal d record) ->
        acc' = filter keep acc) /\
    (forall record,
        In record acc' <->
        In record acc /\ forall d, In d deleted -> ~ py_equal d record) /\
    (forall record, In record deleted -> ~ In record acc') /\
    (forall fields,
        In (VDict fields) acc ->
        (forall dfields, In (VDict dfields) deleted ->
                         exists k, field_differs k dfields fields) ->
        In (VDict fields) acc').
Proof.
  intros Hacc Hwf Hwfd Hop Hdel.
  rewrite Forall_forall in Hwf, Hwfd.
  set (kept := fun record => negb (existsb (fun d => py_eqb d record) deleted)).
  assert (Hkept : forall record,
             In record acc ->
             (kept record = true <-> forall d, In d deleted -> ~ py_equal d record)).
  { intros record Hin. unfold kept. rewrite negb_true_iff. split.
    - intros H d Hd Heq.
      assert (existsb (fun d => py_eqb d record) deleted = true); [|congruence].
      apply existsb_exists. exists d. split; [assumption|].
      apply py_equal_eqb; auto.
    - intros H. destruct (existsb _ deleted) eqn:E; [|reflexivity].
      apply existsb_exists in E. destruct E as [d [Hd E]].
      exfalso. apply (H d Hd). apply py_eqb_equal; auto. }
  assert (Hmember : forall record,
             In record (filter kept acc) <->
             In record acc /\ forall d, In d deleted -> ~ py_equal d record).
  { intros record. rewrite filter_In. split.
    - intros [Hin Hk]. split; [assumption|]. now apply Hkept.
    - intros [Hin Hk]. split; [assumption|]. now apply Hkept. }
  exists (filter kept acc). split; [|split; [|split; [|split]]].
  - rewrite replay_snoc, Hacc. simpl. now apply replay_step_delete.
  - intros keep Hkeep. apply filter_ext_in. intros record Hin.
    destruct (keep record) eqn:E.
    + apply Hkept; [assumption|]. now apply Hkeep.
    + destruct (kept record) eqn:E'; [|reflexivity].
      pose proof (proj1 (Hkept record Hin) E') as Hnone.
      apply Hkeep in Hnone. congruence.
  - exact Hmember.
  - intros record Hdeleted Hin. apply Hmember in Hin. destruct Hin as [Hin Hnone].
    apply (Hnone record Hdeleted). apply py_eqb_equal; auto.
    apply py_eqb_refl. auto.
  - intros fields Hin Hdiff. apply Hmember. split; [assumption|].
    intros d Hd Heq.
    inversion Heq as [|a b z Ha Hb| | |d1 d2 Hsame Hvalues]; subst.
    + destruct d; discriminate.
    + destruct (Hdiff d1 Hd) as [k Hk]. unfold field_differs in Hk.
      destruct (dict_get k d1) as [v|] eqn:E1; destruct (dict_get k fields) as [v'|] eqn:E2.
      * apply Hk. now apply (Hvalues k).
      * assert (In k (keys fields)) by (apply Hsame, dict_get_Some_keys; congruence).
        apply dict_get_Some_keys in H. contradiction.
      * assert (In k (keys d1)) by (apply Hsame, dict_get_Some_keys; congruence).
        apply dict_get_Some_keys in H. contradiction.
      * exact Hk.
Qed.

Lemma replay_delete_witness :
  exists acc',
    replay [ Sample.entry 1 INSERT "initial_data" [Sample.record 1 1; Sample.record 2 2];
             Sample.entry 2 DELETE "deleted" [Sample.record 1 1; Sample.record 2 3] ]
    = Ok acc' /\
    ~ In (Sample.record 1 1) acc' /\
    In (Sample.record 2 2) acc'.
Proof.
  destruct (@replay_delete
              [Sample.entry 1 INSERT "initial_data" [Sample.record 1 1; Sample.record 2 2]]
              [Sample.record 1 1; Sample.record 2 2]
              (Sample.entry 2 DELETE "deleted" [Sample.record 1 1; Sample.record 2 3])
              [Sample.record 1 1; Sample.record 2 3]
              eq_refl
              ltac:(repeat constructor; simpl; intuition discriminate)
              ltac:(repeat constructor; simpl; intuition discriminate)
              eq_refl eq_refl) as [acc' [Hrun [_ [_ [Hremoved Hkept]]]]].
  exists acc'. split; [exact Hrun|]. split.
  - apply Hremoved. now left.
  - apply Hkept; [right; now left|].
    intros dfields [[= <-]|[[= <-]|[]]].
    + exists "id". intros H. inversion H; subst; simpl in *; congruence.
    + exists "x". intros H. inversion H; subst; simpl in *; congruence.
Defined.

(** C2 as stated fails: the stored record has [x = 1], the deleted one
    [x = True].  The two are not the same value and disagree on the field
    [x], yet the stored record is removed, [True == 1] holding in Python. *)
Lemma replay_delete_true_equals_one :
  VDict [("id", VInt 1); ("x", VBool true)] <> Sample.record 1 1 /\
  dict_get "x" [("id", VInt 1); ("x", VBool true)] <> dict_get "x" (Sample.row 1 1) /\
  replay [ Sample.entry 1 INSERT "initial_data" [Sample.record 1 1];
           Sample.entry 2 DELETE "deleted" [VDict [("id", VInt 1); ("x", VBool true)]] ]
  = Ok [].
Proof. repeat split; discriminate. Qed.

(** The two DELETE runs of the spec's test list. *)
Example delete_equal_record :
  replay [ Sample.entry 1 INSERT "initial_data" [Sample.record 1 1];
           Sample.entry 2 DELETE "deleted" [Sample.record 1 1] ] = Ok [].
Proof. reflexivity. Qed.

Example delete_same_id_other_field :
  replay [ Sample.entry 1 INSERT "initial_data" [Sample.record 1 1];
           Sample.entry 2 DELETE "deleted" [Sample.record 1 2] ]
  = Ok [Sample.record 1 1].
Proof. reflexivity. Qed.

(** *** UPDATE *)

Lemma merged_one_cons (partial : dict) (i : value) (r : value) (acc acc' : list value) :
  id_matches i r = false ->
  merged_one partial i acc acc' ->
  merged_one partial i (r :: acc) (r :: acc').
Proof.
  intros Hr H. destruct H as [pre existing merged post Hpre Hhit Hmerge|acc Hmiss].
  - apply (@merged_hit partial i (r :: pre) existing merged post); auto.
  - apply merged_miss. auto.
Qed.

Lemma update_first_merges (partial : dict) (i : value) (acc : list value) :
  wf_dict partial ->
  dict_get "id" partial = Some i ->
  Forall has_id acc ->
  exists acc',
    update_first (VDict partial) acc = Ok acc' /\
    merged_one partial i acc acc' /\
    Forall has_id acc'.
Proof.
  intros Hwf Hid Hacc. induction Hacc as [|r acc Hr Hacc IH].
  - exists []. repeat split; [apply merged_miss|]; constructor.
  - destruct Hr as [fields [j [-> Hj]]]. simpl. rewrite Hj, Hid. simpl.
    destruct (py_eqb j i) eqn:Heq.
    + exists (VDict (dict_update fields partial) :: acc). repeat split.
      * apply (@merged_hit partial i [] fields (dict_update fields partial) acc).
        -- constructor.
        -- simpl. now rewrite Hj.
        -- intros k. now apply dict_get_update.
      * constructor; [|assumption].
        exists (dict_update fields partial), i. split; [reflexivity|].
        rewrite dict_get_update by assumption. now rewrite Hid.
    + destruct IH as [acc' [Hrun [Hmerged Hids]]].
      exists (VDict fields :: acc'). rewrite Hrun. simpl. repeat split.
      * apply merged_one_cons; [|assumption]. simpl. now rewrite Hj.
      * constructor; [|assumption]. now exists fields, j.
Qed.

Lemma for_each_update_first (modified : list dict) (acc : list value) :
  Forall (fun partial => wf_dict partial /\ dict_get "id" partial <> None) modified ->
  Forall has_id acc ->
  exists acc',
    for_each (fun acc record => update_first record acc) (map VDict modified) acc = Ok acc' /\
    merged_all modified acc acc' /\
    Forall has_id acc'.
Proof.
  intros Hmod. revert acc.
  induction Hmod as [|partial modified [Hwf Hid] _ IH]; intros acc Hacc; simpl.
  - exists acc. repeat split; [constructor|assumption].
  - destruct (dict_get "id" partial) as [i|] eqn:Hi; [|contradiction].
    destruct (@update_first_merges partial i acc Hwf Hi Hacc) as [acc1 [Hrun [Hone Hids]]].
    destruct (IH acc1 Hids) as [acc2 [Hrun2 [Hall Hids2]]].
    exists acc2. rewrite Hrun. simpl. repeat split; [assumption| |assumption].
    now apply (@merged_cons partial i modified acc acc1 acc2).
Qed.

(** C1, as the code has it.  Let every accumulator record be a dictionary
    with an [id] field.  An UPDATE entry whose [modified] list holds partial
    records with an [id] then replays without error: each partial record, in
    turn, is merged into the first accumulator record whose [id] is [==] to
    its own (fields it does not mention are kept), or is dropped when no
    record matches; the records keep their [id] field. *)
Theorem replay_update (change_logs : list ChangeLog) (acc : list value)
    (change_log : ChangeLog) (modified : list dict) :
  replay change_logs = Ok acc ->
  operation_type change_log = UPDATE ->
  dict_get "modified" (changed_data change_log) = Some (VList (map VDict modified)) ->
  Forall (fun partial => wf_dict partial /\ dict_get "id" partial <> None) modified ->
  Forall has_id acc ->
  exists acc',
    replay (change_logs ++ [change_log]) = Ok acc' /\
    merged_all modified acc acc' /\
    Forall has_id acc'.
Proof.
  intros Hacc Hop Hmod Hparts Hids.
  destruct (for_each_update_first Hparts Hids) as [acc' [Hrun H]].
  exists acc'. split; [|assumption].
  rewrite replay_snoc, Hacc. simpl.
  unfold replay_step, get_default. rewrite Hop, or_empty_id, Hmod. simpl.
  assumption.
Qed.

(** The UPDATE run of the spec's test list. *)
Example update_one_of_two :
  replay [ Sample.entry 1 INSERT "initial_data" [Sample.record 1 1; Sample.record 2 2];
           Sample.entry 2 UPDATE "modified" [Sample.record 1 9] ]
  = Ok [Sample.record 1 9; Sample.record 2 2].
Proof. reflexivity. Qed.

Lemma replay_update_witness :
  exists acc',
    replay [ Sample.entry 1 INSERT "initial_data" [Sample.record 1 1; Sample.record 2 2];
             Sample.entry 2 UPDATE "modified" [Sample.record 1 9] ]
    = Ok acc' /\
    merged_all [Sample.row 1 9] [Sample.record 1 1; Sample.record 2 2] acc' /\
    Forall has_id acc'.
Proof.
  apply (@replay_update
           [Sample.entry 1 INSERT "initial_data" [Sample.record 1 1; Sample.record 2 2]]
           [Sample.record 1 1; Sample.record 2 2]
           (Sample.entry 2 UPDATE "modified" [Sample.record 1 9])
           [Sample.row 1 9]); try reflexivity.
  - constructor; [|constructor]. split; [|discriminate].
    unfold wf_dict; simpl. repeat constructor; simpl; intuition discriminate.
  - constructor; [|constructor; [|constructor]].
    + exists (Sample.row 1 1), (VInt 1). split; reflexivity.
    + exists (Sample.row 2 2), (VInt 2). split; reflexivity.
Defined.

(** C1 as stated fails: an accumulator record without an [id] field makes the
    UPDATE loop raise [KeyError] instead of dropping the partial record. *)
Lemma replay_update_missing_id_raises :
  replay [ Sample.entry 1 INSERT "initial_data" [VDict [("x", VInt 1)]];
           Sample.entry 2 UPDATE "modified" [Sample.record 1 9] ]
  = Raise (KeyError "id").
Proof. reflexivity. Qed.

(** ** Versions created through [create_new_version] *)

Lemma comprehension_if_all {A : Type} (keep : A -> result bool) (xs : list A) :
  (forall x, keep x = Ok true) -> comprehension_if keep xs = Ok xs.
Proof.
  intros H. induction xs as [|x xs IH]; simpl; [reflexivity|].
  now rewrite H, IH.
Qed.

(** An entry whose payload has the single key [changes] leaves the accumulator
    as it is, whatever its operation type. *)
Lemma replay_step_changes (acc : list value) (change_log : ChangeLog) (payload : value) :
  changed_data change_log = [("changes", payload)] ->
  replay_step acc change_log = Ok acc.
Proof.
  intros H. unfold replay_step. rewrite H. simpl.
  destruct (operation_type change_log); simpl.
  - now rewrite app_nil_r.
  - reflexivity.
  - apply comprehension_if_all. reflexivity.
Qed.

Lemma replay_skip_changes (before after : list ChangeLog) (change_log : ChangeLog)
    (payload : value) :
  changed_data change_log = [("changes", payload)] ->
  replay (before ++ change_log :: after) = replay (before ++ after).
Proof.
  intros H. unfold replay. rewrite !for_each_app.
  destruct (for_each replay_step before []) as [acc|e]; simpl; [|reflexivity].
  now rewrite (replay_step_changes acc change_log H).
Qed.

Section OrderByFacts.
Variable A : Type.
Variable le : A -> A -> bool.

Lemma insert_by_snoc (y x : A) (rows : list A) :
  le y x = true -> insert_by le y (rows ++ [x]) = insert_by le y rows ++ [x].
Proof.
  intros H. induction rows as [|z rows IH]; simpl.
  - now rewrite H.
  - destruct (le y z); [reflexivity|]. now rewrite IH.
Qed.

(** A row that every stored row precedes sorts last. *)
Lemma order_by_snoc (x : A) (rows : list A) :
  (forall y, In y rows -> le y x = true) ->
  order_by le (rows ++ [x]) = order_by le rows ++ [x].
Proof.
  induction rows as [|y rows IH]; intros H; simpl; [reflexivity|].
  unfold order_by in *. simpl. rewrite IH by (intros; apply H; now right).
  apply insert_by_snoc. apply H. now left.
Qed.

Hypothesis le_total : forall a b, le a b = false -> le b a = true.
Hypothesis le_trans : forall a b c, le a b = true -> le b c = true -> le a c = true.

Lemma le_refl_of_total (a : A) : le a a = true.
Proof.
  destruct (le a a) eqn:E; [reflexivity|].
  pose proof (@le_total _ _ E). congruence.
Qed.

(** The first row of [ORDER BY] precedes every row. *)
Lemma order_by_head (rows : list A) (m : A) :
  hd_error (order_by le rows) = Some m -> forall x, In x rows -> le m x = true.
Proof.
  revert m. induction rows as [|y rows IH]; intros m Hm x Hx; [contradiction|].
  unfold order_by in *. simpl in Hm.
  destruct (fold_right (insert_by le) [] rows) as [|z sorted] eqn:Hs.
  - assert (rows = []) as ->.
    { destruct rows as [|r rows]; [reflexivity|]. simpl in Hs.
      destruct (fold_right (insert_by le) [] rows) as [|z' s']; simpl in Hs;
        [discriminate|]. destruct (le r z'); discriminate. }
    simpl in Hm. injection Hm as <-. destruct Hx as [<-|[]]. apply le_refl_of_total.
  - simpl in Hm. specialize (IH z eq_refl).
    destruct (le y z) eqn:Hyz; simpl in Hm; injection Hm as <-.
    + destruct Hx as [<-|Hx]; [apply le_refl_of_total|].
      apply le_trans with z; auto.
    + destruct Hx as [<-|Hx]; [now apply le_total|auto].
Qed.

End OrderByFacts.

Lemma join_change_log_snd (db : DB) (row : ChangeLog * Version) :
  In row (join_change_log db) -> In (snd row) (db_versions db).
Proof.
  unfold join_change_log. rewrite in_flat_map. intros [cl [_ H]].
  apply in_map_iff in H. destruct H as [v [<- H]]. apply filter_In in H. tauto.
Qed.

Section NewVersion.
Variables (db : DB) (dataset : uuid) (version : VersionCreate).
Variables (current_user new_version_id : uuid) (now : datetime).
Variables (db' : DB) (new_version : Version).

Hypothesis created :
  create_new_version db dataset version current_user new_version_id now
  = Ok (db', new_version).

(** The identifier is fresh and the clock does not run backwards. *)
Hypothesis fresh_version :
  forall v, In v (db_versions db) -> version_id v <> new_version_id /\ (created_at v <= now)%Z.
Hypothesis fresh_change_log :
  forall cl, In cl (db_change_log db) -> cl_version_id cl <> new_version_id.

Let new_entry : ChangeLog := version_change_log new_version_id current_user version.

Lemma created_inv :
  exists latest,
    query_latest_version db dataset = Some latest /\
    next_version_number (version_number latest) = Ok (version_number new_version) /\
    version_id new_version = new_version_id /\
    v_dataset_id new_version = dataset /\
    created_at new_version = now /\
    db_versions db' = db_versions db ++ [new_version] /\
    db_change_log db' = db_change_log db ++ [new_entry] /\
    db_schema_versions db' =
      db_schema_versions db
      ++ new_schema_rows db (version_id latest) new_version_id version.
Proof.
  unfold create_new_version in created.
  destruct (find _ (db_datasets db)); [|discriminate].
  destruct (query_latest_version db dataset) as [latest|]; [|discriminate].
  exists latest. split; [reflexivity|].
  destruct (next_version_number (version_number latest)) as [number|]; [|discriminate].
  simpl in created. injection created as <- <-. simpl. repeat split; reflexivity.
Qed.

Lemma join_change_log_new :
  join_change_log db' = join_change_log db ++ [(new_entry, new_version)].
Proof.
  destruct created_inv as [latest [_ [_ [Hid [_ [_ [Hv [Hcl _]]]]]]]].
  unfold join_change_log. rewrite Hv, Hcl, flat_map_app. simpl. rewrite app_nil_r.
  f_equal.
  - apply flat_map_agree. intros cl Hin. rewrite filter_app. simpl.
    rewrite Hid. destruct (N.eqb_spec new_version_id (cl_version_id cl)) as [E|_].
    + exfalso. now apply (@fresh_change_log cl Hin).
    + now rewrite app_nil_r.
  - rewrite filter_app. simpl. rewrite Hid, N.eqb_refl.
    rewrite filter_none; [reflexivity|].
    intros v Hin. apply N.eqb_neq. now apply fresh_version.
Qed.

Lemma query_change_logs_new (ds : uuid) (upto : datetime) :
  query_change_logs db' ds upto =
  query_change_logs db ds upto
  ++ (if N.eqb dataset ds && (now <=? upto)%Z then [new_entry] else []).
Proof.
  destruct created_inv as [latest [_ [_ [_ [Hds [Hnow _]]]]]].
  unfold query_change_logs. rewrite join_change_log_new, filter_app. simpl.
  rewrite Hds, Hnow.
  destruct (N.eqb dataset ds && (now <=? upto)%Z); [|now rewrite !app_nil_r].
  rewrite order_by_snoc, map_app; [reflexivity|].
  intros row Hin. apply filter_In in Hin. destruct Hin as [Hin _].
  apply join_change_log_snd in Hin. simpl. rewrite Hnow.
  apply Z.leb_le. now apply fresh_version.
Qed.

Lemma replay_query_new (ds : uuid) (upto : datetime) :
  replay (query_change_logs db' ds upto) = replay (query_change_logs db ds upto).
Proof.
  rewrite query_change_logs_new.
  destruct (N.eqb dataset ds && (now <=? upto)%Z); [|now rewrite app_nil_r].
  rewrite (@replay_skip_changes _ [] new_entry (VList (map VDict (vc_data version))) eq_refl).
  now rewrite app_nil_r.
Qed.

Lemma query_schema_new (v : Version) :
  In v (db_versions db) -> query_schema db' (version_id v) = query_schema db (version_id v).
Proof.
  intros Hin. destruct created_inv as [latest [_ [_ [_ [_ [_ [_ [_ Hs]]]]]]]].
  unfold query_schema at 1. rewrite Hs, filter_app.
  rewrite (@filter_none _ _ (new_schema_rows _ _ _ _)); [now rewrite app_nil_r|].
  intros sv Hsv. apply N.eqb_neq.
  assert (sv_version_id sv = new_version_id) as ->.
  { unfold new_schema_rows in Hsv.
    destruct (vc_schema_changes version) as [[|c cs]|];
      apply in_map_iff in Hsv; destruct Hsv as [x [<- _]]; reflexivity. }
  intros E. destruct (@fresh_version v Hin) as [Hne _]. congruence.
Qed.

End NewVersion.

Lemma find_app {A : Type} (f : A -> bool) (xs ys : list A) :
  find f (xs ++ ys) = match find f xs with Some x => Some x | None => find f ys end.
Proof.
  induction xs as [|x xs IH]; simpl; [reflexivity|]. now destruct (f x).
Qed.

(** The version [create_new_version] reads is the one created last. *)
Lemma query_latest_version_max (db : DB) (dataset : uuid) (latest : Version) :
  query_latest_version db dataset = Some latest ->
  forall v, In v (db_versions db) -> v_dataset_id v = dataset ->
            (created_at v <= created_at latest)%Z.
Proof.
  unfold query_latest_version. intros H v Hin Hds.
  apply Z.leb_le.
  refine (@order_by_head _ (fun a b => (created_at b <=? created_at a)%Z) _ _ _ latest H v _).
  - intros a b E. apply Z.leb_le. apply Z.leb_gt in E. lia.
  - intros a b c E1 E2. apply Z.leb_le. apply Z.leb_le in E1, E2. lia.
  - apply filter_In. split; [assumption|]. now apply N.eqb_eq.
Qed.

(** C10. A version created through [create_new_version] records its data
    under the single key [changes].  The replay loop skips such an entry
    wherever it stands in a change log; reading any earlier version gives the
    same answer after the creation as before it; and the records replayed at
    the new version are those replayed at the version that was the latest
    before.  (The identifier is fresh and the clock does not run backwards.) *)
Theorem create_new_version_data_ignored (db : DB) (dataset : uuid)
    (version : VersionCreate) (current_user new_version_id : uuid) (now : datetime)
    (db' : DB) (new_version : Version) :
  create_new_version db dataset version current_user new_version_id now
  = Ok (db', new_version) ->
  (forall v, In v (db_versions db) ->
             version_id v <> new_version_id /\ (created_at v <= now)%Z) ->
  (forall cl, In cl (db_change_log db) -> cl_version_id cl <> new_version_id) ->
  let new_entry := version_change_log new_version_id current_user version in
  db_change_log db' = db_change_log db ++ [new_entry] /\
  changed_data new_entry = [("changes", VList (map VDict (vc_data version)))] /\
  (forall before after,
      replay (before ++ new_entry :: after) = replay (before ++ after)) /\
  (forall ds number,
      query_version db ds number <> None ->
      get_specific_version db' ds number = get_specific_version db ds number) /\
  (exists latest,
      query_latest_version db dataset = Some latest /\
      replay (query_change_logs db' dataset (created_at new_version))
      = replay (query_change_logs db dataset (created_at latest))).
Proof.
  intros Hcreated Hfresh Hfresh_cl new_entry.
  destruct (@created_inv _ _ _ _ _ _ _ _ Hcreated) as
    [latest [Hlatest [_ [_ [_ [Hnow [Hversions [Hlog _]]]]]]]].
  split; [exact Hlog|]. split; [reflexivity|]. split; [|split].
  - intros before after. now apply replay_skip_changes with (payload := VList (map VDict (vc_data version))).
  - intros ds number Hfound. unfold get_specific_version.
    assert (Hq : query_version db' ds number = query_version db ds number).
    { unfold query_version. rewrite Hversions, find_app.
      unfold query_version in Hfound. now destruct (find _ (db_versions db)). }
    rewrite Hq. destruct (query_version db ds number) as [v|] eqn:Ev; [|reflexivity].
    apply find_some in Ev. destruct Ev as [Hin _].
    rewrite (@query_schema_new _ _ _ _ _ _ _ _ Hcreated Hfresh v Hin).
    now rewrite (@replay_query_new _ _ _ _ _ _ _ _ Hcreated Hfresh Hfresh_cl).
  - exists latest. split; [assumption|].
    rewrite (@replay_query_new _ _ _ _ _ _ _ _ Hcreated Hfresh Hfresh_cl). rewrite Hnow.
    unfold query_change_logs. do 3 f_equal.
    apply filter_ext_in. intros row Hrow. apply join_change_log_snd in Hrow.
    destruct (N.eqb_spec (v_dataset_id (snd row)) dataset) as [E|E]; [|reflexivity].
    simpl. destruct (Hfresh _ Hrow) as [_ Hle].
    pose proof (@query_latest_version_max db dataset latest Hlatest (snd row) Hrow E) as Hmax.
    apply Z.leb_le in Hle, Hmax. now rewrite Hle, Hmax.
Qed.

Lemma create_new_version_data_ignored_witness :
  get_specific_version Sample.db2 100 "1.0" = get_specific_version Sample.db1 100 "1.0".
Proof.
  refine (proj1 (proj2 (proj2 (proj2
            (@create_new_version_data_ignored Sample.db1 100
               (Sample.request UPDATE [Sample.row 1 9]) 7 2 2000
               Sample.db2 Sample.version2 _ _ _)))) 100%N "1.0" _).
  - vm_compute. reflexivity.
  - intros v [<-|[]]. split; [discriminate|]. vm_compute. discriminate.
  - intros cl [<-|[]]. discriminate.
  - discriminate.
Defined.

(** ** Version numbers *)

Lemma counts_tenths_spec (n : nat) (k : Z) :
  counts_tenths n k = true ->
  forall j, (k <= j < k + Z.of_nat n)%Z ->
            next_version_number (decimal_tenths j) = Ok (decimal_tenths (j + 1)).
Proof.
  revert k. induction n as [|n IH]; intros k H j Hj; [lia|].
  simpl in H.
  destruct (next_version_number (decimal_tenths k)) as [s|] eqn:E; [|discriminate].
  apply andb_true_iff in H. destruct H as [Hs Hrest].
  destruct (Z.eq_dec j k) as [->|Hne].
  - apply String.eqb_eq in Hs. now rewrite E, Hs.
  - apply (IH (k + 1)%Z Hrest). lia.
Qed.

Lemma first_versions_count_tenths : counts_tenths 5000 10 = true.
Proof. vm_compute. reflexivity. Qed.

(** Three versions created one after the other on a fresh dataset. *)
Example three_versions_in_a_row :
  (served <- Sample.serve Sample.db1 100 2 2000
               [ Sample.request UPDATE [Sample.row 1 9];
                 Sample.request INSERT [Sample.row 3 3];
                 Sample.request DELETE [Sample.row 2 2] ] ;;
   Ok (map version_number (db_versions (fst served))))
  = Ok ["1.0"; "1.1"; "1.2"; "1.3"].
Proof. vm_compute. reflexivity. Qed.

Section OrderByMembers.
Variable A : Type.
Variable le : A -> A -> bool.

Lemma insert_by_In (x y : A) (rows : list A) :
  In x (insert_by le y rows) <-> x = y \/ In x rows.
Proof.
  induction rows as [|z rows IH]; simpl.
  - split; intros [H|H]; auto.
  - destruct (le y z); simpl; [|rewrite IH]; intuition auto.
Qed.

Lemma order_by_In (x : A) (rows : list A) : In x (order_by le rows) <-> In x rows.
Proof.
  unfold order_by. induction rows as [|y rows IH]; simpl; [tauto|].
  rewrite insert_by_In, IH. intuition auto.
Qed.

End OrderByMembers.

(** A version created after all the versions of its dataset is the latest. *)
Lemma query_latest_version_new (db db' : DB) (dataset : uuid) (new_version : Version) :
  db_versions db' = db_versions db ++ [new_version] ->
  v_dataset_id new_version = dataset ->
  (forall v, In v (db_versions db) -> v_dataset_id v = dataset ->
             (created_at v < created_at new_version)%Z) ->
  query_latest_version db' dataset = Some new_version.
Proof.
  intros Hversions Hds Hlater.
  assert (Hmember : In new_version (db_versions db')).
  { rewrite Hversions. apply in_or_app. right. now left. }
  destruct (query_latest_version db' dataset) as [m|] eqn:Hm.
  - pose proof (query_latest_version_max db' Hm new_version Hmember Hds) as Hmax.
    unfold query_latest_version in Hm.
    assert (Hin : In m (filter (fun v => N.eqb (v_dataset_id v) dataset) (db_versions db'))).
    { apply (order_by_In (fun a b => (created_at b <=? created_at a)%Z)).
      destruct (order_by _ _) as [|m' rest]; [discriminate|].
      injection Hm as ->. now left. }
    apply filter_In in Hin. destruct Hin as [Hin Hdsm]. apply N.eqb_eq in Hdsm.
    rewrite Hversions in Hin. apply in_app_or in Hin.
    destruct Hin as [Hin|[<-|[]]]; [|reflexivity].
    specialize (Hlater m Hin Hdsm). lia.
  - exfalso. unfold query_latest_version in Hm.
    assert (Hin : In new_version
                     (order_by (fun a b => (created_at b <=? created_at a)%Z)
                        (filter (fun v => N.eqb (v_dataset_id v) dataset) (db_versions db')))).
    { apply order_by_In. apply filter_In. split; [assumption|]. now apply N.eqb_eq. }
    destruct (order_by _ _); [contradiction|discriminate].
Qed.

Lemma create_dataset_numbered (db : DB) (dataset : DatasetCreate)
    (current_user new_dataset_id new_version_id : uuid) (now : datetime) :
  (forall v, In v (db_versions db) -> v_dataset_id v <> new_dataset_id) ->
  numbered_upto (fst (create_dataset db dataset current_user new_dataset_id new_version_id now))
                new_dataset_id 0.
Proof.
  intros Hfresh. unfold create_dataset. simpl. split.
  - eexists. split.
    + apply (@query_latest_version_new db); simpl; [reflexivity|reflexivity|].
      intros v Hin Hds. now apply Hfresh in Hin.
    + reflexivity.
  - simpl. intros v Hin Hds. apply in_app_or in Hin.
    destruct Hin as [Hin|[<-|[]]]; [now apply Hfresh in Hin|].
    exists 0%Z. split; [lia|reflexivity].
Qed.

Lemma create_new_version_numbered (db : DB) (dataset : uuid) (version : VersionCreate)
    (current_user new_version_id : uuid) (now : datetime) (db' : DB)
    (new_version : Version) (k : Z) :
  numbered_upto db dataset k ->
  (0 <= k < 5000)%Z ->
  (forall v, In v (db_versions db) -> v_dataset_id v = dataset -> (created_at v < now)%Z) ->
  create_new_version db dataset version current_user new_version_id now
  = Ok (db', new_version) ->
  version_number new_version = decimal_tenths (10 + (k + 1)) /\
  numbered_upto db' dataset (k + 1).
Proof.
  intros [[latest [Hlatest Hnumber]] Hall] Hk Hclock Hcreated.
  destruct (@created_inv _ _ _ _ _ _ _ _ Hcreated) as
    [latest' [Hlatest' [Hnext [_ [Hds [Hnow [Hversions _]]]]]]].
  rewrite Hlatest in Hlatest'. injection Hlatest' as <-.
  rewrite Hnumber in Hnext.
  rewrite (@counts_tenths_spec 5000 10 first_versions_count_tenths (10 + k)%Z) in Hnext
    by lia.
  assert (Hv : version_number new_version = decimal_tenths (10 + (k + 1))).
  { replace (10 + (k + 1))%Z with (10 + k + 1)%Z by lia. congruence. }
  clear Hnext. split; [exact Hv|]. split.
  - exists new_version. split; [|exact Hv].
    apply (@query_latest_version_new db); auto. now rewrite Hnow.
  - intros v Hin Hdsv. rewrite Hversions in Hin. apply in_app_or in Hin.
    destruct Hin as [Hin|[<-|[]]].
    + destruct (Hall v Hin Hdsv) as [i [Hi Hvi]]. exists i. split; [lia|assumption].
    + exists (k + 1)%Z. split; [lia|exact Hv].
Qed.

Lemma py_float_raises (s : string) (e : exn) : py_float s = Raise e -> e = ValueError.
Proof.
  unfold py_float.
  destruct (code_points s) as [cps|]; [|congruence].
  destruct (ascii_text cps) as [text|]; [|congruence].
  destruct (without_underscores zero text) as [text'|]; [|congruence].
  destruct (decimal_of_string _) as [[[negative num] e10]|]; [discriminate|].
  destruct (special_of_string _); [discriminate|congruence].
Qed.

Lemma create_new_version_datasets (db : DB) (dataset : uuid) (version : VersionCreate)
    (current_user new_version_id : uuid) (now : datetime) (db' : DB)
    (new_version : Version) :
  create_new_version db dataset version current_user new_version_id now
  = Ok (db', new_version) ->
  db_datasets db' = db_datasets db.
Proof.
  unfold create_new_version. intros H.
  destruct (find _ (db_datasets db)); [|discriminate].
  destruct (query_latest_version db dataset) as [latest|]; [|discriminate].
  destruct (next_version_number (version_number latest)); [|discriminate].
  simpl in H. now injection H as <- _.
Qed.

Lemma create_new_version_succeeds (db : DB) (dataset : uuid) (version : VersionCreate)
    (current_user new_version_id : uuid) (now : datetime) (k : Z) :
  dataset_exists db dataset ->
  numbered_upto db dataset k ->
  (0 <= k < 5000)%Z ->
  exists db' new_version,
    create_new_version db dataset version current_user new_version_id now
    = Ok (db', new_version).
Proof.
  intros Hexists [[latest [Hlatest Hnumber]] _] Hk.
  unfold create_new_version, dataset_exists in *.
  destruct (find _ (db_datasets db)); [|contradiction].
  rewrite Hlatest, Hnumber.
  rewrite (@counts_tenths_spec 5000 10 first_versions_count_tenths (10 + k)%Z) by lia.
  simpl. now eauto.
Qed.

(** A run of requests at increasing times counts on from the latest number. *)
Lemma create_versions_numbered (dataset : uuid) (requests : list Request) :
  forall (db : DB) (k : Z) (t : datetime),
    dataset_exists db dataset ->
    numbered_upto db dataset k ->
    (0 <= k)%Z ->
    (k + Z.of_nat (List.length requests) <= 5000)%Z ->
    (forall v, In v (db_versions db) -> v_dataset_id v = dataset -> (created_at v <= t)%Z) ->
    clock_increases t requests ->
    exists db' created,
      create_versions db dataset requests = Ok (db', created) /\
      map version_number created
      = map (fun i => decimal_tenths (10 + k + Z.of_nat i))
            (seq 1 (List.length requests)) /\
      numbered_upto db' dataset (k + Z.of_nat (List.length requests)).
Proof.
  induction requests as [|r rest IH]; intros db k t Hexists Hnumbered Hk Hbound Hpast Hclock.
  - exists db, []. cbn [create_versions map List.length seq].
    split; [reflexivity|]. split; [reflexivity|].
    now replace (k + Z.of_nat 0)%Z with k by lia.
  - destruct Hclock as [Hlater Hclock]. cbn [List.length] in Hbound.
    destruct (@create_new_version_succeeds db dataset (rq_version r) (rq_user r) (rq_id r)
                (rq_clock r) k Hexists Hnumbered ltac:(lia)) as [db1 [v Hcreated]].
    destruct (@create_new_version_numbered db dataset (rq_version r) (rq_user r) (rq_id r)
                (rq_clock r) db1 v k Hnumbered ltac:(lia)) as [Hv Hnumbered1];
      [intros v' Hin Hds; specialize (Hpast v' Hin Hds); lia|exact Hcreated|].
    destruct (@created_inv _ _ _ _ _ _ _ _ Hcreated) as
      [_ [_ [_ [_ [_ [Hnow [Hversions _]]]]]]].
    destruct (IH db1 (k + 1)%Z (rq_clock r)) as [db' [created [Hrun [Hnumbers Hlast]]]].
    + unfold dataset_exists. now rewrite (@create_new_version_datasets _ _ _ _ _ _ _ _ Hcreated).
    + exact Hnumbered1.
    + lia.
    + lia.
    + intros v' Hin Hds. rewrite Hversions in Hin. apply in_app_or in Hin.
      destruct Hin as [Hin|[<-|[]]]; [specialize (Hpast v' Hin Hds)|]; lia.
    + exact Hclock.
    + exists db', (v :: created). cbn [create_versions]. rewrite Hcreated. cbn [bind fst snd].
      rewrite Hrun. cbn [bind fst snd]. split; [reflexivity|]. split.
      * cbn [map List.length seq]. f_equal.
        -- rewrite Hv. f_equal. lia.
        -- rewrite Hnumbers, <- (seq_shift (List.length rest) 1), map_map. apply map_ext.
           intros i. f_equal. lia.
      * cbn [List.length]. now replace (k + Z.of_nat (S (List.length rest)))%Z
          with (k + 1 + Z.of_nat (List.length rest))%Z by lia.
Qed.

(** C7, as the code has it.  [create_new_version] answers exactly when the
    dataset exists, has a version and the number of its latest version - the
    one created last, no version of the dataset being later - reads as a
    float; the number of the new version is then that number plus 0.1,
    written with one decimal.  A new dataset starts at ["1.0"], and while
    versions are created one after the other, each at a later time than those
    before, every creation succeeds, the latest version bears the greatest
    number and the new one is one tenth above it: ["1.1"], ["1.2"], ["1.3"]
    and so on (checked for the first five thousand numbers). *)
Theorem version_number_increments :
  (forall db dataset version current_user new_version_id now,
      match create_new_version db dataset version current_user new_version_id now with
      | Ok (db', new_version) =>
          exists latest,
            query_latest_version db dataset = Some latest /\
            (forall v, In v (db_versions db) -> v_dataset_id v = dataset ->
                       (created_at v <= created_at latest)%Z) /\
            next_version_number (version_number latest) = Ok (version_number new_version)
      | Raise e =>
          (e = HTTPException 404 /\ ~ dataset_exists db dataset) \/
          (e = AttributeError /\ query_latest_version db dataset = None) \/
          (e = ValueError /\
           exists latest,
             query_latest_version db dataset = Some latest /\
             py_float (version_number latest) = Raise ValueError)
      end) /\
  (forall db dataset current_user new_dataset_id new_version_id now,
      (forall v, In v (db_versions db) -> v_dataset_id v <> new_dataset_id) ->
      let db' :=
        fst (create_dataset db dataset current_user new_dataset_id new_version_id now) in
      dataset_exists db' new_dataset_id /\ numbered_upto db' new_dataset_id 0) /\
  (forall db dataset requests k t,
      dataset_exists db dataset ->
      numbered_upto db dataset k ->
      (0 <= k)%Z ->
      (k + Z.of_nat (List.length requests) <= 5000)%Z ->
      (forall v, In v (db_versions db) -> v_dataset_id v = dataset ->
                 (created_at v <= t)%Z) ->
      clock_increases t requests ->
      exists db' created,
        create_versions db dataset requests = Ok (db', created) /\
        map version_number created
        = map (fun i => decimal_tenths (10 + k + Z.of_nat i))
              (seq 1 (List.length requests)) /\
        numbered_upto db' dataset (k + Z.of_nat (List.length requests))) /\
  next_version_number "1.0" = Ok "1.1" /\
  next_version_number "1.1" = Ok "1.2" /\
  next_version_number "1.2" = Ok "1.3" /\
  (forall k, (10 <= k < 5010)%Z ->
             next_version_number (decimal_tenths k) = Ok (decimal_tenths (k + 1))).
Proof.
  split; [|split; [|split; [|split; [|split; [|split]]]]];
    [| | |vm_compute; reflexivity|vm_compute; reflexivity|vm_compute; reflexivity|].
  - intros db dataset version current_user new_version_id now.
    destruct (create_new_version db dataset version current_user new_version_id now)
      as [[db' new_version]|e] eqn:H.
    + destruct (@created_inv _ _ _ _ _ _ _ _ H) as [latest [Hlatest [Hnumber _]]].
      exists latest. split; [assumption|]. split; [|assumption].
      now apply query_latest_version_max.
    + unfold create_new_version, dataset_exists in *.
      destruct (find _ (db_datasets db)).
      * destruct (query_latest_version db dataset) as [latest|].
        -- right. right. unfold next_version_number in H.
           destruct (py_float (version_number latest)) as [x|e'] eqn:E; [discriminate|].
           simpl in H. injection H as <-.
           pose proof (@py_float_raises _ _ E) as ->.
           split; [reflexivity|]. now exists latest.
        -- right. left. injection H as <-. now split.
      * left. injection H as <-. split; [reflexivity|]. intros Hne. now apply Hne.
  - intros db dataset current_user new_dataset_id new_version_id now Hfresh db'. split.
    + unfold db', dataset_exists, create_dataset. cbn [fst db_datasets].
      rewrite find_app. destruct (find _ (db_datasets db)); [discriminate|].
      cbn [find dataset_id]. now rewrite N.eqb_refl.
    + now apply create_dataset_numbered.
  - intros db dataset requests k t. apply create_versions_numbered.
  - intros k Hk. apply (@counts_tenths_spec 5000 10 first_versions_count_tenths). lia.
Qed.

(** Three requests at the times 2000, 2001 and 2005 on the sample dataset. *)
Lemma version_number_increments_witness :
  exists db' created,
    create_versions Sample.db1 100
      [ {| rq_version := Sample.request UPDATE [Sample.row 1 9]; rq_user := 7; rq_id := 2;
           rq_clock := 2000 |};
        {| rq_version := Sample.request INSERT [Sample.row 3 3]; rq_user := 7; rq_id := 3;
           rq_clock := 2001 |};
        {| rq_version := Sample.request DELETE [Sample.row 2 2]; rq_user := 8; rq_id := 4;
           rq_clock := 2005 |} ]
    = Ok (db', created) /\
    map version_number created = ["1.1"; "1.2"; "1.3"].
Proof.
  destruct version_number_increments as [_ [Hstart [Hrun _]]].
  destruct (Hstart Sample.empty_db
              {| dc_dataset_name := "sales"; dc_schema_definition := Sample.columns;
                 dc_data := [Sample.row 1 1; Sample.row 2 2] |}
              7%N 100%N 1%N 1000%Z ltac:(intros v []))
    as [Hexists Hnumbered].
  destruct (Hrun _ 100%N
              [ {| rq_version := Sample.request UPDATE [Sample.row 1 9]; rq_user := 7;
                   rq_id := 2; rq_clock := 2000 |};
                {| rq_version := Sample.request INSERT [Sample.row 3 3]; rq_user := 7;
                   rq_id := 3; rq_clock := 2001 |};
                {| rq_version := Sample.request DELETE [Sample.row 2 2]; rq_user := 8;
                   rq_id := 4; rq_clock := 2005 |} ]
              0%Z 1000%Z Hexists Hnumbered ltac:(lia) ltac:(simpl; lia))
    as [db' [created [Hcreated [Hnumbers _]]]].
  - intros v [<-|[]] _. simpl. lia.
  - simpl. lia.
  - exists db', created. split; [exact Hcreated|]. exact Hnumbers.
Defined.

(** C7 as stated fails: the number is taken from the version created last,
    not from the greatest number.  The sample dataset has version ["1.0"] of
    the time 1000; a request served when the database's clock reads 500 makes
    ["1.1"], and the next one, at 600, still finds ["1.0"] to be the latest
    and makes ["1.1"] again, where one tenth above the greatest number is
    ["1.2"]. *)
Lemma version_number_repeats_after_clock_step :
  (first <- create_new_version Sample.db1 100 (Sample.request UPDATE [Sample.row 1 9])
              7 2 500 ;;
   second <- create_new_version (fst first) 100 (Sample.request INSERT [Sample.row 3 3])
               7 3 600 ;;
   Ok (map version_number (db_versions (fst first)), version_number (snd second)))
  = Ok (["1.0"; "1.1"], "1.1").
Proof. vm_compute. reflexivity. Qed.

(** ** Schema compatibility warnings *)

Lemma fold_left_appends {A W : Type} (body : list W -> A -> list W) (f : A -> list W)
    (xs : list A) (warnings : list W) :
  (forall w x, body w x = w ++ f x) ->
  fold_left body xs warnings = warnings ++ flat_map f xs.
Proof.
  intros H. revert warnings. induction xs as [|x xs IH]; intros warnings; simpl.
  - now rewrite app_nil_r.
  - now rewrite IH, H, app_assoc.
Qed.

Section DictOfList.
Variable V : Type.
Variable key : V -> string.

Let add (acc : list (string * V)) (x : V) := dict_set (key x) x acc.

Lemma In_dict_set (k k0 : string) (v v0 : V) (d : list (string * V)) :
  In (k, v) (dict_set k0 v0 d) -> (k, v) = (k0, v0) \/ In (k, v) d.
Proof.
  induction d as [|[k1 v1] d IH]; simpl.
  - intros [H|[]]. left. now symmetry.
  - destruct (String.eqb k0 k1) eqn:E; simpl.
    + apply String.eqb_eq in E. subst k1. intros [H|H]; [left; now symmetry|tauto].
    + intros [H|H]; [tauto|]. destruct (IH H); tauto.
Qed.

Lemma fold_add_wf (xs : list V) (d : list (string * V)) :
  wf_dict d -> wf_dict (fold_left add xs d).
Proof.
  revert d. induction xs as [|x xs IH]; intros d H; simpl; [assumption|].
  apply IH. now apply wf_dict_set.
Qed.

Lemma fold_add_keyed (xs : list V) (d : list (string * V)) :
  (forall k v, In (k, v) d -> key v = k) ->
  forall k v, In (k, v) (fold_left add xs d) -> key v = k.
Proof.
  revert d. induction xs as [|x xs IH]; intros d H; simpl; [assumption|].
  apply IH. intros k v Hin. apply In_dict_set in Hin.
  destruct Hin as [[= -> ->]|Hin]; [reflexivity|now apply H].
Qed.

Lemma fold_add_keys (xs : list V) (d : list (string * V)) (k : string) :
  In k (keys (fold_left add xs d)) <-> In k (keys d) \/ In k (map key xs).
Proof.
  revert d. induction xs as [|x xs IH]; intros d; simpl; [tauto|].
  rewrite IH. unfold add. rewrite keys_dict_set.
  destruct (dict_mem (key x) d) eqn:E.
  - unfold dict_mem in E. destruct (dict_get (key x) d) eqn:G; [|discriminate].
    assert (In (key x) (keys d)) by (apply dict_get_Some_keys; congruence).
    split; [tauto|]. intros [H'|[<-|H']]; tauto.
  - rewrite in_app_iff. simpl. tauto.
Qed.

Lemma dict_of_list_wf (xs : list V) : wf_dict (dict_of_list key xs).
Proof. apply fold_add_wf. constructor. Qed.

Lemma dict_of_list_key (xs : list V) (k : string) (v : V) :
  dict_get k (dict_of_list key xs) = Some v -> key v = k.
Proof.
  intros H. apply dict_get_In in H. revert H. apply fold_add_keyed.
  intros ? ? [].
Qed.

(** A name is a key of the dictionary exactly when the list has an item
    under it. *)
Lemma dict_of_list_mem (xs : list V) (k : string) :
  dict_get k (dict_of_list key xs) <> None <-> In k (map key xs).
Proof.
  rewrite dict_get_Some_keys. pose proof (fold_add_keys xs [] k) as H.
  unfold add in H. unfold dict_of_list. rewrite H. simpl. tauto.
Qed.

End DictOfList.

Section DictOfListLast.
Variable V : Type.
Variable key : V -> string.

Let add (acc : list (string * V)) (x : V) := dict_set (key x) x acc.

Lemma fold_add_get (xs : list V) (d : list (string * V)) (k : string) :
  dict_get k (fold_left add xs d) =
  match find (fun x => String.eqb (key x) k) (rev xs) with
  | Some v => Some v
  | None => dict_get k d
  end.
Proof.
  revert d. induction xs as [|x xs IH]; intros d; simpl; [reflexivity|].
  rewrite IH, find_app. destruct (find _ (rev xs)); [reflexivity|].
  simpl. unfold add.
  destruct (String.eqb_spec (key x) k) as [<-|Hne].
  - apply dict_get_set_same.
  - apply dict_get_set_other. congruence.
Qed.

(** Under a name the dictionary holds the last item of that name. *)
Lemma dict_of_list_last (xs : list V) (k : string) :
  dict_get k (dict_of_list key xs) = find (fun x => String.eqb (key x) k) (rev xs).
Proof.
  pose proof (fold_add_get xs [] k) as H. unfold add in H.
  unfold dict_of_list. rewrite H. now destruct (find _ _).
Qed.

End DictOfListLast.

Lemma wf_dict_get_In {V : Type} (d : list (string * V)) (k : string) (v : V) :
  wf_dict d -> In (k, v) d -> dict_get k d = Some v.
Proof.
  unfold wf_dict. induction d as [|[k' v'] d IH]; intros Hwf Hin; [contradiction|].
  simpl in Hwf. inversion Hwf as [|? ? Hnotin Hwf']; subst. simpl.
  destruct Hin as [[= -> ->]|Hin].
  - now rewrite String.eqb_refl.
  - destruct (String.eqb_spec k k') as [->|_]; [|now apply IH].
    exfalso. apply Hnotin. unfold keys. now apply (in_map fst) in Hin.
Qed.

Lemma wf_dict_filter {V : Type} (keep : string * V -> bool) (d : list (string * V)) :
  wf_dict d -> wf_dict (filter keep d).
Proof.
  unfold wf_dict, keys. induction d as [|kv d IH]; simpl; intros H; [constructor|].
  inversion H as [|? ? Hnotin Hrest]; subst.
  destruct (keep kv); simpl; [|now apply IH].
  constructor; [|now apply IH].
  intros Hin. apply Hnotin. apply in_map_iff in Hin. destruct Hin as [x [Hx Hin]].
  apply filter_In in Hin. apply in_map_iff. exists x. tauto.
Qed.

Lemma flat_map_if {A B : Type} (keep : A -> bool) (f : A -> B) (xs : list A) :
  flat_map (fun x => if keep x then [f x] else []) xs = map f (filter keep xs).
Proof.
  induction xs as [|x xs IH]; simpl; [reflexivity|].
  rewrite IH. now destruct (keep x).
Qed.

Lemma Permutation_flat_map_app {A B : Type} (f g : A -> list B) (xs : list A) :
  Permutation (flat_map (fun x => f x ++ g x) xs) (flat_map f xs ++ flat_map g xs).
Proof.
  induction xs as [|x xs IH]; simpl; [constructor|].
  rewrite IH, <- !app_assoc. apply Permutation_app_head.
  rewrite !app_assoc. apply Permutation_app_tail. apply Permutation_app_comm.
Qed.

(** The warnings, loop by loop and column by column. *)
Lemma validate_schema_compatibility_by_column (old_schema new_schema : list SchemaDefinition) :
  let old_columns := dict_of_list sd_column_name old_schema in
  let new_columns := dict_of_list sd_column_name new_schema in
  let old_type c :=
    match dict_get c old_columns with Some old_col => sd_data_type old_col | None => "" end in
  let retyped item :=
    match dict_get (fst item) old_columns with
    | Some old_col => negb (String.eqb (sd_data_type (snd item)) (sd_data_type old_col))
    | None => false
    end in
  let narrowed item :=
    match dict_get (fst item) old_columns with
    | Some old_col => sd_is_nullable old_col && negb (sd_is_nullable (snd item))
    | None => false
    end in
  validate_schema_compatibility old_schema new_schema
  = map removed_text
        (filter (fun c => negb (dict_mem c new_columns)) (keys old_columns))
    ++ flat_map
         (fun item =>
            (if retyped item
             then [type_changed_text
                     (fst item, old_type (fst item), sd_data_type (snd item))]
             else [])
            ++ (if narrowed item then [narrowed_text (fst item)] else []))
         new_columns.
Proof.
  intros old_columns new_columns old_type retyped narrowed.
  unfold validate_schema_compatibility. fold old_columns new_columns.
  rewrite (fold_left_appends _
             (fun item =>
                (if retyped item
                 then [type_changed_text
                         (fst item, old_type (fst item), sd_data_type (snd item))]
                 else [])
                ++ (if narrowed item then [narrowed_text (fst item)] else []))).
  - f_equal.
    rewrite (fold_left_appends _
               (fun c => if negb (dict_mem c new_columns) then [removed_text c] else []))
      by (intros w c; destruct (negb _); now rewrite ?app_nil_r).
    apply flat_map_if.
  - intros w [c new_col]. unfold retyped, narrowed, old_type. simpl.
    destruct (dict_get c old_columns) as [old_col|]; [|now rewrite app_nil_r].
    destruct (negb (String.eqb _ _)), (sd_is_nullable old_col && negb _); simpl;
      now rewrite ?app_nil_r, <- ?app_assoc.
Qed.

(** C8. The warnings of the compatibility checker are, in some order, one
    "removed" text for each column name of [removed], one "type changed" text
    naming the old and the new type for each change of [retyped] and one
    narrowing text for each column name of [narrowed], where [removed] lists,
    each once, the columns the old schema has and the new one has not,
    [retyped] those both schemas have with different types, and [narrowed]
    those both have, nullable before and not after.  A column to which two
    rules apply is in two of the lists; a column the old schema does not have
    is in none, so an added column yields no warning. *)
Theorem schema_warnings_exactly_once (old_schema new_schema : list SchemaDefinition) :
  exists (removed : list string) (retyped : list (string * string * string))
         (narrowed : list string),
    Permutation (validate_schema_compatibility old_schema new_schema)
                (map removed_text removed
                 ++ map type_changed_text retyped
                 ++ map narrowed_text narrowed) /\
    NoDup removed /\
    (forall c, In c removed <-> is_removed old_schema new_schema c) /\
    NoDup retyped /\
    (forall change, In change retyped <-> is_retyped old_schema new_schema change) /\
    NoDup narrowed /\
    (forall c, In c narrowed <-> is_narrowed old_schema new_schema c) /\
    (forall c,
        column_of old_schema c = None ->
        ~ In c removed /\
        (forall old_type new_type, ~ In (c, old_type, new_type) retyped) /\
        ~ In c narrowed).
Proof.
  pose proof (validate_schema_compatibility_by_column old_schema new_schema) as Hloops.
  cbv zeta in Hloops.
  set (old_columns := dict_of_list sd_column_name old_schema) in *.
  set (new_columns := dict_of_list sd_column_name new_schema) in *.
  set (old_type := fun c =>
         match dict_get c old_columns with
         | Some old_col => sd_data_type old_col
         | None => ""
         end) in *.
  set (retyped := fun item : string * SchemaDefinition =>
         match dict_get (fst item) old_columns with
         | Some old_col => negb (String.eqb (sd_data_type (snd item)) (sd_data_type old_col))
         | None => false
         end) in *.
  set (narrowed := fun item : string * SchemaDefinition =>
         match dict_get (fst item) old_columns with
         | Some old_col => sd_is_nullable old_col && negb (sd_is_nullable (snd item))
         | None => false
         end) in *.
  assert (Hold : forall c, dict_get c old_columns = column_of old_schema c)
    by (intros c; apply dict_of_list_last).
  assert (Hnew : forall c, dict_get c new_columns = column_of new_schema c)
    by (intros c; apply dict_of_list_last).
  assert (Hwf_old : wf_dict old_columns) by apply dict_of_list_wf.
  assert (Hwf_new : wf_dict new_columns) by apply dict_of_list_wf.
  assert (Hitem : forall c new_col,
             In (c, new_col) new_columns <-> column_of new_schema c = Some new_col).
  { intros c new_col. rewrite <- Hnew. split.
    - now apply wf_dict_get_In.
    - apply dict_get_In. }
  assert (Hremoved : forall c,
             In c (filter (fun c => negb (dict_mem c new_columns)) (keys old_columns))
             <-> is_removed old_schema new_schema c).
  { intros c. rewrite filter_In, <- dict_get_Some_keys, negb_true_iff.
    unfold is_removed, dict_mem. rewrite Hold, Hnew.
    destruct (column_of new_schema c); split; intros [H1 H2];
      (split; [assumption|congruence]). }
  assert (Hretyped : forall change,
             In change
                (map (fun item => (fst item, old_type (fst item), sd_data_type (snd item)))
                     (filter retyped new_columns))
             <-> is_retyped old_schema new_schema change).
  { intros [[c t] t']. rewrite in_map_iff. unfold is_retyped. split.
    - intros [[c' new_col] [[= -> <- <-] Hin]]. apply filter_In in Hin.
      destruct Hin as [Hin Hcond]. unfold retyped, old_type in *. simpl in *.
      rewrite Hold in *. destruct (column_of old_schema c) as [old_col|]; [|discriminate].
      exists old_col, new_col. apply Hitem in Hin.
      repeat split; try assumption; try reflexivity.
      apply negb_true_iff, String.eqb_neq in Hcond. congruence.
    - intros [old_col [new_col [Ho [Hn [<- [<- Hne]]]]]].
      exists (c, new_col). unfold old_type. simpl. rewrite Hold, Ho.
      split; [reflexivity|]. apply filter_In. split; [now apply Hitem|].
      unfold retyped. simpl. rewrite Hold, Ho.
      apply negb_true_iff, String.eqb_neq. congruence. }
  assert (Hnarrowed : forall c,
             In c (map fst (filter narrowed new_columns))
             <-> is_narrowed old_schema new_schema c).
  { intros c. rewrite in_map_iff. unfold is_narrowed. split.
    - intros [[c' new_col] [<- Hin]]. apply filter_In in Hin.
      destruct Hin as [Hin Hcond]. unfold narrowed in Hcond. simpl in *.
      rewrite Hold in Hcond. destruct (column_of old_schema c') as [old_col|];
        [|discriminate].
      exists old_col, new_col. apply Hitem in Hin.
      apply andb_true_iff in Hcond. destruct Hcond as [H1 H2].
      apply negb_true_iff in H2. repeat split; assumption.
    - intros [old_col [new_col [Ho [Hn [H1 H2]]]]].
      exists (c, new_col). split; [reflexivity|].
      apply filter_In. split; [now apply Hitem|].
      unfold narrowed. simpl. now rewrite Hold, Ho, H1, H2. }
  exists (filter (fun c => negb (dict_mem c new_columns)) (keys old_columns)),
         (map (fun item => (fst item, old_type (fst item), sd_data_type (snd item)))
              (filter retyped new_columns)),
         (map fst (filter narrowed new_columns)).
  split; [|split; [|split; [|split; [|split; [|split; [|split]]]]]].
  - rewrite Hloops. apply Permutation_app_head.
    rewrite Permutation_flat_map_app, !flat_map_if, !map_map. reflexivity.
  - apply NoDup_filter. exact Hwf_old.
  - exact Hremoved.
  - apply (NoDup_map_inv (fun change => fst (fst change))).
    rewrite map_map. simpl. apply (wf_dict_filter retyped Hwf_new).
  - exact Hretyped.
  - apply (wf_dict_filter narrowed Hwf_new).
  - exact Hnarrowed.
  - intros c Hnone. split; [|split].
    + intros Hin. apply Hremoved in Hin. destruct Hin as [Hin _]. contradiction.
    + intros t t' Hin. apply Hretyped in Hin.
      destruct Hin as [old_col [_ [Ho _]]]. congruence.
    + intros Hin. apply Hnarrowed in Hin.
      destruct Hin as [old_col [_ [Ho _]]]. congruence.
Qed.

(** The spec's four schema changes at once: [y] removed, [id] retyped, [x]
    narrowed, [z] added. *)
Example schema_changes_at_once :
  validate_schema_compatibility
    [ {| sd_column_name := "id"; sd_data_type := "int"; sd_is_nullable := false;
         sd_description := None |};
      {| sd_column_name := "x"; sd_data_type := "int"; sd_is_nullable := true;
         sd_description := None |};
      {| sd_column_name := "y"; sd_data_type := "text"; sd_is_nullable := true;
         sd_description := None |} ]
    [ {| sd_column_name := "id"; sd_data_type := "text"; sd_is_nullable := false;
         sd_description := None |};
      {| sd_column_name := "x"; sd_data_type := "int"; sd_is_nullable := false;
         sd_description := None |};
      {| sd_column_name := "z"; sd_data_type := "int"; sd_is_nullable := true;
         sd_description := None |} ]
  = [ "Column 'y' has been removed";
      "Data type changed for column 'id': int -> text";
      "Column 'x' changed from nullable to non-nullable" ].
Proof. reflexivity. Qed.

(** ** Version search *)

Lemma filter_filter {A : Type} (f g : A -> bool) (xs : list A) :
  filter f (filter g xs) = filter (fun x => g x && f x) xs.
Proof.
  induction xs as [|x xs IH]; simpl; [reflexivity|].
  destruct (g x); simpl; [destruct (f x)|]; now rewrite IH.
Qed.

Lemma unique_entities_seen (seen : list uuid) (v : Version) (copies rest : list Version) :
  (forall x, In x copies -> x = v) ->
  In (version_id v) seen ->
  unique_entities seen (copies ++ rest) = unique_entities seen rest.
Proof.
  intros Hcopies Hseen. induction copies as [|x copies IH]; simpl; [reflexivity|].
  rewrite (Hcopies x) by now left.
  replace (existsb (N.eqb (version_id v)) seen) with true.
  - apply IH. intros y Hy. apply Hcopies. now right.
  - symmetry. apply existsb_exists. exists (version_id v). split; [assumption|].
    apply N.eqb_refl.
Qed.

Lemma joined_rows_of_one (p : Version * SchemaVersion -> bool) (v : Version)
    (svs : list SchemaVersion) :
  (forall x, In x (map fst (filter p (map (pair v) svs))) -> x = v) /\
  (map fst (filter p (map (pair v) svs)) = [] <->
   existsb (fun sv => p (v, sv)) svs = false).
Proof.
  induction svs as [|sv svs [IH1 IH2]]; simpl.
  - split; [intros x []|tauto].
  - destruct (p (v, sv)); simpl.
    + split; [|split; discriminate]. intros x [<-|H]; auto.
    + split; assumption.
Qed.

Lemma unique_entities_join (db : DB) (names : list string) (query : list Version) :
  NoDup (map version_id query) ->
  forall seen,
    (forall v, In v query -> ~ In (version_id v) seen) ->
    unique_entities seen
      (map fst
         (filter (fun row => existsb (String.eqb (column_name (snd row))) names)
                 (join_schema db query)))
    = filter
        (fun v => existsb (fun sv => existsb (String.eqb (column_name sv)) names)
                          (schema_versions_of db v))
        query.
Proof.
  set (p := fun row : Version * SchemaVersion =>
              existsb (String.eqb (column_name (snd row))) names).
  induction query as [|v query IH]; intros Hnodup seen Hseen; [reflexivity|].
  simpl in Hnodup. inversion Hnodup as [|? ? Hnotin Hnodup']; subst.
  unfold join_schema. simpl. rewrite filter_app, map_app.
  fold (join_schema db query).
  destruct (joined_rows_of_one p v (schema_versions_of db v)) as [Hcopies Hempty].
  change (fun sv => existsb (String.eqb (column_name sv)) names)
    with (fun sv => p (v, sv)) at 1.
  destruct (map fst (filter p (map (pair v) (schema_versions_of db v))))
    as [|x copies] eqn:E.
  - rewrite (proj1 Hempty eq_refl). simpl. apply IH; [assumption|].
    intros u Hu. apply Hseen. now right.
  - destruct (existsb (fun sv => p (v, sv)) (schema_versions_of db v)) eqn:Ex.
    2:{ destruct Hempty as [_ Hempty]. discriminate (Hempty eq_refl). }
    assert (x = v) as -> by (apply Hcopies; now left).
    simpl.
    replace (existsb (N.eqb (version_id v)) seen) with false.
    2:{ symmetry. destruct (existsb (N.eqb (version_id v)) seen) eqn:Es; [|reflexivity].
        apply existsb_exists in Es. destruct Es as [i [Hi Ei]].
        apply N.eqb_eq in Ei. subst i. exfalso. apply (Hseen v); [now left|assumption]. }
    f_equal.
    rewrite (@unique_entities_seen (version_id v :: seen) v copies).
    + apply IH; [assumption|].
      intros u Hu [Eu|Hin].
      * apply Hnotin. rewrite Eu. now apply in_map.
      * apply (Hseen u); [now right|assumption].
    + intros y Hy. apply Hcopies. now right.
    + now left.
Qed.

Lemma NoDup_filter_ids (f : Version -> bool) (vs : list Version) :
  NoDup (map version_id vs) -> NoDup (map version_id (filter f vs)).
Proof.
  induction vs as [|v vs IH]; simpl; intros H; [constructor|].
  inversion H as [|? ? Hnotin H']; subst.
  destruct (f v); simpl; auto.
  constructor; auto. intros Hin. apply Hnotin.
  apply in_map_iff in Hin. destruct Hin as [u [Eu Hu]].
  apply filter_In in Hu. rewrite <- Eu. apply in_map. tauto.
Qed.

(** C9, as the code has it.  With version identifiers unique, the search
    returns, in storage order and each once, exactly the versions of the
    dataset that pass all the filters given: creation time within the inclusive
    range, change type equal to the given one, and at least one column of the
    version's schema snapshot named in the given list. *)
Theorem search_versions_filters (db : DB) (dataset : uuid) (filters : Filters) :
  NoDup (map version_id (db_versions db)) ->
  search_query db dataset filters
  = filter (search_matches db dataset filters) (db_versions db) /\
  search_versions db dataset filters
  = map (_format_version_result db)
        (filter (search_matches db dataset filters) (db_versions db)).
Proof.
  intros Hnodup.
  assert (H : search_query db dataset filters
              = filter (search_matches db dataset filters) (db_versions db)).
  { unfold search_query, search_matches, in_date_range, has_change_type, has_some_column.
    destruct (date_range filters) as [[range_start range_end]|],
      (f_change_type filters) as [t|], (f_schema_changes filters) as [names|];
      try (rewrite unique_entities_join;
           [|repeat apply NoDup_filter_ids; exact Hnodup|intros v _ []]);
      rewrite ?filter_filter; apply filter_ext; intros v;
      rewrite ?andb_true_r, ?andb_assoc; reflexivity. }
  split; [exact H|]. unfold search_versions. now rewrite H.
Qed.

Lemma search_versions_filters_witness :
  search_query Sample.db1 100 (Sample.column_filter ["x"; "missing"])
  = filter (search_matches Sample.db1 100 (Sample.column_filter ["x"; "missing"]))
           (db_versions Sample.db1).
Proof.
  apply (@search_versions_filters Sample.db1 100 (Sample.column_filter ["x"; "missing"])).
  simpl. repeat constructor. simpl. tauto.
Defined.

(** C9 as stated fails: a version is returned as soon as one of the names is
    a column of its schema snapshot, here without a column [missing]. *)
Lemma search_versions_any_column :
  search_query Sample.db1 100 (Sample.column_filter ["x"; "missing"]) = [Sample.version1] /\
  has_all_columns Sample.db1 (Sample.column_filter ["x"; "missing"]) Sample.version1 = false.
Proof. split; reflexivity. Qed.

(** ** The cached read *)

Lemma key_eqb_refl (key : uuid * string) : key_eqb key key = true.
Proof. unfold key_eqb. now rewrite N.eqb_refl, String.eqb_refl. Qed.

Lemma redis_get_setex (redis : Redis) (key : uuid * string) (expire_time : Z)
    (v : CachedVersion) (now later : datetime) :
  (later < now + expire_time)%Z ->
  redis_get (setex redis key expire_time v now) key later = Some v.
Proof.
  intros H. unfold redis_get, setex. simpl. rewrite key_eqb_refl.
  apply Z.ltb_lt in H. now rewrite H.
Qed.

(** C6, as the code has it.  The cached read returns the cached value while a
    live entry exists.  On a miss it answers 404 for an unknown version;
    otherwise it builds, from the version row alone, the formatted version and
    the raw payloads of the change-log rows attached to that version, stores
    the result for 3600 seconds and returns it, and a later cached read
    within that time returns the same value.  No replay takes place. *)
Theorem get_version_with_cache_serves (redis : Redis) (db : DB) (dataset : uuid)
    (number : string) (now : datetime) :
  (forall cached,
      get_cached_version redis (dataset, number) now = Some cached ->
      get_version_with_cache redis db dataset number now = (Ok cached, redis)) /\
  (get_cached_version redis (dataset, number) now = None ->
   query_version db dataset number = None ->
   get_version_with_cache redis db dataset number now = (Raise (HTTPException 404), redis)) /\
  (forall version,
      get_cached_version redis (dataset, number) now = None ->
      query_version db dataset number = Some version ->
      let result :=
        {| version_info := _format_version_result db version;
           data := map changed_data (changes_of db version) |} in
      exists redis',
        get_version_with_cache redis db dataset number now = (Ok result, redis') /\
        forall later,
          (now <= later < now + 3600)%Z ->
          get_version_with_cache redis' db dataset number later = (Ok result, redis')).
Proof.
  unfold get_version_with_cache. split; [|split].
  - intros cached H. now rewrite H.
  - intros Hmiss Hq. now rewrite Hmiss, Hq.
  - intros version Hmiss Hq. cbv zeta. rewrite Hmiss, Hq.
    eexists. split; [reflexivity|]. intros later Hlater.
    unfold get_cached_version, cache_version.
    rewrite redis_get_setex by lia. reflexivity.
Qed.

(** C6 as stated fails: for version ["1.1"] of the sample dataset the direct
    read replays the two records of version ["1.0"], while the cached read
    returns the one raw payload recorded with version ["1.1"]. *)
Lemma cached_read_is_not_the_replay :
  exists info cached redis,
    get_specific_version Sample.db2 100 "1.1" = Ok info /\
    get_version_with_cache [] Sample.db2 100 "1.1" 3000 = (Ok cached, redis) /\
    complete_data info = [Sample.record 1 1; Sample.record 2 2] /\
    data cached = [[("changes", VList [Sample.record 1 9])]] /\
    map VDict (data cached) <> complete_data info.
Proof.
  do 3 eexists. split; [vm_compute; reflexivity|].
  split; [vm_compute; reflexivity|].
  simpl. repeat split. discriminate.
Qed.

(** ** Bulk insert *)

(** The row built for a batch has no [changed_by]: a commit that has to write
    it is refused. *)
Lemma batch_row_refused (rows : list ChangeLog) (dataset : uuid) (batch : list dict) :
  forallb row_accepted (rows ++ [batch_change_log dataset batch]) = false.
Proof. rewrite forallb_app. simpl. apply andb_false_r. Qed.

(** The first pass of the loop, at offset 0: the row is added and the commit
    that follows it fails; if the [add] itself fails, nothing was added. *)
Lemma bulk_loop_refused (fails : nat -> bool) (dataset : uuid) (batch_size : nat)
    (df : list dict) (rest : list nat) (total : nat) (s : Session) :
  exists e s',
    bulk_loop fails dataset batch_size df (0 :: rest) total s = (Raise e, s') /\
    committed s' = committed s.
Proof.
  cbn [bulk_loop]. unfold io_bind at 1. unfold db_add.
  destruct (fails (calls s)); [now eauto|].
  unfold io_bind at 1. rewrite Nat.Div0.mod_0_l. cbn [Nat.eqb].
  unfold db_commit. cbn [pending calls committed].
  rewrite batch_row_refused, orb_true_r. cbn [negb]. now eauto.
Qed.

(** With no row in the frame the loop is not entered: the call is its last
    commit. *)
Lemma bulk_insert_empty (fails : nat -> bool) (frame_records : list dict -> list dict)
    (dataset : uuid) (batch_size : nat) (data : list dict) (s : Session) :
  1 <= batch_size ->
  frame_records data = [] ->
  bulk_insert fails frame_records dataset batch_size data s
  = if fails (calls s) || negb (forallb row_accepted (pending s))
    then (Raise (HTTPException 500),
          {| committed := committed s; pending := []; calls := S (calls s) |})
    else (Ok {| status := "success"; records_processed := 0 |},
          {| committed := committed s ++ pending s; pending := [];
             calls := S (calls s) |}).
Proof.
  intros Hb Hframe.
  unfold bulk_insert, try_except, io_bind, lift, py_range. rewrite Hframe.
  destruct (Nat.eqb_spec batch_size 0) as [->|_]; [lia|].
  simpl. unfold ret, db_commit.
  now destruct (fails (calls s) || negb (forallb row_accepted (pending s))).
Qed.

(** The two ways a call of [bulk_insert] can end: with the error 500 and the
    table as it was, or - only when the frame is empty - with one commit of
    what was pending before. *)
Lemma bulk_insert_outcome (fails : nat -> bool) (frame_records : list dict -> list dict)
    (dataset : uuid) (batch_size : nat) (data : list dict) (s : Session) :
  match bulk_insert fails frame_records dataset batch_size data s with
  | (Raise e, s') =>
      e = HTTPException 500 /\ committed s' = committed s /\ pending s' = []
  | (Ok r, s') =>
      frame_records data = [] /\
      1 <= batch_size /\
      fails (calls s) = false /\
      forallb row_accepted (pending s) = true /\
      r = {| status := "success"; records_processed := 0 |} /\
      s' = {| committed := committed s ++ pending s; pending := [];
              calls := S (calls s) |}
  end.
Proof.
  destruct (Nat.eq_dec batch_size 0) as [->|Hb].
  { cbn. repeat split. }
  destruct (frame_records data) as [|r df] eqn:Hframe.
  { rewrite bulk_insert_empty by (assumption || lia).
    destruct (fails (calls s)); [cbn; repeat split|].
    destruct (forallb row_accepted (pending s)); cbn; repeat split. lia. }
  unfold bulk_insert, try_except.
  unfold io_bind at 1. unfold lift, py_range. rewrite Hframe.
  destruct (Nat.eqb_spec batch_size 0) as [E|_]; [contradiction|].
  - cbn [List.length range_from Nat.ltb Nat.leb].
    unfold io_bind at 1.
    destruct (bulk_loop_refused fails dataset batch_size (r :: df)
                (range_from (List.length df) (0 + batch_size) (S (List.length df)) batch_size)
                0 s) as [e [s' [-> Hcommitted]]].
    cbn. repeat split. exact Hcommitted.
Qed.

(** C4. When [bulk_insert] fails - whatever the records, the batch size and
    the call that failed - the caller gets the error 500, nothing stays
    pending and the table holds the rows it held before the call: no row of
    the call remains committed.  (The commits inside the loop could make
    rows durable before a later failure; on the repository's table the first
    of them is already refused, the rows having no [changed_by].) *)
Theorem bulk_insert_failure (fails : nat -> bool) (frame_records : list dict -> list dict)
    (dataset : uuid) (batch_size : nat) (data : list dict) (s : Session)
    (e : exn) (s' : Session) :
  bulk_insert fails frame_records dataset batch_size data s = (Raise e, s') ->
  e = HTTPException 500 /\
  committed s' = committed s /\
  pending s' = [].
Proof.
  intros Hrun.
  pose proof (bulk_insert_outcome fails frame_records dataset batch_size data s) as H.
  rewrite Hrun in H. exact H.
Qed.

Lemma bulk_insert_failure_witness :
  exists s',
    bulk_insert (fun n => Nat.eqb n 0) (fun data => data) 100 2 Sample.five_rows
                {| committed := db_change_log Sample.db1; pending := []; calls := 0 |}
    = (Raise (HTTPException 500), s') /\
    committed s' = db_change_log Sample.db1 /\
    pending s' = [].
Proof.
  eexists. split; [reflexivity|].
  refine (proj2 (@bulk_insert_failure (fun n => Nat.eqb n 0) (fun data => data) 100 2
                   Sample.five_rows
                   {| committed := db_change_log Sample.db1; pending := []; calls := 0 |}
                   _ _ eq_refl)).
Defined.

(** C5, what the code does instead.  Whenever there is a record to insert,
    [bulk_insert] ends with the error 500 and writes nothing, whatever the
    batch size and even when no call fails for a reason of its own: the row of
    the first batch is built without [changed_by] and the commit that follows
    it is refused.  No batch is ever stored and no count is reported. *)
Theorem bulk_insert_rejects_records (fails : nat -> bool)
    (frame_records : list dict -> list dict) (dataset : uuid) (batch_size : nat)
    (data : list dict) (s : Session) :
  frame_records data <> [] ->
  fst (bulk_insert fails frame_records dataset batch_size data s)
  = Raise (HTTPException 500) /\
  committed (snd (bulk_insert fails frame_records dataset batch_size data s))
  = committed s /\
  pending (snd (bulk_insert fails frame_records dataset batch_size data s)) = [].
Proof.
  intros Hrecords.
  pose proof (bulk_insert_outcome fails frame_records dataset batch_size data s) as H.
  destruct (bulk_insert fails frame_records dataset batch_size data s) as [[r|e] s'].
  - destruct H as [Hempty _]. contradiction.
  - destruct H as [-> [Hc Hp]]. now repeat split.
Qed.

(** Five records in batches of two on a database that fails no call: not the
    three rows and the count of five the batching is written for, but the
    error 500 and an empty table. *)
Lemma bulk_insert_rejects_records_witness :
  bulk_insert (fun _ => false) (fun data => data) 100 2 Sample.five_rows
              Sample.fresh_session
  = (Raise (HTTPException 500), {| committed := []; pending := []; calls := 2 |}).
Proof.
  pose proof (@bulk_insert_rejects_records (fun _ => false) (fun data => data) 100 2
                Sample.five_rows Sample.fresh_session ltac:(discriminate)) as H.
  destruct (bulk_insert (fun _ => false) (fun data => data) 100 2 Sample.five_rows
              Sample.fresh_session) as [r s'] eqn:E.
  vm_compute in E. injection E as <- <-. reflexivity.
Defined.

(** * Further properties *)

(** ** The replay loop, entry by entry *)

Lemma for_each_length {A B : Type} (body : list B -> A -> result (list B)) (xs : list A) :
  (forall acc x acc', body acc x = Ok acc' -> List.length acc' = List.length acc) ->
  forall acc acc', for_each body xs acc = Ok acc' -> List.length acc' = List.length acc.
Proof.
  intros Hbody. induction xs as [|x xs IH]; intros acc acc' H; simpl in H.
  - now injection H as <-.
  - destruct (body acc x) as [acc1|] eqn:E; [|discriminate]. simpl in H.
    rewrite (IH _ _ H). now apply Hbody with x.
Qed.

Lemma update_first_length (record : value) (acc acc' : list value) :
  update_first record acc = Ok acc' -> List.length acc' = List.length acc.
Proof.
  revert acc'. induction acc as [|existing acc IH]; intros acc' H; simpl in H.
  - now injection H as <-.
  - destruct (py_getitem existing "id") as [lhs|]; [|discriminate]. simpl in H.
    destruct (py_getitem record "id") as [rhs|]; [|discriminate]. simpl in H.
    destruct (py_eqb lhs rhs).
    + destruct (py_update existing record); [|discriminate].
      now injection H as <-.
    + destruct (update_first record acc) as [rest|]; [|discriminate].
      injection H as <-. simpl. f_equal. now apply IH.
Qed.

Lemma comprehension_if_kept {A : Type} (keep : A -> result bool) (xs ys : list A) :
  comprehension_if keep xs = Ok ys -> kept_from ys xs.
Proof.
  revert ys. induction xs as [|x xs IH]; intros ys H; simpl in H.
  - injection H as <-. constructor.
  - destruct (keep x) as [b|]; [|discriminate]. simpl in H.
    destruct (comprehension_if keep xs) as [rest|]; [|discriminate].
    injection H as <-. destruct b; constructor; now apply IH.
Qed.

(** X1. What one replayed entry can do to the accumulator, whatever its
    payload holds: an INSERT entry only appends, an UPDATE entry keeps the
    number of records, a DELETE entry only leaves records out, keeping the
    order of the others. *)
Theorem replay_step_shape (acc : list value) (change_log : ChangeLog) (acc' : list value) :
  replay_step acc change_log = Ok acc' ->
  match operation_type change_log with
  | INSERT => exists items, acc' = acc ++ items
  | UPDATE => List.length acc' = List.length acc
  | DELETE => kept_from acc' acc
  end.
Proof.
  unfold replay_step. destruct (operation_type change_log); intros H.
  - destruct (dict_mem "initial_data" _);
      match type of H with
      | (items <- ?m ;; _) = _ => destruct m as [items|]; [|discriminate]
      end; simpl in H; injection H as <-; now exists items.
  - destruct (py_iter _) as [records|]; [|discriminate]. simpl in H.
    revert H. apply for_each_length. intros a x a'. apply update_first_length.
  - now apply comprehension_if_kept in H.
Qed.

Lemma replay_step_shape_witness :
  List.length [Sample.record 1 9; Sample.record 2 2]
  = List.length [Sample.record 1 1; Sample.record 2 2].
Proof.
  apply (@replay_step_shape [Sample.record 1 1; Sample.record 2 2]
           (Sample.entry 2 UPDATE "modified" [Sample.record 1 9])
           [Sample.record 1 9; Sample.record 2 2]).
  reflexivity.
Defined.

Lemma comprehension_if_again {A : Type} (keep : A -> result bool) (xs ys : list A) :
  comprehension_if keep xs = Ok ys -> comprehension_if keep ys = Ok ys.
Proof.
  revert ys. induction xs as [|x xs IH]; intros ys H; simpl in H.
  - now injection H as <-.
  - destruct (keep x) as [b|] eqn:E; [|discriminate]. simpl in H.
    destruct (comprehension_if keep xs) as [rest|]; [|discriminate].
    injection H as <-. specialize (IH rest eq_refl).
    destruct b; [|assumption]. simpl. now rewrite E, IH.
Qed.

(** X2. A DELETE entry replayed twice in a row does what it does once, for
    every payload and every earlier log (an exception of the first replay
    being the outcome in both cases). *)
Theorem replay_delete_twice (change_logs : list ChangeLog) (change_log : ChangeLog) :
  operation_type change_log = DELETE ->
  replay (change_logs ++ [change_log; change_log]) = replay (change_logs ++ [change_log]).
Proof.
  intros Hop.
  change [change_log; change_log] with ([change_log] ++ [change_log]).
  rewrite app_assoc, (replay_snoc (change_logs ++ [change_log])).
  destruct (replay (change_logs ++ [change_log])) as [acc'|e] eqn:E; [|reflexivity].
  simpl. rewrite replay_snoc in E.
  destruct (replay change_logs) as [acc|]; [|discriminate]. simpl in E.
  unfold replay_step in *. rewrite Hop in *.
  now apply comprehension_if_again with acc.
Qed.

Lemma replay_delete_twice_witness :
  replay [ Sample.entry 1 INSERT "initial_data" [Sample.record 1 1; Sample.record 2 2];
           Sample.entry 2 DELETE "deleted" [Sample.record 1 1];
           Sample.entry 2 DELETE "deleted" [Sample.record 1 1] ]
  = replay [ Sample.entry 1 INSERT "initial_data" [Sample.record 1 1; Sample.record 2 2];
             Sample.entry 2 DELETE "deleted" [Sample.record 1 1] ].
Proof.
  apply (@replay_delete_twice
           [Sample.entry 1 INSERT "initial_data" [Sample.record 1 1; Sample.record 2 2]]
           (Sample.entry 2 DELETE "deleted" [Sample.record 1 1])).
  reflexivity.
Defined.

(** ** Deleting everything *)

(** X3. A DELETE entry whose [deleted] list holds every record of the
    accumulator (records being well-formed JSON values) empties it: deleting
    what was materialized leaves nothing. *)
Theorem replay_delete_everything (change_logs : list ChangeLog) (acc : list value)
    (change_log : ChangeLog) (deleted : list value) :
  replay change_logs = Ok acc ->
  Forall wf_value acc ->
  operation_type change_log = DELETE ->
  dict_get "deleted" (changed_data change_log) = Some (VList deleted) ->
  incl acc deleted ->
  replay (change_logs ++ [change_log]) = Ok [].
Proof.
  intros Hacc Hwf Hop Hdel Hincl.
  rewrite replay_snoc, Hacc. simpl.
  rewrite (replay_step_delete acc change_log Hop Hdel).
  f_equal. apply filter_none. intros record Hin.
  apply negb_false_iff. apply existsb_exists. exists record.
  split; [now apply Hincl|]. apply py_eqb_refl.
  rewrite Forall_forall in Hwf. now apply Hwf.
Qed.

Lemma replay_delete_everything_witness :
  replay [ Sample.entry 1 INSERT "initial_data" [Sample.record 1 1; Sample.record 2 2];
           Sample.entry 2 DELETE "deleted" [Sample.record 2 2; Sample.record 1 1] ]
  = Ok [].
Proof.
  apply (@replay_delete_everything
           [Sample.entry 1 INSERT "initial_data" [Sample.record 1 1; Sample.record 2 2]]
           [Sample.record 1 1; Sample.record 2 2]
           (Sample.entry 2 DELETE "deleted" [Sample.record 2 2; Sample.record 1 1])
           [Sample.record 2 2; Sample.record 1 1]); try reflexivity.
  - repeat constructor; simpl; intuition discriminate.
  - intros r [<-|[<-|[]]]; simpl; auto.
Defined.

(** ** Bulk insert and the replay *)

(** An entry with none of the four keys the loop reads is skipped. *)
Lemma replay_step_unread (acc : list value) (change_log : ChangeLog) :
  dict_get "initial_data" (changed_data change_log) = None ->
  dict_get "added" (changed_data change_log) = None ->
  dict_get "modified" (changed_data change_log) = None ->
  dict_get "deleted" (changed_data change_log) = None ->
  replay_step acc change_log = Ok acc.
Proof.
  intros H1 H2 H3 H4. unfold replay_step, dict_mem, get_default.
  rewrite or_empty_id, H1, H2, H3, H4.
  destruct (operation_type change_log); simpl.
  - now rewrite app_nil_r.
  - reflexivity.
  - apply comprehension_if_all. reflexivity.
Qed.

Lemma replay_batch_rows (dataset : uuid) (batches : list (list dict))
    (stored : list ChangeLog) :
  replay (stored ++ map (batch_change_log dataset) batches) = replay stored.
Proof.
  unfold replay. rewrite for_each_app.
  destruct (for_each replay_step stored []) as [acc|e]; simpl; [|reflexivity].
  induction batches as [|batch batches IH]; [reflexivity|].
  cbn [map for_each]. rewrite replay_step_unread by reflexivity. exact IH.
Qed.

(** X4. Whatever [bulk_insert] does to a session with nothing pending -
    success or failure, any batch size, any failing call - replaying the
    committed change log afterwards gives what it gave before: a row it
    builds is refused by the table and, written or not, holds its records
    under [batch_data], which the replay loop does not read. *)
Theorem bulk_insert_never_replayed (fails : nat -> bool)
    (frame_records : list dict -> list dict) (dataset : uuid) (batch_size : nat)
    (data : list dict) (s : Session) :
  pending s = [] ->
  replay (committed (snd (bulk_insert fails frame_records dataset batch_size data s)))
  = replay (committed s).
Proof.
  intros Hpending.
  pose proof (bulk_insert_outcome fails frame_records dataset batch_size data s) as H.
  destruct (bulk_insert fails frame_records dataset batch_size data s) as [[r|e] s'].
  - destruct H as [_ [_ [_ [_ [_ ->]]]]].
    cbn [snd committed]. now rewrite Hpending, app_nil_r.
  - destruct H as [_ [Hc _]]. cbn [snd]. now rewrite Hc.
Qed.

Lemma bulk_insert_never_replayed_witness :
  replay (committed (snd (bulk_insert (fun _ => false) (fun data => data) 100 2
                            Sample.five_rows
                            {| committed := db_change_log Sample.db1; pending := [];
                               calls := 0 |})))
  = replay (db_change_log Sample.db1).
Proof.
  apply (@bulk_insert_never_replayed (fun _ => false) (fun data => data) 100 2
           Sample.five_rows
           {| committed := db_change_log Sample.db1; pending := []; calls := 0 |}).
  reflexivity.
Defined.

(** X5. Two edge inputs of [bulk_insert].  A batch size of zero makes
    [range] raise: whatever the data, the call answers 500 without touching
    the database, committing nothing and dropping what was pending.  With no
    records and a positive batch size no row is built: the call makes one
    commit and, when that succeeds (no failing call, the rows pending before
    the call being rows the table accepts), reports zero records. *)
Theorem bulk_insert_edge_inputs (fails : nat -> bool)
    (frame_records : list dict -> list dict) (dataset : uuid) (s : Session) :
  (forall data,
      bulk_insert fails frame_records dataset 0 data s
      = (Raise (HTTPException 500),
         {| committed := committed s; pending := []; calls := calls s |})) /\
  (forall batch_size,
      1 <= batch_size ->
      frame_records [] = [] ->
      fails (calls s) = false ->
      forallb row_accepted (pending s) = true ->
      bulk_insert fails frame_records dataset batch_size [] s
      = (Ok {| status := "success"; records_processed := 0 |},
         {| committed := committed s ++ pending s; pending := [];
            calls := S (calls s) |})).
Proof.
  split.
  - intros data. reflexivity.
  - intros batch_size Hb Hframe Hcommit Hrows.
    rewrite bulk_insert_empty by assumption. now rewrite Hcommit, Hrows.
Qed.

(** X6. The upload end point stores no record.  A batch size outside 1 to
    5000 (1000 when none is given) is refused with 422 before the session is
    touched.  With a batch size in that range and at least one record the
    answer is 500, whatever the database does, and the table is as before.
    Only the upload of no record succeeds, reporting zero records. *)
Theorem bulk_upload_data_outcome (fails : nat -> bool)
    (frame_records : list dict -> list dict) (dataset : uuid) (data : list dict)
    (batch_size : option nat) (s : Session) :
  List.length (frame_records data) = List.length data ->
  pending s = [] ->
  let b := match batch_size with Some b => b | None => 1000 end in
  let run := bulk_upload_data fails frame_records dataset data batch_size s in
  committed (snd run) = committed s /\
  (Nat.ltb 0 b && Nat.leb b 5000 = false -> run = (Raise (HTTPException 422), s)) /\
  (Nat.ltb 0 b && Nat.leb b 5000 = true -> data <> [] ->
   fst run = Raise (HTTPException 500)) /\
  (Nat.ltb 0 b && Nat.leb b 5000 = true -> data = [] -> fails (calls s) = false ->
   fst run = Ok {| status := "success"; records_processed := 0 |}).
Proof.
  intros Hrows Hpending b run. unfold run, bulk_upload_data. fold b.
  destruct (Nat.ltb 0 b && Nat.leb b 5000) eqn:Hbounds.
  - pose proof (bulk_insert_outcome fails frame_records dataset b data s) as H.
    destruct (bulk_insert fails frame_records dataset b data s) as [[r|e] s'] eqn:Hrun.
    + destruct H as [Hframe [_ [_ [_ [-> ->]]]]].
      cbn [fst snd committed]. rewrite Hpending, app_nil_r.
      split; [reflexivity|]. split; [discriminate|]. split; [|reflexivity].
      intros _ Hdata. exfalso. apply Hdata.
      rewrite Hframe in Hrows. destruct data; [reflexivity|discriminate].
    + destruct H as [-> [Hc _]]. cbn [fst snd].
      split; [exact Hc|]. split; [discriminate|]. split; [reflexivity|].
      intros _ Hdata Hfails. exfalso. subst data.
      apply andb_true_iff in Hbounds. destruct Hbounds as [Hlow _].
      apply Nat.ltb_lt in Hlow.
      rewrite bulk_insert_empty in Hrun;
        [|lia|destruct (frame_records []); [reflexivity|discriminate]].
      rewrite Hfails, Hpending in Hrun. discriminate.
  - split; [reflexivity|]. split; [reflexivity|]. split; discriminate.
Qed.

Lemma bulk_upload_data_outcome_witness :
  fst (bulk_upload_data (fun _ => false) (fun data => data) 100 Sample.five_rows None
         Sample.fresh_session)
  = Raise (HTTPException 500).
Proof.
  refine (proj1 (proj2 (proj2
            (@bulk_upload_data_outcome (fun _ => false) (fun data => data) 100
               Sample.five_rows None Sample.fresh_session eq_refl eq_refl))) eq_refl _).
  discriminate.
Defined.

(** ** Reading the latest version *)

Lemma NoDup_map_eq {A B : Type} (g : A -> B) (xs : list A) (a b : A) :
  NoDup (map g xs) -> In a xs -> In b xs -> g a = g b -> a = b.
Proof.
  induction xs as [|x xs IH]; intros Hnodup Ha Hb Hg; [contradiction|].
  simpl in Hnodup. inversion Hnodup as [|? ? Hnotin Hnodup']; subst.
  destruct Ha as [<-|Ha], Hb as [<-|Hb]; auto.
  - exfalso. apply Hnotin. rewrite Hg. now apply in_map.
  - exfalso. apply Hnotin. rewrite <- Hg. now apply in_map.
Qed.

Lemma find_the_one {A : Type} (f : A -> bool) (xs : list A) (a : A) :
  (forall x, In x xs -> f x = true -> x = a) ->
  In a xs -> f a = true -> find f xs = Some a.
Proof.
  induction xs as [|x xs IH]; intros Hone Hin Hf; [contradiction|]. simpl.
  destruct (f x) eqn:E.
  - f_equal. apply Hone; [now left|assumption].
  - destruct Hin as [->|Hin]; [congruence|].
    apply IH; auto. intros y Hy. apply Hone. now right.
Qed.

Lemma query_latest_version_In (db : DB) (dataset : uuid) (latest : Version) :
  query_latest_version db dataset = Some latest ->
  In latest (db_versions db) /\ v_dataset_id latest = dataset.
Proof.
  unfold query_latest_version. intros H.
  assert (Hin : In latest
                   (order_by (fun a b => (created_at b <=? created_at a)%Z)
                      (filter (fun v => N.eqb (v_dataset_id v) dataset) (db_versions db)))).
  { destruct (order_by _ _) as [|m rest]; [discriminate|].
    injection H as ->. now left. }
  apply order_by_In, filter_In in Hin. destruct Hin as [Hin Hds].
  split; [assumption|now apply N.eqb_eq].
Qed.

(** X7. When the versions of a dataset bear different numbers, reading the
    latest version and reading the version of that number give the same
    answer: same metadata, same schema, same replayed records, same error. *)
Theorem get_latest_version_by_number (db : DB) (dataset : uuid) (latest : Version) :
  NoDup (map version_number
             (filter (fun v => N.eqb (v_dataset_id v) dataset) (db_versions db))) ->
  query_latest_version db dataset = Some latest ->
  get_latest_version db dataset = get_specific_version db dataset (version_number latest).
Proof.
  intros Hnodup Hlatest.
  destruct (query_latest_version_In db dataset Hlatest) as [Hin Hds].
  assert (Hq : query_version db dataset (version_number latest) = Some latest).
  { unfold query_version. apply find_the_one; [|assumption|].
    - intros v Hv Hf. apply andb_true_iff in Hf. destruct Hf as [Hd Hn].
      apply String.eqb_eq in Hn.
      apply (NoDup_map_eq version_number _ v latest Hnodup); auto;
        apply filter_In; split; auto. now apply N.eqb_eq.
    - now rewrite String.eqb_refl, Hds, N.eqb_refl. }
  unfold get_latest_version, get_specific_version. now rewrite Hlatest, Hq.
Qed.

Lemma get_latest_version_by_number_witness :
  get_latest_version Sample.db2 100 = get_specific_version Sample.db2 100 "1.1".
Proof.
  apply (@get_latest_version_by_number Sample.db2 100 Sample.version2).
  - vm_compute. repeat constructor; simpl; intuition discriminate.
  - vm_compute. reflexivity.
Defined.

(** The records replayed up to a time no earlier than the latest version are
    those replayed up to the latest version. *)
Lemma replay_upto_latest (db : DB) (dataset : uuid) (latest : Version) (upto : datetime) :
  query_latest_version db dataset = Some latest ->
  (created_at latest <= upto)%Z ->
  query_change_logs db dataset upto = query_change_logs db dataset (created_at latest).
Proof.
  intros Hlatest Hupto. unfold query_change_logs. do 2 f_equal.
  apply filter_ext_in. intros row Hrow. apply join_change_log_snd in Hrow.
  destruct (N.eqb_spec (v_dataset_id (snd row)) dataset) as [E|E]; [|reflexivity].
  simpl.
  pose proof (@query_latest_version_max db dataset latest Hlatest (snd row) Hrow E) as Hmax.
  assert (Hle : (created_at (snd row) <= upto)%Z) by lia.
  apply Z.leb_le in Hle, Hmax. now rewrite Hle, Hmax.
Qed.

(** X8. After [create_new_version], with a fresh identifier and a clock past
    every stored version, the latest version is the new one, with the next
    number, and its replayed records are those the latest version had before:
    the data sent with the request shows in no reading of the latest
    version. *)
Theorem get_latest_version_after_create (db : DB) (dataset : uuid)
    (version : VersionCreate) (current_user new_version_id : uuid) (now : datetime)
    (db' : DB) (new_version : Version) :
  create_new_version db dataset version current_user new_version_id now
  = Ok (db', new_version) ->
  (forall v, In v (db_versions db) ->
             version_id v <> new_version_id /\ (created_at v < now)%Z) ->
  (forall cl, In cl (db_change_log db) -> cl_version_id cl <> new_version_id) ->
  match get_latest_version db dataset, get_latest_version db' dataset with
  | Ok before, Ok after =>
      complete_data after = complete_data before /\
      vi_version_id after = new_version_id /\
      next_version_number (vi_version_number before) = Ok (vi_version_number after)
  | Raise e, Raise e' => e = e'
  | _, _ => False
  end.
Proof.
  intros Hcreated Hfresh Hfresh_cl.
  assert (Hfresh' : forall v, In v (db_versions db) ->
                              version_id v <> new_version_id /\ (created_at v <= now)%Z).
  { intros v Hv. destruct (Hfresh v Hv). split; [assumption|lia]. }
  destruct (@created_inv _ _ _ _ _ _ _ _ Hcreated) as
    [latest [Hlatest [Hnext [Hid [Hds [Hnow [Hversions _]]]]]]].
  assert (Hlatest' : query_latest_version db' dataset = Some new_version).
  { apply (@query_latest_version_new db); auto.
    intros v Hv _. rewrite Hnow. now apply Hfresh. }
  unfold get_latest_version. rewrite Hlatest, Hlatest'.
  rewrite (@replay_query_new _ _ _ _ _ _ _ _ Hcreated Hfresh' Hfresh_cl).
  rewrite Hnow.
  destruct (query_latest_version_In db dataset Hlatest) as [Hin _].
  rewrite (@replay_upto_latest db dataset latest now Hlatest)
    by (destruct (Hfresh latest Hin); lia).
  destruct (replay (query_change_logs db dataset (created_at latest))); simpl; auto.
Qed.

Lemma get_latest_version_after_create_witness :
  match get_latest_version Sample.db1 100, get_latest_version Sample.db2 100 with
  | Ok before, Ok after =>
      complete_data after = complete_data before /\
      vi_version_id after = 2%N /\
      next_version_number (vi_version_number before) = Ok (vi_version_number after)
  | Raise e, Raise e' => e = e'
  | _, _ => False
  end.
Proof.
  apply (@get_latest_version_after_create Sample.db1 100
           (Sample.request UPDATE [Sample.row 1 9]) 7 2 2000 Sample.db2 Sample.version2).
  - vm_compute. reflexivity.
  - intros v [<-|[]]. split; [discriminate|]. vm_compute. reflexivity.
  - intros cl [<-|[]]. discriminate.
Defined.

(** ** Listing versions page by page *)

Section OrderBySorted.
Variable A : Type.
Variable le : A -> A -> bool.
Hypothesis le_total : forall a b, le a b = false -> le b a = true.
Hypothesis le_trans : forall a b c, le a b = true -> le b c = true -> le a c = true.

Lemma insert_by_sorted (x : A) (rows : list A) :
  StronglySorted (fun a b => le a b = true) rows ->
  StronglySorted (fun a b => le a b = true) (insert_by le x rows).
Proof.
  induction rows as [|y rows IH]; intros Hs; simpl.
  - repeat constructor.
  - inversion Hs as [|? ? Hrest Hall]; subst.
    destruct (le x y) eqn:E.
    + constructor; [assumption|]. constructor; [assumption|].
      rewrite Forall_forall in *. intros z Hz. apply le_trans with y; auto.
    + constructor; [now apply IH|].
      rewrite Forall_forall in *. intros z Hz. apply insert_by_In in Hz.
      destruct Hz as [->|Hz]; [now apply le_total|auto].
Qed.

Lemma order_by_sorted (rows : list A) :
  StronglySorted (fun a b => le a b = true) (order_by le rows).
Proof.
  unfold order_by. induction rows as [|x rows IH]; simpl; [constructor|].
  now apply insert_by_sorted.
Qed.

Lemma insert_by_perm (x : A) (rows : list A) : Permutation (insert_by le x rows) (x :: rows).
Proof.
  induction rows as [|y rows IH]; simpl; [reflexivity|].
  destruct (le x y); [reflexivity|].
  rewrite IH. apply perm_swap.
Qed.

Lemma order_by_perm (rows : list A) : Permutation (order_by le rows) rows.
Proof.
  unfold order_by. induction rows as [|x rows IH]; simpl; [reflexivity|].
  rewrite insert_by_perm. now constructor.
Qed.

End OrderBySorted.

Lemma StronglySorted_skipn {A : Type} (R : A -> A -> Prop) (n : nat) (xs : list A) :
  StronglySorted R xs -> StronglySorted R (skipn n xs).
Proof.
  revert xs. induction n as [|n IH]; intros xs H; [assumption|].
  destruct xs as [|x xs]; [constructor|]. simpl. apply IH. now inversion H.
Qed.

Lemma In_firstn {A : Type} (n : nat) (xs : list A) (y : A) :
  In y (firstn n xs) -> In y xs.
Proof.
  revert xs. induction n as [|n IH]; intros xs H; [contradiction|].
  destruct xs as [|x xs]; [contradiction|]. destruct H as [->|H]; [now left|].
  right. now apply IH.
Qed.

Lemma StronglySorted_firstn {A : Type} (R : A -> A -> Prop) (n : nat) (xs : list A) :
  StronglySorted R xs -> StronglySorted R (firstn n xs).
Proof.
  revert xs. induction n as [|n IH]; intros xs H; [constructor|].
  destruct xs as [|x xs]; [constructor|]. simpl.
  inversion H as [|? ? Hrest Hall]; subst. constructor; [now apply IH|].
  rewrite Forall_forall in *. intros y Hy. apply Hall.
  now apply (In_firstn n xs).
Qed.

Lemma StronglySorted_map {A B : Type} (R : B -> B -> Prop) (f : A -> B) (xs : list A) :
  StronglySorted (fun a b => R (f a) (f b)) xs -> StronglySorted R (map f xs).
Proof.
  induction 1 as [|x xs Hrest IH Hall]; simpl; constructor; [assumption|].
  rewrite Forall_forall in *. intros y Hy. apply in_map_iff in Hy.
  destruct Hy as [z [<- Hz]]. now apply Hall.
Qed.

Lemma StronglySorted_weaken {A : Type} (R R' : A -> A -> Prop) (xs : list A) :
  (forall a b, R a b -> R' a b) -> StronglySorted R xs -> StronglySorted R' xs.
Proof.
  intros H. induction 1 as [|x xs Hrest IH Hall]; constructor; [assumption|].
  rewrite Forall_forall in *. intros y Hy. now apply H, Hall.
Qed.

Lemma firstn_pages {A : Type} (a b : nat) (xs : list A) :
  firstn a xs ++ firstn b (skipn a xs) = firstn (a + b) xs.
Proof.
  revert xs. induction a as [|a IH]; intros xs; [reflexivity|].
  destruct xs as [|x xs]; simpl; [now rewrite firstn_nil|]. now rewrite IH.
Qed.

(** Rows of pairwise different [created_at] have one descending order:
    whatever the order they are read in, [ORDER BY] answers the same. *)
Lemma sorted_rows_unique {A : Type} (created : A -> Z) (xs ys : list A) :
  StronglySorted (fun a b => (created b <= created a)%Z) xs ->
  StronglySorted (fun a b => (created b <= created a)%Z) ys ->
  NoDup (map created xs) ->
  Permutation xs ys ->
  xs = ys.
Proof.
  revert ys. induction xs as [|x xs IH]; intros ys Hxs Hys Hnodup Hperm.
  - apply Permutation_nil in Hperm. now subst.
  - destruct ys as [|y ys];
      [apply Permutation_sym, Permutation_nil in Hperm; discriminate|].
    inversion Hxs as [|? ? Hxs' Hallx]; subst.
    inversion Hys as [|? ? Hys' Hally]; subst.
    assert (Hxy : x = y).
    { assert (Hx : In x (y :: ys)) by (apply (Permutation_in _ Hperm); now left).
      assert (Hy : In y (x :: xs))
        by (apply (Permutation_in _ (Permutation_sym Hperm)); now left).
      destruct Hx as [Hx|Hx]; [now symmetry|].
      destruct Hy as [Hy|Hy]; [assumption|].
      rewrite Forall_forall in Hallx, Hally.
      pose proof (Hallx y Hy). pose proof (Hally x Hx).
      apply (NoDup_map_eq created (x :: xs)); [assumption|now left|now right|lia]. }
    subst y. f_equal. apply IH; auto.
    + simpl in Hnodup. now inversion Hnodup.
    + now apply Permutation_cons_inv in Hperm.
Qed.

Lemma order_by_created_sorted {A : Type} (created : A -> Z) (rows : list A) :
  StronglySorted (fun a b => (created b <= created a)%Z)
                 (order_by (fun a b => (created b <=? created a)%Z) rows).
Proof.
  apply StronglySorted_weaken with (R := fun a b => (created b <=? created a)%Z = true).
  - intros x y E. now apply Z.leb_le.
  - apply order_by_sorted.
    + intros x y E. apply Z.leb_le. apply Z.leb_gt in E. lia.
    + intros x y z E1 E2. apply Z.leb_le. apply Z.leb_le in E1, E2. lia.
Qed.

Lemma order_by_scan {A : Type} (created : A -> Z) (scan : list A -> list A)
    (rows : list A) :
  Permutation (scan rows) rows ->
  NoDup (map created rows) ->
  order_by (fun a b => (created b <=? created a)%Z) (scan rows)
  = order_by (fun a b => (created b <=? created a)%Z) rows.
Proof.
  intros Hscan Hnodup. apply (sorted_rows_unique created).
  - apply order_by_created_sorted.
  - apply order_by_created_sorted.
  - apply (Permutation_NoDup (l := map created rows)); [|assumption].
    apply Permutation_map. symmetry.
    rewrite (order_by_perm _ (scan rows)). exact Hscan.
  - rewrite !order_by_perm. exact Hscan.
Qed.

(** When [list_versions] answers, and what it lists. *)
Lemma list_versions_answer (scan : list Version -> list Version) (db : DB)
    (dataset : uuid) (skip limit : Z) :
  list_versions scan db dataset skip limit
  = if (skip <? 0)%Z || (limit <? 0)%Z || (max_bigint <? skip)%Z || (max_bigint <? limit)%Z
    then Raise DatabaseError
    else
      Ok {| versions :=
              map (version_list_info db)
                  (firstn (Z.to_nat limit)
                     (skipn (Z.to_nat skip)
                        (order_by (fun a b => (created_at b <=? created_at a)%Z)
                           (scan (filter (fun v => N.eqb (v_dataset_id v) dataset)
                                         (db_versions db))))));
            total_count :=
              List.length (filter (fun v => N.eqb (v_dataset_id v) dataset)
                                  (db_versions db)) |}.
Proof.
  unfold list_versions, query_version_page.
  now destruct ((skip <? 0)%Z || (limit <? 0)%Z || (max_bigint <? skip)%Z
                || (max_bigint <? limit)%Z).
Qed.

Lemma page_bounds (skip limit : Z) :
  (0 <= skip <= max_bigint)%Z -> (0 <= limit <= max_bigint)%Z ->
  (skip <? 0)%Z || (limit <? 0)%Z || (max_bigint <? skip)%Z || (max_bigint <? limit)%Z
  = false.
Proof.
  intros Hskip Hlimit.
  destruct (Z.ltb_spec skip 0), (Z.ltb_spec limit 0), (Z.ltb_spec max_bigint skip),
    (Z.ltb_spec max_bigint limit); try lia; reflexivity.
Qed.

(** X9. Pages of the version list fit together, whatever order the database
    reads the rows in for each of the three queries, when no two versions of
    the dataset have the same creation time: the page of [a] versions after
    [skip] followed by the page of [b] versions after [skip + a] is the page
    of [a + b] versions after [skip].  A page holds [limit] versions, or what
    is left of the dataset's versions after [skip] when that is less, and the
    total count is the number of the dataset's versions whatever the page.
    ([skip], [a] and [b] are not negative and stay within [bigint].) *)
Theorem list_versions_pages (scan1 scan2 scan3 : list Version -> list Version)
    (db : DB) (dataset : uuid) (skip a b : Z) :
  (forall rows, Permutation (scan1 rows) rows) ->
  (forall rows, Permutation (scan2 rows) rows) ->
  (forall rows, Permutation (scan3 rows) rows) ->
  NoDup (map created_at
             (filter (fun v => N.eqb (v_dataset_id v) dataset) (db_versions db))) ->
  (0 <= skip)%Z -> (0 <= a)%Z -> (0 <= b)%Z -> (skip + a + b <= max_bigint)%Z ->
  exists first second both,
    list_versions scan1 db dataset skip a = Ok first /\
    list_versions scan2 db dataset (skip + a) b = Ok second /\
    list_versions scan3 db dataset skip (a + b) = Ok both /\
    versions first ++ versions second = versions both /\
    Z.of_nat (List.length (versions first))
    = Z.min a (Z.max 0 (Z.of_nat (total_count first) - skip)) /\
    total_count first
    = List.length (filter (fun v => N.eqb (v_dataset_id v) dataset) (db_versions db)).
Proof.
  intros Hscan1 Hscan2 Hscan3 Hnodup Hskip Ha Hb Hmax.
  rewrite !list_versions_answer, !page_bounds by lia.
  rewrite (order_by_scan created_at scan1), (order_by_scan created_at scan2),
    (order_by_scan created_at scan3) by auto.
  do 3 eexists. split; [reflexivity|]. split; [reflexivity|]. split; [reflexivity|].
  cbn [versions total_count]. split; [|split; [|reflexivity]].
  - rewrite <- map_app. f_equal.
    rewrite !Z2Nat.inj_add by lia.
    rewrite (Nat.add_comm (Z.to_nat skip)), <- skipn_skipn. apply firstn_pages.
  - rewrite length_map, length_firstn, length_skipn.
    rewrite (Permutation_length (order_by_perm _ _)). lia.
Qed.

Lemma list_versions_pages_witness :
  exists first second both,
    list_versions (@rev Version) Sample.db2 100 0 1 = Ok first /\
    list_versions (fun rows => rows) Sample.db2 100 1 1 = Ok second /\
    list_versions (@rev Version) Sample.db2 100 0 2 = Ok both /\
    versions first ++ versions second = versions both /\
    List.length (versions both) = 2.
Proof.
  destruct (@list_versions_pages (@rev Version) (fun rows => rows) (@rev Version)
              Sample.db2 100 0 1 1) as
    [first [second [both [H1 [H2 [H3 [Hpages _]]]]]]].
  - intros rows. symmetry. apply Permutation_rev.
  - reflexivity.
  - intros rows. symmetry. apply Permutation_rev.
  - vm_compute. repeat constructor; simpl; intuition discriminate.
  - lia.
  - lia.
  - lia.
  - vm_compute. discriminate.
  - exists first, second, both. repeat split; try assumption.
    vm_compute in H3. injection H3 as <-. reflexivity.
Defined.

(** X10. For a [skip] and a [limit] that are not negative and within
    [bigint], [list_versions] answers with a page that runs from the newest
    version to the oldest, whatever order the rows are read in; a page from
    the start that is as long as the total count holds every version of the
    dataset; and when no two versions of the dataset have the same creation
    time, the first version of a page from the start is the one
    [create_new_version] and the latest-version read take as the latest. *)
Theorem list_versions_newest_first (scan : list Version -> list Version) (db : DB)
    (dataset : uuid) (skip limit : Z) :
  (forall rows, Permutation (scan rows) rows) ->
  (0 <= skip <= max_bigint)%Z ->
  (0 <= limit <= max_bigint)%Z ->
  exists page,
    list_versions scan db dataset skip limit = Ok page /\
    StronglySorted (fun a b => (vl_created_at b <= vl_created_at a)%Z) (versions page) /\
    (skip = 0%Z -> (Z.of_nat (total_count page) <= limit)%Z ->
     forall v, In v (db_versions db) -> v_dataset_id v = dataset ->
               In (version_list_info db v) (versions page)) /\
    (NoDup (map created_at
                (filter (fun v => N.eqb (v_dataset_id v) dataset) (db_versions db))) ->
     skip = 0%Z -> (0 < limit)%Z ->
     hd_error (versions page)
     = option_map (version_list_info db) (query_latest_version db dataset)).
Proof.
  intros Hscan Hskip Hlimit. rewrite list_versions_answer, page_bounds by assumption.
  eexists. split; [reflexivity|]. cbn [versions total_count]. split; [|split].
  - apply StronglySorted_map. simpl.
    apply StronglySorted_firstn, StronglySorted_skipn.
    apply (order_by_created_sorted created_at).
  - intros -> Hall v Hin Hds. apply in_map. cbn [Z.to_nat skipn].
    rewrite firstn_all2.
    + apply order_by_In. apply (Permutation_in _ (Permutation_sym (Hscan _))).
      apply filter_In. split; [assumption|]. now apply N.eqb_eq.
    + rewrite (Permutation_length (order_by_perm _ _)).
      rewrite (Permutation_length (Hscan _)). lia.
  - intros Hnodup -> Hpos. rewrite (order_by_scan created_at scan) by auto.
    unfold query_latest_version. cbn [Z.to_nat skipn].
    destruct (Z.to_nat limit) as [|n] eqn:E; [lia|].
    destruct (order_by _ _) as [|m rest]; reflexivity.
Qed.

Lemma list_versions_newest_first_witness :
  exists page,
    list_versions (@rev Version) Sample.db2 100 0 1 = Ok page /\
    option_map vl_version_number (hd_error (versions page)) = Some "1.1".
Proof.
  destruct (@list_versions_newest_first (@rev Version) Sample.db2 100 0 1
              (fun rows => Permutation_sym (Permutation_rev rows))
              ltac:(vm_compute; split; discriminate)
              ltac:(vm_compute; split; discriminate))
    as [page [Hpage [_ [_ Hhead]]]].
  exists page. split; [exact Hpage|].
  rewrite Hhead; [reflexivity| |reflexivity|lia].
  vm_compute. repeat constructor; simpl; intuition discriminate.
Defined.

(** ** The data validator of a new dataset *)

Lemma validate_rows_loop (columns : list SchemaDefinition) (v : list dict) :
  validate_data_against_schema (Some columns) v
  = if forallb (row_fits (map sd_column_name columns)) v then Ok v else Raise ValueError.
Proof.
  unfold validate_data_against_schema.
  generalize v at 2 4 as checked. intros checked.
  induction v as [|row rows IH]; simpl; [reflexivity|].
  fold (row_fits (map sd_column_name columns) row).
  destruct (row_fits (map sd_column_name columns) row); simpl; [exact IH|reflexivity].
Qed.

Lemma existsb_eqb_In (k : string) (names : list string) :
  existsb (String.eqb k) names = true <-> In k names.
Proof.
  rewrite existsb_exists. split.
  - intros [x [Hx E]]. apply String.eqb_eq in E. now subst.
  - intros H. exists k. split; [assumption|apply String.eqb_refl].
Qed.

Lemma validate_accepts_iff (columns : list SchemaDefinition) (v : list dict) :
  validate_data_against_schema (Some columns) v = Ok v <->
  forall row key, In row v -> In key (keys row) -> In key (map sd_column_name columns).
Proof.
  rewrite validate_rows_loop.
  set (fits := row_fits (map sd_column_name columns)).
  destruct (forallb fits v) eqn:E.
  - split; [|reflexivity]. intros _ row key Hrow Hkey.
    rewrite forallb_forall in E. specialize (E row Hrow). unfold fits, row_fits in E.
    rewrite forallb_forall in E. now apply existsb_eqb_In, E.
  - split; [discriminate|]. intros H. exfalso.
    assert (forallb fits v = true); [|congruence].
    apply forallb_forall. intros row Hrow. apply forallb_forall. intros key Hkey.
    apply existsb_eqb_In. now apply (H row).
Qed.

(** X11. The validator accepts the data, returning it unchanged, exactly
    when every key of every row is the name of a schema column; it raises
    [ValueError] otherwise and accepts everything when the schema itself did
    not validate.  A row need not have every column: rows with fewer keys,
    and rows with none, pass. *)
Theorem validate_data_against_schema_accepts (columns : list SchemaDefinition)
    (v : list dict) :
  (validate_data_against_schema (Some columns) v = Ok v <->
   forall row key, In row v -> In key (keys row) ->
                   In key (map sd_column_name columns)) /\
  (validate_data_against_schema (Some columns) v = Ok v \/
   validate_data_against_schema (Some columns) v = Raise ValueError) /\
  validate_data_against_schema None v = Ok v /\
  validate_data_against_schema (Some columns) (map (fun _ => []) v)
  = Ok (map (fun _ => []) v).
Proof.
  split; [apply validate_accepts_iff|]. rewrite !validate_rows_loop.
  set (fits := row_fits (map sd_column_name columns)).
  split; [|split].
  - destruct (forallb fits v); auto.
  - reflexivity.
  - replace (forallb fits (map (fun _ => []) v)) with true; [reflexivity|].
    symmetry. apply forallb_forall. intros row Hrow. apply in_map_iff in Hrow.
    destruct Hrow as [x [<- _]]. reflexivity.
Qed.

(** ** Creating a dataset *)

Lemma join_change_log_append (db db' : DB) (new_version : Version) (entry : ChangeLog) :
  db_versions db' = db_versions db ++ [new_version] ->
  db_change_log db' = db_change_log db ++ [entry] ->
  cl_version_id entry = version_id new_version ->
  (forall v, In v (db_versions db) -> version_id v <> version_id new_version) ->
  (forall cl, In cl (db_change_log db) -> cl_version_id cl <> version_id new_version) ->
  join_change_log db' = join_change_log db ++ [(entry, new_version)].
Proof.
  intros Hv Hcl Hid Hfresh Hfresh_cl.
  unfold join_change_log. rewrite Hv, Hcl, flat_map_app. simpl. rewrite app_nil_r.
  f_equal.
  - apply flat_map_agree. intros cl Hin. rewrite filter_app. simpl.
    destruct (N.eqb_spec (version_id new_version) (cl_version_id cl)) as [E|_].
    + exfalso. now apply (Hfresh_cl cl Hin).
    + now rewrite app_nil_r.
  - rewrite filter_app. simpl. rewrite Hid, N.eqb_refl.
    rewrite filter_none; [reflexivity|].
    intros v Hin. apply N.eqb_neq. now apply Hfresh.
Qed.

Section NewDataset.
Variables (db : DB) (dataset : DatasetCreate).
Variables (current_user new_dataset_id new_version_id : uuid) (now : datetime).

(** No stored version belongs to the new dataset or bears the new version
    identifier, and no stored row refers to that identifier. *)
Hypothesis fresh_version :
  forall v, In v (db_versions db) ->
            v_dataset_id v <> new_dataset_id /\ version_id v <> new_version_id.
Hypothesis fresh_change_log :
  forall cl, In cl (db_change_log db) -> cl_version_id cl <> new_version_id.
Hypothesis fresh_schema :
  forall sv, In sv (db_schema_versions db) -> sv_version_id sv <> new_version_id.

Let db' : DB :=
  fst (create_dataset db dataset current_user new_dataset_id new_version_id now).

Let initial_version : Version :=
  {| version_id := new_version_id; v_dataset_id := new_dataset_id;
     version_number := "1.0"; created_at := now; created_by := current_user;
     change_type := Some INSERT; comment := None |}.

Let initial_entry : ChangeLog :=
  {| cl_version_id := new_version_id; changed_by := Some current_user;
     operation_type := INSERT;
     changed_data := [("initial_data", VList (map VDict (dc_data dataset)))] |}.

Lemma create_dataset_join :
  join_change_log db' = join_change_log db ++ [(initial_entry, initial_version)].
Proof.
  apply join_change_log_append; try reflexivity.
  - intros v Hv. now apply fresh_version.
  - exact fresh_change_log.
Qed.

Lemma create_dataset_change_logs_new (upto : datetime) :
  (now <= upto)%Z ->
  query_change_logs db' new_dataset_id upto = [initial_entry].
Proof.
  intros Hupto. unfold query_change_logs. rewrite create_dataset_join, filter_app.
  rewrite filter_none.
  - simpl. rewrite N.eqb_refl. apply Z.leb_le in Hupto. now rewrite Hupto.
  - intros row Hrow. apply join_change_log_snd in Hrow.
    destruct (fresh_version _ Hrow) as [Hds _].
    apply N.eqb_neq in Hds. now rewrite Hds.
Qed.

Lemma create_dataset_change_logs_other (ds : uuid) (upto : datetime) :
  ds <> new_dataset_id ->
  query_change_logs db' ds upto = query_change_logs db ds upto.
Proof.
  intros Hds. unfold query_change_logs. rewrite create_dataset_join, filter_app.
  simpl. apply not_eq_sym in Hds. apply N.eqb_neq in Hds. rewrite Hds. simpl.
  now rewrite app_nil_r.
Qed.

Lemma create_dataset_schema_new :
  query_schema db' new_version_id
  = map (schema_row new_version_id) (dc_schema_definition dataset).
Proof.
  unfold query_schema. simpl. rewrite filter_app.
  rewrite filter_none by (intros sv Hsv; apply N.eqb_neq; now apply fresh_schema).
  apply filter_all. intros sv Hsv. apply in_map_iff in Hsv.
  destruct Hsv as [c [<- _]]. apply N.eqb_refl.
Qed.

Lemma create_dataset_schema_other (v : Version) :
  In v (db_versions db) -> query_schema db' (version_id v) = query_schema db (version_id v).
Proof.
  intros Hv. unfold query_schema at 1. simpl. rewrite filter_app.
  rewrite (@filter_none _ _ (map _ _)); [now rewrite app_nil_r|].
  intros sv Hsv. apply in_map_iff in Hsv. destruct Hsv as [c [<- _]]. simpl.
  apply N.eqb_neq. intros E. destruct (fresh_version v Hv) as [_ Hne]. congruence.
Qed.

End NewDataset.

(** X12. A dataset just created reads back: with fresh identifiers, version
    ["1.0"] of the new dataset - read by number or as the latest - has the
    columns given as its schema and exactly the records given as its data, in
    their order.  When the validator accepted the data, every field of every
    record read back is a column of the schema read back. *)
Theorem create_dataset_reads_back (db : DB) (dataset : DatasetCreate)
    (current_user new_dataset_id new_version_id : uuid) (now : datetime) :
  (forall v, In v (db_versions db) ->
             v_dataset_id v <> new_dataset_id /\ version_id v <> new_version_id) ->
  (forall cl, In cl (db_change_log db) -> cl_version_id cl <> new_version_id) ->
  (forall sv, In sv (db_schema_versions db) -> sv_version_id sv <> new_version_id) ->
  let db' := fst (create_dataset db dataset current_user new_dataset_id new_version_id now) in
  let info :=
    {| vi_version_id := new_version_id;
       vi_version_number := "1.0";
       vi_created_at := now;
       vi_created_by := current_user;
       vi_change_type := Some INSERT;
       vi_comment := None;
       vi_schema_definition :=
         map (schema_row new_version_id) (dc_schema_definition dataset);
       complete_data := map VDict (dc_data dataset) |} in
  get_specific_version db' new_dataset_id "1.0" = Ok info /\
  get_latest_version db' new_dataset_id = Ok info /\
  (validate_data_against_schema (Some (dc_schema_definition dataset)) (dc_data dataset)
   = Ok (dc_data dataset) ->
   forall record, In record (complete_data info) ->
                  exists fields,
                    record = VDict fields /\
                    forall key, In key (keys fields) ->
                                In key (map column_name (vi_schema_definition info))).
Proof.
  intros Hv Hcl Hsv db' info.
  assert (Hq : query_version db' new_dataset_id "1.0"
               = Some {| version_id := new_version_id; v_dataset_id := new_dataset_id;
                         version_number := "1.0"; created_at := now;
                         created_by := current_user; change_type := Some INSERT;
                         comment := None |}).
  { unfold query_version. simpl. rewrite find_app.
    replace (find _ (db_versions db)) with (@None Version).
    - simpl. now rewrite N.eqb_refl.
    - symmetry. destruct (find _ (db_versions db)) as [v|] eqn:E; [|reflexivity].
      apply find_some in E. destruct E as [Hin Hf].
      apply andb_true_iff in Hf. destruct Hf as [Hd _]. apply N.eqb_eq in Hd.
      destruct (Hv v Hin). contradiction. }
  assert (Hl : query_latest_version db' new_dataset_id
               = Some {| version_id := new_version_id; v_dataset_id := new_dataset_id;
                         version_number := "1.0"; created_at := now;
                         created_by := current_user; change_type := Some INSERT;
                         comment := None |}).
  { apply (@query_latest_version_new db); simpl; [reflexivity|reflexivity|].
    intros v Hin Hds. now destruct (Hv v Hin). }
  unfold get_specific_version, get_latest_version. rewrite Hq, Hl. simpl.
  unfold db'.
  rewrite (@create_dataset_change_logs_new db dataset current_user new_dataset_id
             new_version_id now Hv Hcl now (Z.le_refl _)).
  rewrite (@create_dataset_schema_new db dataset current_user new_dataset_id
             new_version_id now Hsv).
  split; [reflexivity|]. split; [reflexivity|].
  intros Hvalid record Hrecord. simpl in Hrecord. apply in_map_iff in Hrecord.
  destruct Hrecord as [fields [<- Hfields]]. exists fields. split; [reflexivity|].
  intros key Hkey. simpl. rewrite map_map. simpl.
  apply (proj1 (validate_accepts_iff _ _) Hvalid fields key Hfields Hkey).
Qed.

Lemma create_dataset_reads_back_witness :
  get_specific_version Sample.db1 100 "1.0"
  = Ok {| vi_version_id := 1; vi_version_number := "1.0"; vi_created_at := 1000;
          vi_created_by := 7; vi_change_type := Some INSERT; vi_comment := None;
          vi_schema_definition := map (schema_row 1) Sample.columns;
          complete_data := [Sample.record 1 1; Sample.record 2 2] |}.
Proof.
  refine (proj1 (@create_dataset_reads_back Sample.empty_db
                   {| dc_dataset_name := "sales"; dc_schema_definition := Sample.columns;
                      dc_data := [Sample.row 1 1; Sample.row 2 2] |}
                   7 100 1 1000 _ _ _));
    intros x [].
Defined.

(** X13. Creating a dataset leaves every other dataset as it reads: with
    fresh identifiers, each version of another dataset, by number or as the
    latest, gives the answer it gave before. *)
Theorem create_dataset_keeps_others (db : DB) (dataset : DatasetCreate)
    (current_user new_dataset_id new_version_id : uuid) (now : datetime)
    (other : uuid) (number : string) :
  (forall v, In v (db_versions db) ->
             v_dataset_id v <> new_dataset_id /\ version_id v <> new_version_id) ->
  (forall cl, In cl (db_change_log db) -> cl_version_id cl <> new_version_id) ->
  other <> new_dataset_id ->
  let db' := fst (create_dataset db dataset current_user new_dataset_id new_version_id now) in
  get_specific_version db' other number = get_specific_version db other number /\
  get_latest_version db' other = get_latest_version db other.
Proof.
  intros Hv Hcl Hother db'.
  assert (Hne : N.eqb new_dataset_id other = false)
    by (apply N.eqb_neq; congruence).
  assert (Hq : query_version db' other number = query_version db other number).
  { unfold query_version. simpl. rewrite find_app. simpl. rewrite Hne. simpl.
    now destruct (find _ (db_versions db)). }
  assert (Hl : query_latest_version db' other = query_latest_version db other).
  { unfold query_latest_version. simpl. rewrite filter_app. simpl. rewrite Hne.
    now rewrite app_nil_r. }
  unfold get_specific_version, get_latest_version. rewrite Hq, Hl. unfold db'. split.
  - destruct (query_version db other number) as [v|] eqn:E; [|reflexivity].
    apply find_some in E. destruct E as [Hin _].
    rewrite (@create_dataset_schema_other db dataset current_user new_dataset_id
               new_version_id now Hv v Hin).
    now rewrite (@create_dataset_change_logs_other db dataset current_user
                   new_dataset_id new_version_id now Hv Hcl other _ Hother).
  - destruct (query_latest_version db other) as [v|] eqn:E; [|reflexivity].
    apply query_latest_version_In in E. destruct E as [Hin _].
    rewrite (@create_dataset_schema_other db dataset current_user new_dataset_id
               new_version_id now Hv v Hin).
    now rewrite (@create_dataset_change_logs_other db dataset current_user
                   new_dataset_id new_version_id now Hv Hcl other _ Hother).
Qed.

Lemma create_dataset_keeps_others_witness :
  get_specific_version
    (fst (create_dataset Sample.db1
            {| dc_dataset_name := "stock"; dc_schema_definition := Sample.columns;
               dc_data := [Sample.row 8 8] |} 7 200 5 3000))
    100 "1.0"
  = get_specific_version Sample.db1 100 "1.0".
Proof.
  refine (proj1 (@create_dataset_keeps_others Sample.db1
                   {| dc_dataset_name := "stock"; dc_schema_definition := Sample.columns;
                      dc_data := [Sample.row 8 8] |}
                   7 200 5 3000 100 "1.0" _ _ _)).
  - intros v [<-|[]]. split; discriminate.
  - intros cl [<-|[]]. discriminate.
  - discriminate.
Defined.

(** ** The schema snapshot of a new version *)

Lemma schema_definition_of_row (version : uuid) (columns : list SchemaDefinition) :
  map schema_definition_of (map (schema_row version) columns) = columns.
Proof.
  induction columns as [|[name type nullable text] columns IH]; simpl; [reflexivity|].
  now rewrite IH.
Qed.

(** X14. Every version made by [create_new_version] has a schema snapshot of
    its own (the identifier being fresh among the schema rows): the columns
    sent with the request when it sends some, and otherwise - no list or an
    empty one - a copy of the columns of the version that was the latest.
    The request adds one version row and one change-log row and changes no
    stored row. *)
Theorem create_new_version_schema_snapshot (db : DB) (dataset : uuid)
    (version : VersionCreate) (current_user new_version_id : uuid) (now : datetime)
    (db' : DB) (new_version : Version) :
  create_new_version db dataset version current_user new_version_id now
  = Ok (db', new_version) ->
  (forall sv, In sv (db_schema_versions db) -> sv_version_id sv <> new_version_id) ->
  exists latest,
    query_latest_version db dataset = Some latest /\
    map schema_definition_of (query_schema db' new_version_id)
    = match vc_schema_changes version with
      | Some (column :: columns) => column :: columns
      | _ => map schema_definition_of (query_schema db (version_id latest))
      end /\
    db_datasets db' = db_datasets db /\
    db_versions db' = db_versions db ++ [new_version] /\
    db_change_log db'
    = db_change_log db ++ [version_change_log new_version_id current_user version] /\
    exists rows, db_schema_versions db' = db_schema_versions db ++ rows.
Proof.
  intros Hcreated Hfresh.
  destruct (@created_inv _ _ _ _ _ _ _ _ Hcreated) as
    [latest [Hlatest [_ [_ [_ [_ [Hversions [Hlog Hschema]]]]]]]].
  exists latest. split; [assumption|]. split; [|split; [|split; [|split]]].
  - unfold query_schema. rewrite Hschema, filter_app.
    rewrite filter_none by (intros sv Hsv; apply N.eqb_neq; now apply Hfresh).
    rewrite filter_all.
    + unfold new_schema_rows.
      destruct (vc_schema_changes version) as [[|column columns]|];
        cbv beta iota; rewrite app_nil_l.
      * now rewrite map_map.
      * apply schema_definition_of_row.
      * now rewrite map_map.
    + intros sv Hsv. apply N.eqb_eq. unfold new_schema_rows in Hsv.
      destruct (vc_schema_changes version) as [[|c cs]|];
        apply in_map_iff in Hsv; destruct Hsv as [x [<- _]]; reflexivity.
  - unfold create_new_version in Hcreated.
    destruct (find _ (db_datasets db)); [|discriminate].
    destruct (query_latest_version db dataset); [|discriminate].
    destruct (next_version_number _); [|discriminate].
    simpl in Hcreated. now injection Hcreated as <- _.
  - exact Hversions.
  - exact Hlog.
  - eexists. exact Hschema.
Qed.

Lemma create_new_version_schema_snapshot_witness :
  exists latest,
    query_latest_version Sample.db1 100 = Some latest /\
    map schema_definition_of (query_schema Sample.db2 2)
    = map schema_definition_of (query_schema Sample.db1 (version_id latest)).
Proof.
  destruct (@create_new_version_schema_snapshot Sample.db1 100
              (Sample.request UPDATE [Sample.row 1 9]) 7 2 2000
              Sample.db2 Sample.version2)
    as [latest [Hlatest [Hschema _]]].
  - vm_compute. reflexivity.
  - intros sv [<-|[<-|[]]]; discriminate.
  - exists latest. split; [exact Hlatest|exact Hschema].
Defined.

(** ** The cache *)

Lemma key_eqb_eq (a b : uuid * string) : key_eqb a b = true <-> a = b.
Proof.
  unfold key_eqb. destruct a as [a1 a2], b as [b1 b2]. simpl.
  rewrite andb_true_iff, N.eqb_eq, String.eqb_eq. split.
  - intros [-> ->]. reflexivity.
  - intros [= -> ->]. split; reflexivity.
Qed.

Lemma find_filter_implied {A : Type} (p q : A -> bool) (xs : list A) :
  (forall x, p x = true -> q x = true) -> find p (filter q xs) = find p xs.
Proof.
  intros H. induction xs as [|x xs IH]; simpl; [reflexivity|].
  destruct (q x) eqn:Eq; simpl.
  - destruct (p x); [reflexivity|assumption].
  - destruct (p x) eqn:Ep; [|assumption]. rewrite (H x Ep) in Eq. discriminate.
Qed.

Lemma cache_version_live (redis : Redis) (key : uuid * string) (v : CachedVersion)
    (now later : datetime) :
  ((later < now + 3600)%Z ->
   get_cached_version (cache_version redis key v now) key later = Some v) /\
  ((now + 3600 <= later)%Z ->
   get_cached_version (cache_version redis key v now) key later = None).
Proof.
  unfold get_cached_version, cache_version, redis_get, setex. simpl.
  rewrite key_eqb_refl. split; intros H.
  - apply Z.ltb_lt in H. now rewrite H.
  - apply Z.ltb_ge in H. now rewrite H.
Qed.

(** X15. The cache reads back what was stored: after [cache_version] the
    same key gives the stored value at every time before the expiry, 3600
    seconds after the store, and a miss from then on, whatever the key held
    before; every other key reads as it did. *)
Theorem cache_version_reads_back (redis : Redis) (key other : uuid * string)
    (v : CachedVersion) (now later : datetime) :
  get_cached_version (cache_version redis key v now) key later
  = (if (later <? now + 3600)%Z then Some v else None) /\
  (other <> key ->
   get_cached_version (cache_version redis key v now) other later
   = get_cached_version redis other later).
Proof.
  unfold get_cached_version, cache_version, redis_get, setex. split.
  - simpl. now rewrite key_eqb_refl.
  - intros Hother. simpl.
    destruct (key_eqb key other) eqn:E.
    + apply key_eqb_eq in E. congruence.
    + rewrite find_filter_implied; [reflexivity|].
      intros e He. apply key_eqb_eq in He. apply negb_true_iff.
      destruct (key_eqb (fst e) key) eqn:E'; [|reflexivity].
      apply key_eqb_eq in E'. congruence.
Qed.

(** X16. A cached read does not see later writes until the entry expires.
    After a miss on [db] filled the cache, a read from any database [db'] at a
    time within 3600 seconds returns what was built from [db]; at a later
    time it returns what a read without cache returns from [db']. *)
Theorem get_version_with_cache_stale (redis : Redis) (db db' : DB) (dataset : uuid)
    (number : string) (now later : datetime) (version : Version) :
  get_cached_version redis (dataset, number) now = None ->
  query_version db dataset number = Some version ->
  let filled := snd (get_version_with_cache redis db dataset number now) in
  ((now <= later < now + 3600)%Z ->
   get_version_with_cache filled db' dataset number later
   = (fst (get_version_with_cache redis db dataset number now), filled)) /\
  ((now + 3600 <= later)%Z ->
   fst (get_version_with_cache filled db' dataset number later)
   = fst (get_version_with_cache [] db' dataset number later)).
Proof.
  intros Hmiss Hq filled.
  assert (Hfilled : filled
                    = cache_version redis (dataset, number)
                        {| version_info := _format_version_result db version;
                           data := map changed_data (changes_of db version) |} now).
  { unfold filled, get_version_with_cache. now rewrite Hmiss, Hq. }
  split; intros Hlater.
  - unfold get_version_with_cache at 1. rewrite Hfilled at 1.
    rewrite (proj1 (cache_version_live redis (dataset, number) _ now later)) by lia.
    unfold get_version_with_cache. now rewrite Hmiss, Hq.
  - unfold get_version_with_cache at 1. rewrite Hfilled at 1.
    rewrite (proj2 (cache_version_live redis (dataset, number) _ now later)) by lia.
    unfold get_version_with_cache. simpl.
    now destruct (query_version db' dataset number).
Qed.

Lemma get_version_with_cache_stale_witness :
  get_version_with_cache
    (snd (get_version_with_cache [] Sample.db1 100 "1.0" 3000)) Sample.db2 100 "1.0" 3500
  = (fst (get_version_with_cache [] Sample.db1 100 "1.0" 3000),
     snd (get_version_with_cache [] Sample.db1 100 "1.0" 3000)).
Proof.
  refine (proj1 (@get_version_with_cache_stale [] Sample.db1 Sample.db2 100 "1.0"
                   3000 3500 Sample.version1 eq_refl eq_refl) _).
  lia.
Defined.

(** ** Edge inputs of the version search *)

(** X17. Three inputs on which the search does not filter as one may
    expect.  The end point keeps a date filter only when both ends are given:
    with a start date alone, or an end date alone, it answers as with no date
    at all.  An empty list of column names matches no version, and so does a
    date range whose end lies before its start. *)
Theorem search_versions_edge_inputs (db : DB) (dataset : uuid) :
  (forall bound change_type schema_changes,
      search_dataset_versions db dataset (Some bound) None change_type schema_changes
      = search_dataset_versions db dataset None None change_type schema_changes /\
      search_dataset_versions db dataset None (Some bound) change_type schema_changes
      = search_dataset_versions db dataset None None change_type schema_changes) /\
  (forall range change_type,
      search_versions db dataset
        {| date_range := range; f_change_type := change_type;
           f_schema_changes := Some [] |} = []) /\
  (forall range_start range_end change_type schema_changes,
      (range_end < range_start)%Z ->
      search_versions db dataset
        {| date_range := Some (range_start, range_end); f_change_type := change_type;
           f_schema_changes := schema_changes |} = []).
Proof.
  split; [|split].
  - intros bound change_type schema_changes. split; reflexivity.
  - intros range change_type. unfold search_versions, search_query. simpl.
    rewrite filter_none; [reflexivity|]. intros row _. reflexivity.
  - intros range_start range_end change_type schema_changes Hempty.
    unfold search_versions, search_query. simpl.
    rewrite (@filter_none _ (fun v => (range_start <=? created_at v)%Z
                                      && (created_at v <=? range_end)%Z)).
    + destruct change_type, schema_changes; reflexivity.
    + intros v _. apply andb_false_iff.
      destruct (Z.leb_spec range_start (created_at v)); [right|left; reflexivity].
      apply Z.leb_gt. lia.
Qed.


(** ** The difference of two data sets *)

Lemma set_difference_In (a b : list value) (x : value) :
  In x (set_difference a b) <-> In x a /\ ~ In x b.
Proof.
  unfold set_difference. rewrite filter_In.
  destruct (in_dec value_eq_dec x b); intuition congruence.
Qed.

Lemma set_difference_NoDup (a b : list value) :
  NoDup a -> NoDup (set_difference a b).
Proof. intros H. unfold set_difference. now apply NoDup_filter. Qed.

Lemma map_loads (texts : list value) : map loads texts = texts.
Proof. unfold loads. apply map_id. Qed.

(** X18. What [calculate_data_diff] reports.  [added] holds, each once, the
    items of the new data whose text (keys sorted) no item of the old data
    has, and [deleted] the items of the old data whose text no new item has;
    no item is in both.  [modified] is always empty: a record that changed
    shows as one deleted and one added item.  Swapping the two data sets swaps
    [added] and [deleted]. *)
Theorem calculate_data_diff_reports (old_data new_data : list dict) :
  let diff := calculate_data_diff old_data new_data in
  modified diff = [] /\
  (forall x, In x (added diff) <->
             In x (map dumps new_data) /\ ~ In x (map dumps old_data)) /\
  (forall x, In x (deleted diff) <->
             In x (map dumps old_data) /\ ~ In x (map dumps new_data)) /\
  NoDup (added diff) /\
  NoDup (deleted diff) /\
  (forall x, In x (added diff) -> ~ In x (deleted diff)) /\
  added (calculate_data_diff new_data old_data) = deleted diff /\
  deleted (calculate_data_diff new_data old_data) = added diff.
Proof.
  unfold calculate_data_diff. simpl. rewrite !map_loads.
  split; [reflexivity|]. split; [|split; [|split; [|split; [|split]]]].
  - intros x. unfold text_set. rewrite set_difference_In, !nodup_In. reflexivity.
  - intros x. unfold text_set. rewrite set_difference_In, !nodup_In. reflexivity.
  - apply set_difference_NoDup, NoDup_nodup.
  - apply set_difference_NoDup, NoDup_nodup.
  - intros x Hadded Hdeleted.
    apply set_difference_In in Hadded, Hdeleted. tauto.
  - split; reflexivity.
Qed.

(** *** Sorted keys *)

Lemma ascii_compare_chain (a b c : ascii) :
  match Ascii.compare a b, Ascii.compare b c with
  | Eq, r | r, Eq => Ascii.compare a c = r
  | Lt, Lt => Ascii.compare a c = Lt
  | Gt, Gt => Ascii.compare a c = Gt
  | _, _ => True
  end.
Proof.
  unfold Ascii.compare.
  destruct (N.compare_spec (N_of_ascii a) (N_of_ascii b)) as [E1|E1|E1];
    destruct (N.compare_spec (N_of_ascii b) (N_of_ascii c)) as [E2|E2|E2];
    try exact I;
    try (rewrite E1; first [apply N.compare_eq_iff | apply N.compare_lt_iff
                            | apply N.compare_gt_iff]; assumption);
    try (rewrite <- E2; first [apply N.compare_eq_iff | apply N.compare_lt_iff
                               | apply N.compare_gt_iff]; assumption);
    first [apply N.compare_lt_iff | apply N.compare_gt_iff]; lia.
Qed.

Lemma string_leb_trans (s1 s2 s3 : string) :
  String.leb s1 s2 = true -> String.leb s2 s3 = true -> String.leb s1 s3 = true.
Proof.
  unfold String.leb. revert s2 s3.
  induction s1 as [|a s1 IH]; intros [|b s2] [|c s3]; simpl; try congruence.
  pose proof (ascii_compare_chain a b c) as H.
  destruct (Ascii.compare a b) eqn:E1, (Ascii.compare b c) eqn:E2;
    try congruence; rewrite ?H; try congruence.
  apply IH.
Qed.

Lemma insert_key_In (k : string) (v : value) (sorted : dict) (x : string * value) :
  In x (insert_key k v sorted) <-> x = (k, v) \/ In x sorted.
Proof.
  induction sorted as [|[k' v'] sorted IH]; simpl.
  - intuition auto.
  - destruct (String.leb k k'); simpl; [|rewrite IH]; intuition auto.
Qed.

Lemma insert_key_sorted (k : string) (v : value) (sorted : dict) :
  StronglySorted key_leb sorted -> StronglySorted key_leb (insert_key k v sorted).
Proof.
  induction sorted as [|[k' v'] sorted IH]; intros Hs; simpl.
  - repeat constructor.
  - inversion Hs as [|? ? Hrest Hall]; subst.
    destruct (String.leb k k') eqn:E.
    + constructor; [assumption|]. constructor; [exact E|].
      rewrite Forall_forall in *. intros x Hx. unfold key_leb in *. simpl in *.
      apply string_leb_trans with k'; auto.
    + constructor; [now apply IH|].
      rewrite Forall_forall in *. intros x Hx. apply insert_key_In in Hx.
      destruct Hx as [->|Hx]; [|auto]. unfold key_leb. simpl.
      destruct (String.leb_total k k') as [H|H]; [congruence|assumption].
Qed.

Lemma insert_key_perm (k : string) (v : value) (sorted : dict) :
  Permutation (insert_key k v sorted) ((k, v) :: sorted).
Proof.
  induction sorted as [|[k' v'] sorted IH]; simpl; [reflexivity|].
  destruct (String.leb k k'); [reflexivity|]. rewrite IH. apply perm_swap.
Qed.

(** Two sorted dictionaries with the same entries are one. *)
Lemma sorted_dict_unique (d1 d2 : dict) :
  StronglySorted key_leb d1 -> StronglySorted key_leb d2 ->
  wf_dict d1 -> Permutation d1 d2 -> d1 = d2.
Proof.
  revert d2. induction d1 as [|x d1 IH]; intros d2 Hs1 Hs2 Hwf Hperm.
  - apply Permutation_nil in Hperm. now subst.
  - destruct d2 as [|y d2]; [apply Permutation_sym, Permutation_nil in Hperm; discriminate|].
    inversion Hs1 as [|? ? Hs1' Hall1]; subst.
    inversion Hs2 as [|? ? Hs2' Hall2]; subst.
    unfold wf_dict in Hwf. simpl in Hwf. inversion Hwf as [|? ? Hnotin Hwf']; subst.
    assert (Hxy : x = y).
    { assert (Hx : In x (y :: d2)) by (apply (Permutation_in _ Hperm); now left).
      assert (Hy : In y (x :: d1))
        by (apply (Permutation_in _ (Permutation_sym Hperm)); now left).
      destruct Hx as [Hx|Hx]; [now symmetry|].
      destruct Hy as [Hy|Hy]; [assumption|]. exfalso.
      rewrite Forall_forall in Hall1, Hall2.
      pose proof (Hall1 y Hy) as H1. pose proof (Hall2 x Hx) as H2.
      unfold key_leb in H1, H2.
      apply Hnotin. rewrite (String.leb_antisym _ _ H1 H2).
      unfold keys. now apply in_map. }
    subst y. f_equal. apply IH; auto.
    now apply Permutation_cons_inv in Hperm.
Qed.

Lemma dumps_sorted (item : dict) :
  exists sorted,
    dumps item = VDict sorted /\
    StronglySorted key_leb sorted /\
    Permutation sorted (map (fun kv => (fst kv, sort_keys (snd kv))) item).
Proof.
  unfold dumps. simpl.
  induction item as [|[k v] item [sorted [E [Hs Hp]]]].
  - exists []. repeat split; constructor.
  - injection E as E. rewrite E.
    exists (insert_key k (sort_keys v) sorted). split; [reflexivity|]. split.
    + now apply insert_key_sorted.
    + simpl. rewrite insert_key_perm. now constructor.
Qed.

(** The text of a record does not depend on the order of its keys. *)
Lemma dumps_permutation (a b : dict) :
  wf_dict a -> Permutation a b -> dumps a = dumps b.
Proof.
  intros Hwf Hperm.
  destruct (dumps_sorted a) as [sa [Ea [Hsa Hpa]]].
  destruct (dumps_sorted b) as [sb [Eb [Hsb Hpb]]].
  rewrite Ea, Eb. f_equal. apply sorted_dict_unique; auto.
  - unfold wf_dict, keys in *.
    apply (Permutation_NoDup (l := map fst a)); [|assumption].
    rewrite (Permutation_map fst Hpa), map_map. simpl. reflexivity.
  - rewrite Hpa, Hpb. now apply Permutation_map.
Qed.

(** X19. Records that differ only in the order of their keys are the same
    to [calculate_data_diff]: when each new record is an old record with its
    keys in another order, and conversely, nothing is reported - in
    particular when the two data sets are equal. *)
Theorem calculate_data_diff_key_order (old_data new_data : list dict) :
  Forall (fun item : dict => wf_dict item) old_data ->
  (forall new_item, In new_item new_data ->
                    exists old_item, In old_item old_data /\ Permutation old_item new_item) ->
  (forall old_item, In old_item old_data ->
                    exists new_item, In new_item new_data /\ Permutation old_item new_item) ->
  calculate_data_diff old_data new_data
  = {| added := []; modified := []; deleted := [] |}.
Proof.
  intros Hwf Hnew Hold. rewrite Forall_forall in Hwf.
  assert (Hsame : forall x, In x (map dumps new_data) <-> In x (map dumps old_data)).
  { intros x. rewrite !in_map_iff. split.
    - intros [item [<- Hin]]. destruct (Hnew item Hin) as [o [Ho Hp]].
      exists o. split; [|assumption]. apply dumps_permutation; auto.
    - intros [item [<- Hin]]. destruct (Hold item Hin) as [n [Hn Hp]].
      exists n. split; [|assumption]. symmetry. apply dumps_permutation; auto. }
  unfold calculate_data_diff. rewrite !map_loads. f_equal.
  - destruct (set_difference _ _) as [|x rest] eqn:E; [reflexivity|].
    assert (Hx : In x (x :: rest)) by now left.
    rewrite <- E in Hx. apply set_difference_In in Hx. unfold text_set in Hx.
    rewrite !nodup_In in Hx. destruct Hx as [H1 H2]. now apply Hsame in H1.
  - destruct (set_difference _ _) as [|x rest] eqn:E; [reflexivity|].
    assert (Hx : In x (x :: rest)) by now left.
    rewrite <- E in Hx. apply set_difference_In in Hx. unfold text_set in Hx.
    rewrite !nodup_In in Hx. destruct Hx as [H1 H2]. now apply Hsame in H1.
Qed.

Lemma calculate_data_diff_key_order_witness :
  calculate_data_diff [[("id", VInt 1); ("x", VInt 2)]] [[("x", VInt 2); ("id", VInt 1)]]
  = {| added := []; modified := []; deleted := [] |}.
Proof.
  apply calculate_data_diff_key_order.
  - repeat constructor; simpl; intuition discriminate.
  - intros item [<-|[]]. eexists. split; [now left|]. apply perm_swap.
  - intros item [<-|[]]. eexists. split; [now left|]. apply perm_swap.
Defined.
